(** * Guardian ads dashboard: the Google Ads -> Supabase ETL

    A shallow embedding of [scripts/sync_google_ads.py] and the properties
    its specification states about it.

    Conventions of the embedding:
    - a Python [str] is a [string]; each character stands for the Unicode
      code point of the same number, so texts range over code points 0..255;
    - a Python [int] is a [Z], a Python [float] is a binary64 [float];
    - the look-up tables and the dictionaries the script fills are [gmap]s;
      an API row is a record of the fields the script reads, and an Output
      Record, whose keys are fixed by the dict literal that builds it, is a
      record with one field per key;
    - a call that may raise returns a [result]; calls to the two vendor
      clients are answered by an explicit environment, and the calls made
      are listed in the order they are made. *)

From Stdlib Require Import ZArith Floats Ascii String DecimalString List Lia Bool.
From stdpp Require Import gmap strings list sorting.

#[local] Set Warnings "-inexact-float".
Local Open Scope string_scope.
Local Open Scope list_scope.

(** ** Results of calls that may raise *)

Inductive result (A : Type) : Type :=
| Ok (a : A)
| Raise (exc : string).
Arguments Ok {A} a.
Arguments Raise {A} exc.

#[global] Instance result_ret : MRet result := fun A a => Ok a.
#[global] Instance result_bind : MBind result := fun A B k m =>
  match m with
  | Ok a => k a
  | Raise e => Raise e
  end.

#[global] Instance result_fmap : FMap result := fun A B f m =>
  match m with
  | Ok a => Ok (f a)
  | Raise e => Raise e
  end.

(** ** Python string operations over code points 0..255 *)

Module PyStr.

Definition code (c : ascii) : N := N_of_ascii c.

(** [str.lower] on one code point: A-Z and the Latin-1 capitals
    U+00C0..U+00DE except the multiplication sign U+00D7. *)
Definition lower_char (c : ascii) : ascii :=
  let n := code c in
  if ((65 <=? n) && (n <=? 90))%N then ascii_of_N (n + 32)
  else if ((192 <=? n) && (n <=? 222) && negb (n =? 215))%N
       then ascii_of_N (n + 32)
  else c.

Fixpoint lower (s : string) : string :=
  match s with
  | EmptyString => EmptyString
  | String c s' => String (lower_char c) (lower s')
  end.

(** [s.startswith(p)] *)
Fixpoint startswith (p s : string) : bool :=
  match p, s with
  | EmptyString, _ => true
  | String a p', String b s' => Ascii.eqb a b && startswith p' s'
  | String _ _, EmptyString => false
  end.

(** [k in t] *)
Fixpoint contains (k t : string) : bool :=
  startswith k t ||
  match t with
  | EmptyString => false
  | String _ t' => contains k t'
  end.

(** [s.endswith(p)] *)
Fixpoint endswith (p s : string) : bool :=
  String.eqb p s ||
  match s with
  | EmptyString => false
  | String _ s' => endswith p s'
  end.

(** [any(k in t for k in ks)] *)
Definition any_in (ks : list string) (t : string) : bool :=
  existsb (fun k => contains k t) ks.

(** [sep.join(parts)] *)
Fixpoint join (sep : string) (parts : list string) : string :=
  match parts with
  | [] => ""
  | [p] => p
  | p :: ps => p +:+ sep +:+ join sep ps
  end.

(** [str.isspace] on one code point. *)
Definition is_space (c : ascii) : bool :=
  let n := code c in
  (((9 <=? n) && (n <=? 13)) || ((28 <=? n) && (n <=? 32))
   || (n =? 133) || (n =? 160))%N.

Fixpoint lstrip (s : string) : string :=
  match s with
  | EmptyString => EmptyString
  | String c s' => if is_space c then lstrip s' else s
  end.

Fixpoint rstrip (s : string) : string :=
  match s with
  | EmptyString => EmptyString
  | String c s' =>
      match rstrip s' with
      | EmptyString => if is_space c then EmptyString else String c EmptyString
      | r => String c r
      end
  end.

(** [s.strip()] *)
Definition strip (s : string) : string := rstrip (lstrip s).

(** The code points with Numeric_Type Digit or Decimal below 256. *)
Definition is_digit_char (c : ascii) : bool :=
  let n := code c in
  (((48 <=? n) && (n <=? 57)) || (n =? 178) || (n =? 179) || (n =? 185))%N.

Fixpoint all_digits (s : string) : bool :=
  match s with
  | EmptyString => true
  | String c s' => is_digit_char c && all_digits s'
  end.

(** [s.isdigit()]: false on the empty string. *)
Definition isdigit (s : string) : bool :=
  match s with
  | EmptyString => false
  | _ => all_digits s
  end.

(** [t] has [k] as a contiguous substring. *)
Definition Substring (k t : string) : Prop :=
  exists pre post, t = pre +:+ k +:+ post.

End PyStr.

(** ** Classifiers *)

Definition infer_product (text : string) : string :=
  let t := PyStr.lower text in
  if PyStr.any_in ["termlife"; "term life"; "term-life"; "life insurance"] t
  then "Term Life"
  else if PyStr.contains "dental" t then "Dental Network"
  else if PyStr.any_in ["disability"; "idi"] t then "Disability"
  else if PyStr.any_in ["annuity"; "annuities"; "rila"; "retirement"] t
  then "Annuities"
  else if PyStr.any_in ["recruit"; "credential"; "join"; "provider"] t
  then "Join Our Network"
  else "Other".

Definition infer_intent_bucket (text : string) : string :=
  let t := PyStr.lower text in
  let has_nonbrand :=
    PyStr.any_in ["nonbrand"; "non-brand"; "nonbranded"; "non-branded"] t in
  if PyStr.contains "google_brand" t || PyStr.startswith "google_brand" t
  then "Brand"
  else if negb has_nonbrand
          && (PyStr.contains "-brand-" t || PyStr.contains "-branded" t
              || PyStr.endswith "-branded" t)
  then "Brand"
  else if PyStr.any_in ["group"; "employer"; "worksite"; "abm-"] t
  then "Group"
  else if PyStr.any_in ["leadgen"; "conversion"; "quote"; "quotes"] t
  then "Nonbrand Lead Gen"
  else if PyStr.any_in
            ["midfunnel"; "education"; "alwayson"; "traffic"; "awareness"] t
  then "Education/Midfunnel"
  else "Education/Midfunnel".

(** ** Python numbers *)

Module PyNum.

(** A Python number as the script meets it: an [int] or a [float]. *)
Inductive num : Type :=
| PInt (z : Z)
| PFloat (f : float).

Definition exact (z : Z) : spec_float :=
  match z with
  | Z0 => S754_zero false
  | Zpos p => S754_finite false p 0
  | Zneg p => S754_finite true p 0
  end.

(** [float(z)]: the binary64 value nearest to [z]. *)
Definition float_of_int (z : Z) : float :=
  SF2Prim (binary_normalize prec emax z 0 false).

Definition to_float (d : num) : float :=
  match d with
  | PInt z => float_of_int z
  | PFloat f => f
  end.

(** [x == 0] *)
Definition is_zero (d : num) : bool :=
  match d with
  | PInt z => (z =? 0)%Z
  | PFloat f => (f =? 0)%float
  end.

(** [bool(x)]: a number is falsy exactly when it equals zero (both float
    zeros are falsy, NaN is truthy). *)
Definition truthy (d : num) : bool := negb (is_zero d).

(** [a / d] with a float on the left: ZeroDivisionError on a zero
    divisor, the IEEE quotient otherwise. *)
Definition truediv (a : float) (d : num) : result float :=
  if is_zero d then Raise "ZeroDivisionError: float division by zero"
  else Ok (a / to_float d)%float.

(** [a / b] on two ints with [b] non-zero: the quotient rounded once. *)
Definition int_truediv (a b : Z) : float :=
  SF2Prim (SFdiv prec emax (exact a) (exact b)).

(** [math.isfinite(x)]: neither NaN nor an infinity. *)
Definition isfinite (f : float) : bool :=
  match Prim2SF f with
  | S754_nan | S754_infinity _ => false
  | _ => true
  end.

(** [int(x)]: an int is returned as it is; a float is truncated toward
    zero, with ValueError on NaN and OverflowError on an infinity. *)
Definition to_int (x : num) : result Z :=
  match x with
  | PInt z => Ok z
  | PFloat f =>
      match Prim2SF f with
      | S754_nan => Raise "ValueError: cannot convert float NaN to integer"
      | S754_infinity _ =>
          Raise "OverflowError: cannot convert float infinity to integer"
      | S754_zero _ => Ok 0%Z
      | S754_finite sign m e =>
          let magnitude := Z.shiftl (Z.pos m) e in
          Ok (if sign then (- magnitude)%Z else magnitude)
      end
  end.

(** [x or 0] *)
Definition or_zero (x : num) : num := if truthy x then x else PInt 0.

(** [float(x or 0)] *)
Definition float_or_zero (x : float) : float :=
  if (x =? 0)%float then 0%float else x.

(** [str(z)] *)
Definition str (z : Z) : string := NilZero.string_of_int (Z.to_int z).

Definition float_le (x y : float) : Prop := (x <=? y)%float = true.

#[global] Instance float_le_dec : RelDecision float_le.
Proof. intros x y. unfold float_le. apply _. Defined.

End PyNum.

Import PyNum.

(** ** Helpers *)

(** Google Ads cost fields are in micros: [int(val or 0) / 1_000_000].
    The script calls it on the int64 field [cost_micros] and on the double
    field [average_cpc]. On an int, [int(val or 0)] is [val] itself and
    nothing can raise (lemma [micros_of_int]): *)
Definition _micros (val : Z) : float := int_truediv val 1000000.

(** [_micros] on a double: [int(val or 0)] truncates it first, and raises
    on NaN and on an infinity. *)
Definition _micros_double (val : float) : result float :=
  z ← to_int (or_zero (PFloat val));
  mret (_micros z).

Definition _div (numerator : float) (denominator : num) : result float :=
  if truthy denominator then truediv numerator denominator else Ok 0%float.

(** [statistics.median]: the middle of the sorted data, the mean of the two
    middle values for an even count, StatisticsError on no data. *)
Definition median (data : list float) : result float :=
  let data := merge_sort float_le data in
  let n := length data in
  if (n =? 0)%nat then Raise "StatisticsError: no median for empty data"
  else if (n mod 2 =? 1)%nat then Ok (nth (n / 2) data 0%float)
  else
    let i := (n / 2)%nat in
    Ok ((nth (i - 1) data 0 + nth i data 0) / 2)%float.

Definition _med (vals : list float) : result float :=
  match vals with
  | [] => Ok 0%float
  | _ => median vals
  end.

(** ** Search-term classification *)

Inductive Label : Type := winner | loser | neutral.

Definition label_str (l : Label) : string :=
  match l with
  | winner => "winner"
  | loser => "loser"
  | neutral => "neutral"
  end.

(** *** Fixed-point rendering of a float: [f"{x:.1f}"] and [f"{x:,.2f}"] *)

(** [z] rounded to an integer, ties to even, for [z = n / d] with [d > 0]. *)
Definition round_half_even (n d : Z) : Z :=
  let q := (n / d)%Z in
  let r := (n mod d)%Z in
  match (2 * r ?= d)%Z with
  | Lt => q
  | Gt => (q + 1)%Z
  | Eq => if Z.even q then q else (q + 1)%Z
  end.

(** The digits of [s], in groups of three from the right, comma-separated. *)
Fixpoint group_thousands (rev_digits : list ascii) (i : nat) (acc : list ascii)
    : list ascii :=
  match rev_digits with
  | [] => acc
  | c :: rest =>
      if (0 <? i)%nat && (i mod 3 =? 0)%nat
      then group_thousands rest (S i) (c :: ","%char :: acc)
      else group_thousands rest (S i) (c :: acc)
  end.

Definition with_commas (digits : string) : string :=
  string_of_list_ascii
    (group_thousands (List.rev (list_ascii_of_string digits)) 0 []).

(** [s] padded on the left with zeros, up to [pad] of them, to [width]. *)
Fixpoint zero_pad (pad width : nat) (s : string) : string :=
  match pad with
  | O => s
  | S pad' =>
      if (String.length s <? width)%nat then zero_pad pad' width ("0" +:+ s)
      else s
  end.

(** [format(x, ".{prec}f")], with [","] grouping when [commas]. *)
Definition format_fixed (commas : bool) (prec : nat) (x : float) : string :=
  let scale := (10 ^ Z.of_nat prec)%Z in
  let render (negative : bool) (q : Z) : string :=
    let int_part := PyNum.str (q / scale) in
    let frac_digits := PyNum.str (q mod scale) in
    (if negative then "-" else "")
    +:+ (if commas then with_commas int_part else int_part)
    +:+ (if (prec =? 0)%nat then ""
         else "." +:+ zero_pad prec prec frac_digits) in
  match Prim2SF x with
  | S754_nan => "nan"
  | S754_infinity s => if s then "-inf" else "inf"
  | S754_zero s => render s 0%Z
  | S754_finite s m e =>
      let q := if (0 <=? e)%Z then (Zpos m * 2 ^ e * scale)%Z
               else round_half_even (Zpos m * scale) (2 ^ (- e)) in
      render s q
  end.

Definition _classify_search_term
    (spend conversions cpa median_cpa : float) : Label * string :=
  if (1 <=? conversions)%float then
    if (median_cpa =? 0)%float
       || ((0 <? cpa)%float && (cpa <=? median_cpa * 0.8)%float)
    then (winner,
          "Converted (" +:+ format_fixed false 1 conversions
          +:+ ") with efficient CPA ($" +:+ format_fixed true 2 cpa +:+ ").")
    else (neutral,
          "Converted (" +:+ format_fixed false 1 conversions
          +:+ ") but CPA above efficient threshold.")
  else if (100 <=? spend)%float && (conversions =? 0)%float
  then (loser, "Spent $" +:+ format_fixed true 2 spend +:+ " with 0 conversions.")
  else (neutral,
        "Mixed signal (spend $" +:+ format_fixed true 2 spend
        +:+ ", conv " +:+ format_fixed false 1 conversions +:+ ").").

(** ** Enum look-up tables *)

Definition _STATUS_MAP : gmap string string :=
  list_to_map [("ENABLED", "enabled"); ("PAUSED", "paused"); ("REMOVED", "ended")].

Definition _MATCH_MAP : gmap string string :=
  list_to_map [("EXACT", "Exact"); ("PHRASE", "Phrase"); ("BROAD", "Broad")].

Definition _US_STATE_CODE_BY_NAME : gmap string string :=
  list_to_map
    [("Alabama", "AL"); ("Alaska", "AK"); ("Arizona", "AZ"); ("Arkansas", "AR");
     ("California", "CA"); ("Colorado", "CO"); ("Connecticut", "CT");
     ("Delaware", "DE"); ("District of Columbia", "DC"); ("Florida", "FL");
     ("Georgia", "GA"); ("Hawaii", "HI"); ("Idaho", "ID"); ("Illinois", "IL");
     ("Indiana", "IN"); ("Iowa", "IA"); ("Kansas", "KS"); ("Kentucky", "KY");
     ("Louisiana", "LA"); ("Maine", "ME"); ("Maryland", "MD");
     ("Massachusetts", "MA"); ("Michigan", "MI"); ("Minnesota", "MN");
     ("Mississippi", "MS"); ("Missouri", "MO"); ("Montana", "MT");
     ("Nebraska", "NE"); ("Nevada", "NV"); ("New Hampshire", "NH");
     ("New Jersey", "NJ"); ("New Mexico", "NM"); ("New York", "NY");
     ("North Carolina", "NC"); ("North Dakota", "ND"); ("Ohio", "OH");
     ("Oklahoma", "OK"); ("Oregon", "OR"); ("Pennsylvania", "PA");
     ("Rhode Island", "RI"); ("South Carolina", "SC"); ("South Dakota", "SD");
     ("Tennessee", "TN"); ("Texas", "TX"); ("Utah", "UT"); ("Vermont", "VT");
     ("Virginia", "VA"); ("Washington", "WA"); ("West Virginia", "WV");
     ("Wisconsin", "WI"); ("Wyoming", "WY")].

(** [table.get(key, fallback)] *)
Definition dict_get {V} (table : gmap string V) (key : string) (fallback : V) : V :=
  default fallback (table !! key).

(** An enum value is represented by its [name]; [_ename] reads it. *)
Definition _ename (val : string) : string := val.

Definition _lookup (table : gmap string string) (val : string)
    (fallback : string) : string :=
  dict_get table (_ename val) fallback.

(** ** SHA-256 (FIPS 180-4) on 32-bit words held in [Z] *)

Module Sha256.
Local Open Scope Z_scope.

Definition w32 (x : Z) : Z := x mod 2 ^ 32.
Definition add32 (a b : Z) : Z := w32 (a + b).
Definition rotr (n x : Z) : Z :=
  Z.lor (Z.shiftr x n) (w32 (Z.shiftl x (32 - n))).
Definition not32 (x : Z) : Z := Z.lxor x 4294967295.

Definition Ch (x y z : Z) : Z := Z.lxor (Z.land x y) (Z.land (not32 x) z).
Definition Maj (x y z : Z) : Z :=
  Z.lxor (Z.lxor (Z.land x y) (Z.land x z)) (Z.land y z).
Definition Sigma0 (x : Z) : Z := Z.lxor (Z.lxor (rotr 2 x) (rotr 13 x)) (rotr 22 x).
Definition Sigma1 (x : Z) : Z := Z.lxor (Z.lxor (rotr 6 x) (rotr 11 x)) (rotr 25 x).
Definition sigma0 (x : Z) : Z := Z.lxor (Z.lxor (rotr 7 x) (rotr 18 x)) (Z.shiftr x 3).
Definition sigma1 (x : Z) : Z := Z.lxor (Z.lxor (rotr 17 x) (rotr 19 x)) (Z.shiftr x 10).

(** The first 64 primes. *)
Definition primes : list Z :=
  [2; 3; 5; 7; 11; 13; 17; 19; 23; 29; 31; 37; 41; 43; 47; 53; 59; 61; 67;
   71; 73; 79; 83; 89; 97; 101; 103; 107; 109; 113; 127; 131; 137; 139; 149;
   151; 157; 163; 167; 173; 179; 181; 191; 193; 197; 199; 211; 223; 227;
   229; 233; 239; 241; 251; 257; 263; 269; 271; 277; 281; 283; 293; 307; 311].

(** The integer cube root below 2^bits, found bit by bit from the top. *)
Fixpoint cube_root_bits (bits : nat) (n r : Z) : Z :=
  match bits with
  | O => r
  | S b =>
      let r' := r + 2 ^ Z.of_nat b in
      cube_root_bits b n (if r' * r' * r' <=? n then r' else r)
  end.

(** The first 32 bits of the fractional part of a root of [p]. *)
Definition frac32_cbrt (p : Z) : Z := w32 (cube_root_bits 36 (p * 2 ^ 96) 0).
Definition frac32_sqrt (p : Z) : Z := w32 (Z.sqrt (p * 2 ^ 64)).

(** The round constants: fractional parts of the cube roots of the primes. *)
Definition K : list Z := Eval vm_compute in map frac32_cbrt primes.

(** The eight working variables / chaining values. *)
Record state : Type := State { ha : Z; hb : Z; hc : Z; hd : Z; he : Z; hf : Z; hg : Z; hh : Z }.

(** The initial hash value: fractional parts of the square roots of the
    first eight primes. *)
Definition H0 : state :=
  Eval vm_compute in
    State (frac32_sqrt 2) (frac32_sqrt 3) (frac32_sqrt 5) (frac32_sqrt 7)
          (frac32_sqrt 11) (frac32_sqrt 13) (frac32_sqrt 17) (frac32_sqrt 19).

(** Padding: one 1 bit, zeros up to 56 mod 64 bytes, the bit length on
    eight bytes, big-endian. *)
Definition be_bytes (n : nat) (x : Z) : list Z :=
  map (fun i => (Z.shiftr x (8 * Z.of_nat i)) mod 256) (rev (seq 0 n)).

Definition pad (msg : list Z) : list Z :=
  let len := Z.of_nat (length msg) in
  let zeros := Z.to_nat ((55 - len) mod 64) in
  msg ++ [128] ++ repeat 0 zeros ++ be_bytes 8 (8 * len).

Fixpoint be_words (fuel : nat) (bytes : list Z) : list Z :=
  match fuel, bytes with
  | S fuel', b0 :: b1 :: b2 :: b3 :: rest =>
      (b0 * 16777216 + b1 * 65536 + b2 * 256 + b3) :: be_words fuel' rest
  | _, _ => []
  end.

(** The message schedule, extended from 16 to 64 words. *)
Fixpoint extend (n : nat) (w : list Z) : list Z :=
  match n with
  | O => w
  | S n' =>
      let t := length w in
      let x := add32 (add32 (sigma1 (nth (t - 2) w 0)) (nth (t - 7) w 0))
                     (add32 (sigma0 (nth (t - 15) w 0)) (nth (t - 16) w 0)) in
      extend n' (w ++ [x])
  end.

Definition round (s : state) (kw : Z * Z) : state :=
  let '(k, w) := kw in
  let t1 := add32 (add32 (add32 (hh s) (Sigma1 (he s)))
                         (add32 (Ch (he s) (hf s) (hg s)) k)) w in
  let t2 := add32 (Sigma0 (ha s)) (Maj (ha s) (hb s) (hc s)) in
  State (add32 t1 t2) (ha s) (hb s) (hc s) (add32 (hd s) t1) (he s) (hf s) (hg s).

Definition compress (h : state) (block : list Z) : state :=
  let s := fold_left round (combine K (extend 48 block)) h in
  State (add32 (ha h) (ha s)) (add32 (hb h) (hb s)) (add32 (hc h) (hc s))
        (add32 (hd h) (hd s)) (add32 (he h) (he s)) (add32 (hf h) (hf s))
        (add32 (hg h) (hg s)) (add32 (hh h) (hh s)).

Fixpoint blocks (fuel : nat) (h : state) (words : list Z) : state :=
  match fuel, words with
  | S fuel', _ :: _ => blocks fuel' (compress h (firstn 16 words)) (skipn 16 words)
  | _, _ => h
  end.

Definition digest (msg : list Z) : state :=
  let bytes := pad msg in
  let words := be_words (length bytes) bytes in
  blocks (length words) H0 words.

Definition hex_digits : list ascii :=
  ["0"; "1"; "2"; "3"; "4"; "5"; "6"; "7"; "8"; "9"; "a"; "b"; "c"; "d"; "e"; "f"]%char.

Definition nibble (x : Z) (i : Z) : ascii :=
  nth (Z.to_nat (Z.land (Z.shiftr x (4 * i)) 15)) hex_digits "0"%char.

Definition hex32 (x : Z) : string :=
  String (nibble x 7) (String (nibble x 6) (String (nibble x 5) (String (nibble x 4)
 (String (nibble x 3) (String (nibble x 2) (String (nibble x 1) (String (nibble x 0)
  EmptyString))))))).

(** [hashlib.sha256(msg).hexdigest()] *)
Definition hexdigest (msg : list Z) : string :=
  let s := digest msg in
  hex32 (ha s) +:+ hex32 (hb s) +:+ hex32 (hc s) +:+ hex32 (hd s) +:+
  hex32 (he s) +:+ hex32 (hf s) +:+ hex32 (hg s) +:+ hex32 (hh s).

End Sha256.

(** [s.encode()]: UTF-8 of code points below 256. *)
Fixpoint utf8_encode (s : string) : list Z :=
  match s with
  | EmptyString => []
  | String c s' =>
      let n := Z.of_N (N_of_ascii c) in
      (if (n <? 128)%Z then [n]
       else [Z.lor 192 (Z.shiftr n 6); Z.lor 128 (Z.land n 63)])
      ++ utf8_encode s'
  end.

(** [s[:n]] *)
Fixpoint str_take (n : nat) (s : string) : string :=
  match n, s with
  | S n', String c s' => String c (str_take n' s')
  | _, _ => EmptyString
  end.

(** A composite key part: the script passes ints and strings. *)
Inductive Part : Type :=
| KInt (z : Z)
| KStr (s : string).

Definition part_str (p : Part) : string :=
  match p with
  | KInt z => PyNum.str z
  | KStr s => s
  end.

(** Deterministic 16-char hex hash from composite key parts. *)
Definition _make_id (parts : list Part) : string :=
  let raw := PyStr.join "|" (map part_str parts) in
  str_take 16 (Sha256.hexdigest (utf8_encode raw)).

(** ** Report rows and Output Records *)

(** The performance metrics every report row carries, typed as the
    reporting API delivers them: [cost_micros], [impressions] and [clicks]
    are int64; the others, [average_cpc] among them, are doubles. *)
Record Metrics : Type := {
  cost_micros : Z;
  impressions : Z;
  clicks : Z;
  conversions : float;
  conversions_value : float;
  ctr : float;
  average_cpc : float;
  search_impression_share : float;
  search_budget_lost_impression_share : float;
  search_rank_lost_impression_share : float
}.

(** The (id, date) pair every Output Record carries. *)
Class Keyed (R : Type) : Type := {
  rec_id : R -> string;
  rec_date : R -> string
}.

Definition rec_key `{Keyed R} (r : R) : string * string := (rec_id r, rec_date r).

(** *** campaigns *)

Record CampaignRow : Type := {
  cr_campaign_id : Z;
  cr_campaign_name : string;
  cr_campaign_status : string;
  cr_date : string;
  cr_metrics : Metrics
}.

Record CampaignRecord : Type := {
  c_id : string;
  c_date : string;
  c_campaign_name : string;
  c_product : string;
  c_intent_bucket : string;
  c_status : string;
  c_spend : float;
  c_impressions : Z;
  c_clicks : Z;
  c_conversions : float;
  c_conversion_value : float;
  c_ctr : float;
  c_cpc : float;
  c_cpa : float;
  c_roas : float;
  c_conv_rate : float;
  c_search_impression_share : float;
  c_lost_is_budget : float;
  c_lost_is_rank : float
}.

#[global] Instance CampaignRecord_keyed : Keyed CampaignRecord :=
  {| rec_id := c_id; rec_date := c_date |}.

Definition xf_campaign (r : CampaignRow) : result CampaignRecord :=
  let m := cr_metrics r in
  let spend := _micros (cost_micros m) in
  let convs := conversions m in
  let conv_val := conversions_value m in
  let clicks := clicks m in
  cpc ← _micros_double (average_cpc m);
  cpa ← _div spend (PFloat convs);
  roas ← _div conv_val (PFloat spend);
  conv_rate ← _div convs (PInt clicks);
  mret {|
    c_id := PyNum.str (cr_campaign_id r);
    c_date := cr_date r;
    c_campaign_name := cr_campaign_name r;
    c_product := infer_product (cr_campaign_name r);
    c_intent_bucket := infer_intent_bucket (cr_campaign_name r);
    c_status := dict_get _STATUS_MAP (_ename (cr_campaign_status r)) "paused";
    c_spend := spend;
    c_impressions := impressions m;
    c_clicks := clicks;
    c_conversions := convs;
    c_conversion_value := conv_val;
    c_ctr := ctr m;
    c_cpc := cpc;
    c_cpa := cpa;
    c_roas := roas;
    c_conv_rate := conv_rate;
    c_search_impression_share := float_or_zero (search_impression_share m);
    c_lost_is_budget := float_or_zero (search_budget_lost_impression_share m);
    c_lost_is_rank := float_or_zero (search_rank_lost_impression_share m)
  |}.

Definition _xf_campaigns (rows : list CampaignRow) : result (list CampaignRecord) :=
  mapM xf_campaign rows.

(** *** search_terms *)

Record SearchTermRow : Type := {
  sr_campaign_id : Z;
  sr_campaign_name : string;
  sr_ad_group_id : Z;
  sr_ad_group_name : string;
  sr_search_term : string;
  sr_match_type : string;
  sr_date : string;
  sr_metrics : Metrics
}.

Record SearchTermRecord : Type := {
  s_id : string;
  s_date : string;
  s_search_term : string;
  s_campaign_id : string;
  s_campaign_name : string;
  s_ad_group_id : string;
  s_ad_group_name : string;
  s_match_type : string;
  s_label : string;
  s_reason : string;
  s_spend : float;
  s_impressions : Z;
  s_clicks : Z;
  s_conversions : float;
  s_conversion_value : float;
  s_cpa : float;
  s_ctr : float
}.

#[global] Instance SearchTermRecord_keyed : Keyed SearchTermRecord :=
  {| rec_id := s_id; rec_date := s_date |}.

(** First pass: (spend, convs, cpa, row). *)
Definition st_base (r : SearchTermRow) : result (float * float * float * SearchTermRow) :=
  let spend := _micros (cost_micros (sr_metrics r)) in
  let convs := conversions (sr_metrics r) in
  cpa ← _div spend (PFloat convs);
  mret (spend, convs, cpa, r).

(** The CPA sample of a batch. *)
Definition st_cpas (base : list (float * float * float * SearchTermRow)) : list float :=
  omap (fun b => let '(_, convs, cpa, _) := b in
                 if (0 <? convs)%float && (0 <? cpa)%float then Some cpa else None)
       base.

(** Second pass on one base tuple: [None] when the row is skipped. *)
Definition st_emit (median_cpa : float) (b : float * float * float * SearchTermRow)
    : option SearchTermRecord :=
  let '(spend, convs, cpa, r) := b in
  let term := sr_search_term r in
  if String.eqb term "" then None
  else
    let '(label, reason) := _classify_search_term spend convs cpa median_cpa in
    Some {|
      s_id := _make_id [KInt (sr_campaign_id r); KInt (sr_ad_group_id r);
                        KStr term; KStr (_ename (sr_match_type r))];
      s_date := sr_date r;
      s_search_term := term;
      s_campaign_id := PyNum.str (sr_campaign_id r);
      s_campaign_name := sr_campaign_name r;
      s_ad_group_id := PyNum.str (sr_ad_group_id r);
      s_ad_group_name := sr_ad_group_name r;
      s_match_type := _lookup _MATCH_MAP (sr_match_type r) "Broad";
      s_label := label_str label;
      s_reason := reason;
      s_spend := spend;
      s_impressions := impressions (sr_metrics r);
      s_clicks := clicks (sr_metrics r);
      s_conversions := convs;
      s_conversion_value := conversions_value (sr_metrics r);
      s_cpa := cpa;
      s_ctr := ctr (sr_metrics r)
    |}.

(** Two-pass: collect base data, compute median CPA, then classify. *)
Definition _xf_search_terms (rows : list SearchTermRow) : result (list SearchTermRecord) :=
  base ← mapM st_base rows;
  median_cpa ← _med (st_cpas base);
  mret (omap (st_emit median_cpa) base).

(** *** geo_performance *)

Record GeoRow : Type := {
  gr_campaign_id : Z;
  gr_geo_target_region : string;
  gr_country_criterion_id : Z;
  gr_location_type : string;
  gr_date : string;
  gr_metrics : Metrics
}.

Record GeoRecord : Type := {
  g_id : string;
  g_date : string;
  g_campaign_id : string;
  g_state : string;
  g_state_code : string;
  g_dma : string;
  g_spend : float;
  g_impressions : Z;
  g_clicks : Z;
  g_conversions : float;
  g_conversion_value : float;
  g_ctr : float;
  g_cpc : float;
  g_cpa : float;
  g_roas : float;
  g_conv_rate : float
}.

#[global] Instance GeoRecord_keyed : Keyed GeoRecord :=
  {| rec_id := g_id; rec_date := g_date |}.

(** [s.split("/")[-1]]: what follows the last slash; [cur] is the segment
    that starts after the last slash seen so far. *)
Fixpoint last_segment_from (s cur : string) : string :=
  match s with
  | EmptyString => cur
  | String c s' =>
      if Ascii.eqb c "/" then last_segment_from s' s' else last_segment_from s' cur
  end.

Definition last_segment (s : string) : string := last_segment_from s s.

(** [x or fallback] on strings. *)
Definition str_or (x fallback : string) : string :=
  if String.eqb x "" then fallback else x.

Definition xf_geo (r : GeoRow) : result GeoRecord :=
  let m := gr_metrics r in
  let spend := _micros (cost_micros m) in
  let convs := conversions m in
  let clicks := clicks m in
  let region_resource := gr_geo_target_region r in
  let criterion_id :=
    if negb (String.eqb region_resource "") then last_segment region_resource
    else if (gr_country_criterion_id r =? 0)%Z then ""
    else PyNum.str (gr_country_criterion_id r) in
  cpc ← _micros_double (average_cpc m);
  cpa ← _div spend (PFloat convs);
  roas ← _div (conversions_value m) (PFloat spend);
  conv_rate ← _div convs (PInt clicks);
  mret {|
    g_id := _make_id [KInt (gr_campaign_id r); KStr (str_or criterion_id "unknown")];
    g_date := gr_date r;
    g_campaign_id := PyNum.str (gr_campaign_id r);
    g_state := criterion_id;
    g_state_code := criterion_id;
    g_dma := _ename (gr_location_type r);
    g_spend := spend;
    g_impressions := impressions m;
    g_clicks := clicks;
    g_conversions := convs;
    g_conversion_value := conversions_value m;
    g_ctr := ctr m;
    g_cpc := cpc;
    g_cpa := cpa;
    g_roas := roas;
    g_conv_rate := conv_rate
  |}.

Definition _xf_geo_performance (rows : list GeoRow) : result (list GeoRecord) :=
  mapM xf_geo rows.

(** ** Geo enricher *)

(** [l[i : i + size] for i in range(0, len(l), size)] *)
Fixpoint chunks_from {A} (fuel size : nat) (l : list A) : list (list A) :=
  match fuel, l with
  | S fuel', _ :: _ => take size l :: chunks_from fuel' size (drop size l)
  | _, _ => []
  end.

Definition py_chunks {A} (size : nat) (l : list A) : list (list A) :=
  chunks_from (length l) size l.

(** A row of the geo_target_constant resource. *)
Record GeoTargetRow : Type := {
  gt_id : Z;
  gt_name : string;
  gt_canonical_name : string;
  gt_target_type : string;
  gt_country_code : string
}.

Record GeoInfo : Type := {
  gi_name : string;
  gi_canonical_name : string;
  gi_target_type : string;
  gi_country_code : string
}.

(** The reporting API answering a geo-target lookup: the query text is
    fixed but for its IN clause, so a query is identified by the
    identifiers it lists. *)
Definition GeoApi : Type := list string -> result (list GeoTargetRow).

Definition geo_info_of (row : GeoTargetRow) : GeoInfo :=
  {| gi_name := gt_name row;
     gi_canonical_name := gt_canonical_name row;
     gi_target_type := _ename (gt_target_type row);
     gi_country_code := gt_country_code row |}.

Definition add_resolved (resolved : gmap string GeoInfo) (row : GeoTargetRow)
    : gmap string GeoInfo :=
  <[PyNum.str (gt_id row) := geo_info_of row]> resolved.

(** One query per chunk; a query that raises ends the loop. The first
    component lists the queries issued, in order. *)
Fixpoint resolve_chunks (ga : GeoApi) (chunks : list (list string))
    (resolved : gmap string GeoInfo)
    : list (list string) * result (gmap string GeoInfo) :=
  match chunks with
  | [] => ([], Ok resolved)
  | chunk :: rest =>
      match ga chunk with
      | Raise e => ([chunk], Raise e)
      | Ok rows =>
          let '(calls, r) := resolve_chunks ga rest (fold_left add_resolved rows resolved) in
          (chunk :: calls, r)
      end
  end.

Definition chunk_size : nat := 200.

(** Resolve geo target criterion IDs to names and metadata. *)
Definition _geo_target_details (ga : GeoApi) (criterion_ids : list string)
    : list (list string) * result (gmap string GeoInfo) :=
  match criterion_ids with
  | [] => ([], Ok ∅)
  | _ => resolve_chunks ga (py_chunks chunk_size criterion_ids) ∅
  end.

Definition str_le (x y : string) : Prop := String.leb x y = true.

#[global] Instance str_le_dec : RelDecision str_le.
Proof. intros x y. unfold str_le. apply _. Defined.

(** [sorted({strip(state_code) for r in records if strip(state_code).isdigit()})] *)
Definition geo_criterion_ids (records : list GeoRecord) : list string :=
  merge_sort str_le
    (remove_dups
       (filter (fun s => PyStr.isdigit s = true)
               (map (fun r => PyStr.strip (g_state_code r)) records))).

Definition enrich_geo_record (details : gmap string GeoInfo) (rec : GeoRecord)
    : GeoRecord :=
  let raw_id := PyStr.strip (g_state_code rec) in
  match details !! raw_id with
  | None => rec
  | Some info =>
      let name := gi_name info in
      let country_code := gi_country_code info in
      let target_type := gi_target_type info in
      let canonical_name := gi_canonical_name info in
      let '(state, state_code) :=
        if String.eqb country_code "US"
           && (String.eqb target_type "State" || String.eqb target_type "Province")
        then (name, dict_get _US_STATE_CODE_BY_NAME name raw_id)
        else (str_or canonical_name name, raw_id) in
      {| g_id := g_id rec;
         g_date := g_date rec;
         g_campaign_id := g_campaign_id rec;
         g_state := state;
         g_state_code := state_code;
         g_dma := target_type;
         g_spend := g_spend rec;
         g_impressions := g_impressions rec;
         g_clicks := g_clicks rec;
         g_conversions := g_conversions rec;
         g_conversion_value := g_conversion_value rec;
         g_ctr := g_ctr rec;
         g_cpc := g_cpc rec;
         g_cpa := g_cpa rec;
         g_roas := g_roas rec;
         g_conv_rate := g_conv_rate rec |}
  end.

(** Attach human-readable state names/codes to geo performance rows. *)
Definition _enrich_geo_records (ga : GeoApi) (records : list GeoRecord)
    : list (list string) * result (list GeoRecord) :=
  let criterion_ids := geo_criterion_ids records in
  let '(calls, details) := _geo_target_details ga criterion_ids in
  (calls, details ← details; mret (map (enrich_geo_record details) records)).

(** ** Date filtering *)

(** Build a GAQL WHERE clause for date filtering. *)
Definition _date_condition (date_from date_to : string) : string :=
  if String.eqb date_from date_to
  then "segments.date = '" +:+ date_from +:+ "'"
  else "segments.date BETWEEN '" +:+ date_from +:+ "' AND '" +:+ date_to +:+ "'".

(** ** Deduplication and batched upsert *)

Definition BATCH_SIZE : nat := 500.

(** The Supabase table [sync_log] hands back the new row's [id]: an
    integer or a string, as the column is declared. *)
Inductive SyncId : Type :=
| IdInt (z : Z)
| IdStr (s : string).

(** The calls made to the store, in order. *)
Inductive StoreOp (R : Type) : Type :=
| OpInsertLog (status : string) (records_synced : nat)
| OpUpsert (table : string) (chunk : list R)
| OpUpdateLog (sync_id : SyncId) (status : string) (records_synced : nat)
    (error_message : option string).
Arguments OpInsertLog {R} status records_synced.
Arguments OpUpsert {R} table chunk.
Arguments OpUpdateLog {R} sync_id status records_synced error_message.

(** How the process ends: [sync] returns, leaves through [sys.exit], or an
    exception escapes it. *)
Inductive Outcome : Type :=
| Returned
| SysExit (code : Z)
| Uncaught (exc : string).

Definition exit_code (o : Outcome) : Z :=
  match o with
  | Returned => 0
  | SysExit code => code
  | Uncaught _ => 1
  end.

Section Store.
Context {R : Type} `{Keyed R}.

(** [seen[(rec["id"], rec["date"])] = idx] over [enumerate(records)] *)
Definition dedupe_seen (records : list R) : gmap (string * string) nat :=
  fold_left (fun seen ir => <[rec_key ir.2 := ir.1]> seen)
            (combine (seq 0 (length records)) records) ∅.

(** [records[i]] *)
Definition list_get (records : list R) (i : nat) : result R :=
  match records !! i with
  | Some r => Ok r
  | None => Raise "IndexError: list index out of range"
  end.

(** Keep last record per (id, date) to avoid Postgres upsert conflict. *)
Definition _dedupe (records : list R) : result (list R) :=
  let seen := dedupe_seen records in
  mapM (list_get records) (merge_sort Nat.le (map snd (map_to_list seen))).

(** What the surroundings answer during one run, the two vendor clients
    being taken as constructed: yesterday's date (UTC, as YYYY-MM-DD); the
    insertion of the run row (the ids of the rows it returns); for an
    entity name and a date condition, that entity's query, transform and
    enrichment taken together (the records, or the exception raised on the
    way); each upsert call; and the final update of the run row. *)
Record World : Type := {
  w_yesterday : string;
  w_insert_log : result (list SyncId);
  w_produce : string -> string -> result (list R);
  w_upsert : string -> list R -> result unit;
  w_update_log : result unit
}.

Fixpoint upsert_chunks (w : World) (table : string) (chunks : list (list R))
    (total : nat) : list (StoreOp R) * result nat :=
  match chunks with
  | [] => ([], Ok total)
  | chunk :: rest =>
      match w_upsert w table chunk with
      | Raise e => ([OpUpsert table chunk], Raise e)
      | Ok _ =>
          let '(ops, r) := upsert_chunks w table rest (total + length chunk) in
          (OpUpsert table chunk :: ops, r)
      end
  end.

Definition _upsert (w : World) (table : string) (records : list R)
    : list (StoreOp R) * result nat :=
  match records with
  | [] => ([], Ok 0)
  | _ =>
      match _dedupe records with
      | Raise e => ([], Raise e)
      | Ok records => upsert_chunks w table (py_chunks BATCH_SIZE records) 0
      end
  end.

(** ** Sync orchestration *)

Definition ENTITIES : list string :=
  ["campaigns"; "keywords"; "search_terms"; "ads"; "geo_performance";
   "device_performance"; "hourly_performance"; "auction_insights";
   "quality_score_snapshots"; "conversion_actions"; "landing_pages"].

(** The body of the [try] for one entity. *)
Definition process_entity (w : World) (date_cond name : string)
    : list (StoreOp R) * result nat :=
  match w_produce w name date_cond with
  | Raise e => ([], Raise e)
  | Ok records => _upsert w name records
  end.

(** The loop over the entities, threading [total_records] and [errors]. *)
Fixpoint sync_entities (w : World) (date_cond : string) (names : list string)
    (total_records : nat) (errors : list string)
    : list (StoreOp R) * nat * list string :=
  match names with
  | [] => ([], total_records, errors)
  | name :: rest =>
      let '(ops, r) := process_entity w date_cond name in
      let '(total_records, errors) :=
        match r with
        | Ok n => (total_records + n, errors)
        | Raise exc => (total_records, errors ++ [name +:+ ": " +:+ exc])
        end in
      let '(ops', total_records, errors) :=
        sync_entities w date_cond rest total_records errors in
      (ops ++ ops', total_records, errors)
  end.

(** [sync_res.data[0]["id"] if sync_res.data else None] *)
Definition sync_id_of (data : list SyncId) : option SyncId := head data.

(** [if sync_id:] *)
Definition sync_id_truthy (sync_id : option SyncId) : bool :=
  match sync_id with
  | None => false
  | Some (IdInt z) => negb (z =? 0)%Z
  | Some (IdStr s) => negb (String.eqb s "")
  end.

Definition is_empty {A} (l : list A) : bool :=
  match l with [] => true | _ => false end.

Definition final_update (sync_id : SyncId) (total_records : nat)
    (errors : list string) : StoreOp R :=
  OpUpdateLog sync_id
    (if is_empty errors then "success" else "error")
    total_records
    (if is_empty errors then None else Some (PyStr.join "; " errors)).

(** [x or fallback] on an optional string. *)
Definition opt_or (x : option string) (fallback : string) : string :=
  match x with
  | Some s => str_or s fallback
  | None => fallback
  end.

(** The date condition of a run. *)
Definition run_date_condition (w : World) (date_from date_to : option string)
    : string :=
  let d_from := opt_or date_from (w_yesterday w) in
  let d_to := opt_or date_to d_from in
  _date_condition d_from d_to.

Definition sync (w : World) (date_from date_to : option string)
    : list (StoreOp R) * Outcome :=
  let date_cond := run_date_condition w date_from date_to in
  match w_insert_log w with
  | Raise e => ([OpInsertLog "running" 0], Uncaught e)
  | Ok data =>
      let sync_id := sync_id_of data in
      let '(ops, total_records, errors) := sync_entities w date_cond ENTITIES 0 [] in
      let finish := if is_empty errors then Returned else SysExit 1 in
      match sync_id with
      | Some id =>
          if sync_id_truthy sync_id then
            let trace := OpInsertLog "running" 0 :: ops
                         ++ [final_update id total_records errors] in
            match w_update_log w with
            | Raise e => (trace, Uncaught e)
            | Ok _ => (trace, finish)
            end
          else (OpInsertLog "running" 0 :: ops, finish)
      | None => (OpInsertLog "running" 0 :: ops, finish)
      end
  end.

(** The command line: [--date], [--date-from], [--date-to]. *)
Record Args : Type := {
  arg_date : option string;
  arg_date_from : option string;
  arg_date_to : option string
}.

Definition opt_truthy (x : option string) : bool :=
  match x with
  | Some s => negb (String.eqb s "")
  | None => false
  end.

Definition main (w : World) (args : Args) : list (StoreOp R) * Outcome :=
  if opt_truthy (arg_date args) then sync w (arg_date args) (arg_date args)
  else if opt_truthy (arg_date_from args)
  then sync w (arg_date_from args) (arg_date_to args)
  else sync w None None.

End Store.

Arguments World R : clear implicits.

(** ** Identifiers to compare [_make_id] with *)

(** The first code point of a UTF-8 byte string (below 256) and the bytes
    after it: what a reader of the encoded key gets back. *)
Definition utf8_decode_head (bytes : list Z) : option (ascii * list Z) :=
  match bytes with
  | [] => None
  | b :: rest =>
      if (b <? 128)%Z then Some (ascii_of_N (Z.to_N b), rest)
      else
        match rest with
        | [] => None
        | b' :: rest' =>
            Some (ascii_of_N (Z.to_N ((b - 192) * 64 + (b' - 128))), rest')
        end
  end.

(** Keys and the leading 16 hex digits of the SHA-256 digests of their
    joined texts, as published (the empty message and the one-block and
    two-block test messages of FIPS 180-4) or computed with a reference
    implementation: keys of the shapes the script builds, with a negative
    int, with the separator inside a part, and with a code point that
    UTF-8 encodes in two bytes (U+00E9). *)
Definition known_ids : list (list Part * string) :=
  [([KStr ""], "e3b0c44298fc1c14");
   ([KStr "abc"], "ba7816bf8f01cfea");
   ([KStr "abcdbcdecdefdefgefghfghighijhijkijkljklmklmnlmnomnopnopq"],
    "248d6a61d20638b8");
   ([KInt 123; KStr "unknown"], "fe9a72fc7e3b1f8a");
   ([KInt 42; KInt 7; KStr "term life quote"; KStr "PHRASE"], "0e4c275e1e9acd69");
   ([KInt (-5); KStr "x|y"; KInt 0], "704c76435c9138d7");
   ([KStr (String "c" (String "a" (String "f" (String "233" EmptyString))))],
    "850f7dc43910ff89")].

(** ** Rows the transforms with a cpc field accept *)

(** [average_cpc] is a double; [int()] converts it exactly when it is
    finite. *)
Definition cpc_finite (m : Metrics) : Prop := isfinite (average_cpc m) = true.

(** ** The classifiers' precedence, as tables to compare the code with *)

Definition nonbrand_keywords : list string :=
  ["nonbrand"; "non-brand"; "nonbranded"; "non-branded"].
Definition group_keywords : list string := ["group"; "employer"; "worksite"; "abm-"].
Definition leadgen_keywords : list string := ["leadgen"; "conversion"; "quote"; "quotes"].
Definition midfunnel_keywords : list string :=
  ["midfunnel"; "education"; "alwayson"; "traffic"; "awareness"].

(** The precedence in the specification's words: every brand indicator
    yields to a non-brand keyword. *)
Definition intent_bucket_as_specified (text : string) : string :=
  let t := PyStr.lower text in
  if PyStr.any_in ["google_brand"; "-brand-"; "-branded"] t
     && negb (PyStr.any_in nonbrand_keywords t)
  then "Brand"
  else if PyStr.any_in group_keywords t then "Group"
  else if PyStr.any_in leadgen_keywords t then "Nonbrand Lead Gen"
  else if PyStr.any_in midfunnel_keywords t then "Education/Midfunnel"
  else "Education/Midfunnel".

(** The precedence the code follows: [google_brand] always wins; only the
    hyphenated brand indicators yield to a non-brand keyword. *)
Definition intent_precedence (t : string) : string :=
  if PyStr.contains "google_brand" t then "Brand"
  else if negb (PyStr.any_in nonbrand_keywords t)
          && PyStr.any_in ["-brand-"; "-branded"] t
  then "Brand"
  else if PyStr.any_in group_keywords t then "Group"
  else if PyStr.any_in leadgen_keywords t then "Nonbrand Lead Gen"
  else "Education/Midfunnel".

(** ** The guarded ratios of a campaign record *)

(** Each ratio is zero on a zero denominator and the quotient otherwise. *)
Definition campaign_ratios_guarded (o : CampaignRecord) : Prop :=
  c_cpa o = (if (c_conversions o =? 0)%float then 0
             else c_spend o / c_conversions o)%float
  /\ c_roas o = (if (c_spend o =? 0)%float then 0
                 else c_conversion_value o / c_spend o)%float
  /\ c_conv_rate o = (if (c_clicks o =? 0)%Z then 0
                      else c_conversions o / float_of_int (c_clicks o))%float.

Definition geo_ratios_guarded (o : GeoRecord) : Prop :=
  g_cpa o = (if (g_conversions o =? 0)%float then 0
             else g_spend o / g_conversions o)%float
  /\ g_roas o = (if (g_spend o =? 0)%float then 0
                 else g_conversion_value o / g_spend o)%float
  /\ g_conv_rate o = (if (g_clicks o =? 0)%Z then 0
                      else g_conversions o / float_of_int (g_clicks o))%float.

Definition search_term_cpa_guarded (o : SearchTermRecord) : Prop :=
  s_cpa o = (if (s_conversions o =? 0)%float then 0
             else s_spend o / s_conversions o)%float.

(** A campaign row that spent one currency unit for the smallest positive
    number of conversions a binary64 can hold. *)
Definition tiny_conversions_row : CampaignRow :=
  {| cr_campaign_id := 1;
     cr_campaign_name := "Term Life - Leadgen";
     cr_campaign_status := "ENABLED";
     cr_date := "2026-02-17";
     cr_metrics :=
       {| cost_micros := 1000000; impressions := 10; clicks := 1;
          conversions := 0x1p-1074; conversions_value := 0; ctr := 0.1;
          average_cpc := 1000000; search_impression_share := 0;
          search_budget_lost_impression_share := 0;
          search_rank_lost_impression_share := 0 |} |}.

(** ** The search-term batch, as the specification describes it *)

(** A row's CPA: spend over conversions, 0 without conversions. *)
Definition metrics_cpa (m : Metrics) : float :=
  if (conversions m =? 0)%float then 0%float
  else (_micros (cost_micros m) / conversions m)%float.

(** A row contributes its CPA to the sample when conversions > 0 and
    cpa > 0; the search term plays no part. *)
Definition metrics_sample (m : Metrics) : option float :=
  if (0 <? conversions m)%float && (0 <? metrics_cpa m)%float
  then Some (metrics_cpa m) else None.

Definition batch_sample (rows : list SearchTermRow) : list float :=
  omap metrics_sample (map sr_metrics rows).

(** The first pass on one row, its division carried out. *)
Definition st_base_of (r : SearchTermRow) : float * float * float * SearchTermRow :=
  (_micros (cost_micros (sr_metrics r)), conversions (sr_metrics r),
   metrics_cpa (sr_metrics r), r).

(** The three-way rule on an emitted record, given the batch median. *)
Definition winner_rule (median_cpa : float) (o : SearchTermRecord) : bool :=
  (1 <=? s_conversions o)%float
  && ((median_cpa =? 0)%float
      || ((0 <? s_cpa o)%float && (s_cpa o <=? median_cpa * 0.8)%float)).

Definition loser_rule (o : SearchTermRecord) : bool :=
  (s_conversions o <? 1)%float && (100 <=? s_spend o)%float
  && (s_conversions o =? 0)%float.

Definition labeled_by_rule (median_cpa : float) (o : SearchTermRecord) : Prop :=
  (s_label o = "winner" <-> winner_rule median_cpa o = true)
  /\ (s_label o = "loser" <-> loser_rule o = true)
  /\ (s_label o = "neutral"
      <-> winner_rule median_cpa o = false /\ loser_rule o = false).

(** What the specification says of one row and the record made of it: the
    record carries the row's search term, spend and conversions, the CPA
    of these two, and the label the rule gives them. *)
Definition labeled_row (median_cpa : float) (r : SearchTermRow)
    (o : SearchTermRecord) : Prop :=
  s_search_term o = sr_search_term r
  /\ s_spend o = _micros (cost_micros (sr_metrics r))
  /\ s_conversions o = conversions (sr_metrics r)
  /\ s_cpa o = metrics_cpa (sr_metrics r)
  /\ labeled_by_rule median_cpa o.

(** The median of a sample, as the specification means it: the middle
    value of the sample put in ascending order, the mean of the two middle
    values when their number is even. *)
Definition is_median (sample : list float) (m : float) : Prop :=
  exists sorted,
    sorted ≡ₚ sample
    /\ Sorted float_le sorted
    /\ forall k : nat,
         (length sample = (2 * k + 1)%nat -> m = nth k sorted 0%float)
         /\ (length sample = (2 * k)%nat ->
             m = ((nth (k - 1) sorted 0 + nth k sorted 0) / 2)%float).

(** The median CPA of a batch: over the rows with conversions > 0 and
    cpa > 0, and 0 when there is no such row. *)
Definition batch_median (rows : list SearchTermRow) (m : float) : Prop :=
  (batch_sample rows = [] /\ m = 0%float)
  \/ (batch_sample rows <> [] /\ is_median (batch_sample rows) m).

(** What a merge sort guarantees of two neighbours of its result, whatever
    the comparison: the first was not placed after the second. *)
Definition placed {A : Type} (R : relation A) (x y : A) : Prop := R x y \/ ~ R y x.

Definition runs_placed {A : Type} (R : relation A) (st : list (option (list A)))
    : Prop :=
  Forall (fun run => match run with Some l => Sorted (placed R) l | None => True end)
         st.

Definition search_row (term : string) (cost : Z) (convs : float) : SearchTermRow :=
  {| sr_campaign_id := 11; sr_campaign_name := "Dental - Nonbrand";
     sr_ad_group_id := 22; sr_ad_group_name := "Plans";
     sr_search_term := term; sr_match_type := "PHRASE";
     sr_date := "2026-02-17";
     sr_metrics :=
       {| cost_micros := cost; impressions := 100; clicks := 10;
          conversions := convs; conversions_value := 0; ctr := 0.1;
          average_cpc := 0; search_impression_share := 0;
          search_budget_lost_impression_share := 0;
          search_rank_lost_impression_share := 0 |} |}.

(** ** Last occurrences, to compare [_dedupe] with *)

Section LastOccurrence.
Context {R : Type} `{Keyed R}.

(** A record is kept exactly when no later record has its (id, date). *)
Fixpoint keep_last (records : list R) : list R :=
  match records with
  | [] => []
  | r :: rest =>
      if decide (rec_key r ∈ map rec_key rest) then keep_last rest
      else r :: keep_last rest
  end.

(** The positions of the kept records, counted from [k]. *)
Fixpoint last_indices (k : nat) (records : list R) : list nat :=
  match records with
  | [] => []
  | r :: rest =>
      if decide (rec_key r ∈ map rec_key rest) then last_indices (S k) rest
      else k :: last_indices (S k) rest
  end.

(** The position of the last record with a given (id, date). *)
Fixpoint last_pos (key : string * string) (records : list R) : option nat :=
  match records with
  | [] => None
  | r :: rest =>
      match last_pos key rest with
      | Some j => Some (S j)
      | None => if decide (rec_key r = key) then Some 0 else None
      end
  end.

End LastOccurrence.

(** ** The geo enricher's outcome on one record, case by case *)

Definition us_state_or_province (info : GeoInfo) : Prop :=
  gi_country_code info = "US"
  /\ (gi_target_type info = "State" \/ gi_target_type info = "Province").

(** Everything but [state], [state_code] and [dma] is as before. *)
Definition same_but_geo (rec rec' : GeoRecord) : Prop :=
  g_id rec' = g_id rec /\ g_date rec' = g_date rec
  /\ g_campaign_id rec' = g_campaign_id rec
  /\ g_spend rec' = g_spend rec /\ g_impressions rec' = g_impressions rec
  /\ g_clicks rec' = g_clicks rec /\ g_conversions rec' = g_conversions rec
  /\ g_conversion_value rec' = g_conversion_value rec
  /\ g_ctr rec' = g_ctr rec /\ g_cpc rec' = g_cpc rec
  /\ g_cpa rec' = g_cpa rec /\ g_roas rec' = g_roas rec
  /\ g_conv_rate rec' = g_conv_rate rec.

Definition enriched_from (details : gmap string GeoInfo) (rec rec' : GeoRecord)
    : Prop :=
  let raw_id := PyStr.strip (g_state_code rec) in
  match details !! raw_id with
  | None => rec' = rec
  | Some info =>
      same_but_geo rec rec'
      /\ g_dma rec' = gi_target_type info
      /\ ((us_state_or_province info
           /\ g_state rec' = gi_name info
           /\ g_state_code rec'
              = match _US_STATE_CODE_BY_NAME !! gi_name info with
                | Some code => code
                | None => raw_id
                end)
          \/ (~ us_state_or_province info
              /\ g_state rec'
                 = (if decide (gi_canonical_name info = "") then gi_name info
                    else gi_canonical_name info)
              /\ g_state_code rec' = raw_id))
  end.

(** The rows the lookups hand back, over all chunks, in order. *)
Definition returned_rows (ga : GeoApi) (chunks : list (list string))
    : list GeoTargetRow :=
  concat (map (fun chunk => match ga chunk with
                            | Ok rows => rows
                            | Raise _ => []
                            end) chunks).

(** The details the specification expects for a returned row: its name,
    canonical name, target type and country code. *)
Definition carries_details (row : GeoTargetRow) (info : GeoInfo) : Prop :=
  gi_name info = gt_name row
  /\ gi_canonical_name info = gt_canonical_name row
  /\ gi_target_type info = gt_target_type row
  /\ gi_country_code info = gt_country_code row.

(** Sample data: geo records with the raw identifier in place of the state,
    as the transform leaves them, and an API that knows four targets. *)
Definition geo_placeholder (criterion_id : string) : GeoRecord :=
  {| g_id := "3-" +:+ criterion_id;
     g_date := "2026-02-17"; g_campaign_id := "3";
     g_state := criterion_id; g_state_code := criterion_id;
     g_dma := "LOCATION_OF_PRESENCE";
     g_spend := 1; g_impressions := 10; g_clicks := 2; g_conversions := 1;
     g_conversion_value := 0; g_ctr := 0.2; g_cpc := 0.5; g_cpa := 1;
     g_roas := 0; g_conv_rate := 0.5 |}.

Definition geo_target (id : Z) (name canonical target_type country : string)
    : GeoTargetRow :=
  {| gt_id := id; gt_name := name; gt_canonical_name := canonical;
     gt_target_type := target_type; gt_country_code := country |}.

Definition sample_geo_targets : list GeoTargetRow :=
  [geo_target 21137 "California" "California,United States" "State" "US";
   geo_target 2124 "Canada" "" "Country" "CA";
   geo_target 20123 "Ontario" "Ontario,Canada" "Province" "CA";
   geo_target 21999 "Atlantis" "Atlantis,United States" "State" "US"].

Definition sample_geo_api : GeoApi := fun chunk =>
  Ok (filter (fun row => PyNum.str (gt_id row) ∈ chunk) sample_geo_targets).

Definition sample_geo_records : list GeoRecord :=
  map geo_placeholder ["21137"; "2124"; "20123"; "21999"; " 2124 "; ""; "77"].

Definition sample_geo_enriched : list GeoRecord :=
  Eval vm_compute in
    match snd (_enrich_geo_records sample_geo_api sample_geo_records) with
    | Ok out => out
    | Raise _ => []
    end.

(** 450 records with the distinct identifiers 21000 .. 21449. *)
Definition geo_records_450 : list GeoRecord :=
  map (fun i => geo_placeholder (PyNum.str (21000 + Z.of_nat i))) (seq 0 450).

(** An API that answers no query listing the identifier 21200. *)
Definition geo_api_failing_on_21200 : GeoApi := fun chunk =>
  if decide ("21200" ∈ chunk)
  then Raise "GoogleAdsException: deadline exceeded"
  else Ok [].

(** ** One run, entity by entity *)

Section RunSummary.
Context {R : Type} `{Keyed R}.

Definition entity_ops (w : World R) (date_cond name : string) : list (StoreOp R) :=
  fst (process_entity w date_cond name).

Definition entity_failed (w : World R) (date_cond name : string) : Prop :=
  exists exc, snd (process_entity w date_cond name) = Raise exc.

#[global] Instance entity_failed_dec (w : World R) (date_cond name : string) :
  Decision (entity_failed w date_cond name).
Proof.
  unfold entity_failed. destruct (snd (process_entity w date_cond name)) as [n|exc].
  - right. intros [exc' Hexc]. discriminate.
  - left. exists exc. reflexivity.
Defined.

(** The rows an entity upserted, when its processing succeeded. *)
Definition entity_upserted (w : World R) (date_cond name : string) : nat :=
  match snd (process_entity w date_cond name) with
  | Ok n => n
  | Raise _ => 0
  end.

Definition entity_error (w : World R) (date_cond name : string) : option string :=
  match snd (process_entity w date_cond name) with
  | Ok _ => None
  | Raise exc => Some (name +:+ ": " +:+ exc)
  end.

Definition is_update (op : StoreOp R) : Prop :=
  match op with
  | OpUpdateLog _ _ _ _ => True
  | _ => False
  end.

Definition is_upsert (op : StoreOp R) : Prop :=
  match op with
  | OpUpsert _ _ => True
  | _ => False
  end.

End RunSummary.

(** Sample runs over a minimal Output Record. *)
Record KeyRecord : Type := { k_id : string; k_date : string; k_value : Z }.

#[global] Instance KeyRecord_keyed : Keyed KeyRecord :=
  {| rec_id := k_id; rec_date := k_date |}.

Definition two_days (name : string) : list KeyRecord :=
  [{| k_id := "1"; k_date := "2026-02-16"; k_value := 10 |};
   {| k_id := "1"; k_date := "2026-02-17"; k_value := 20 |};
   {| k_id := "1"; k_date := "2026-02-17"; k_value := 30 |}].

(** The ads query raises; every other entity yields three records, two of
    them with the same key. *)
Definition ads_query_fails (name date_cond : string) : result (list KeyRecord) :=
  if String.eqb name "ads" then Raise "GoogleAdsException: quota exceeded"
  else Ok (two_days name).

Definition run_with_id : World KeyRecord :=
  {| w_yesterday := "2026-02-17";
     w_insert_log := Ok [IdInt 42];
     w_produce := ads_query_fails;
     w_upsert := fun _ _ => Ok ();
     w_update_log := Ok () |}.

Definition run_without_id : World KeyRecord :=
  {| w_yesterday := "2026-02-17";
     w_insert_log := Ok [];
     w_produce := ads_query_fails;
     w_upsert := fun _ _ => Ok ();
     w_update_log := Ok () |}.

Definition run_insert_raises : World KeyRecord :=
  {| w_yesterday := "2026-02-17";
     w_insert_log := Raise "APIError: relation sync_log does not exist";
     w_produce := ads_query_fails;
     w_upsert := fun _ _ => Ok ();
     w_update_log := Ok () |}.

(** ** The remaining look-up tables and ratio-bearing transforms *)

Definition _QS_RATING : gmap string string :=
  list_to_map [("ABOVE_AVERAGE", "Above Average"); ("AVERAGE", "Average");
               ("BELOW_AVERAGE", "Below Average")].

Definition _DEVICE_MAP : gmap string string :=
  list_to_map [("MOBILE", "Mobile"); ("DESKTOP", "Desktop"); ("TABLET", "Tablet");
               ("CONNECTED_TV", "Connected TV")].

(** [int(x or 0) or None] *)
Definition int_or_none (x : Z) : option Z :=
  if (x =? 0)%Z then None else Some x.

(** *** keywords *)

Record KeywordRow : Type := {
  kr_criterion_id : Z;
  kr_keyword_text : string;
  kr_match_type : string;
  kr_campaign_id : Z;
  kr_campaign_name : string;
  kr_ad_group_id : Z;
  kr_ad_group_name : string;
  kr_quality_score : Z;
  kr_search_predicted_ctr : string;
  kr_creative_quality_score : string;
  kr_post_click_quality_score : string;
  kr_date : string;
  kr_metrics : Metrics
}.

Record KeywordRecord : Type := {
  kw_id : string;
  kw_date : string;
  kw_keyword : string;
  kw_match_type : string;
  kw_campaign_id : string;
  kw_campaign_name : string;
  kw_ad_group_id : string;
  kw_ad_group_name : string;
  kw_quality_score : option Z;
  kw_expected_ctr : string;
  kw_ad_relevance : string;
  kw_landing_page_experience : string;
  kw_spend : float;
  kw_impressions : Z;
  kw_clicks : Z;
  kw_conversions : float;
  kw_conversion_value : float;
  kw_ctr : float;
  kw_cpc : float;
  kw_cpa : float;
  kw_roas : float;
  kw_conv_rate : float
}.

#[global] Instance KeywordRecord_keyed : Keyed KeywordRecord :=
  {| rec_id := kw_id; rec_date := kw_date |}.

Definition xf_keyword (r : KeywordRow) : result KeywordRecord :=
  let m := kr_metrics r in
  let spend := _micros (cost_micros m) in
  let convs := conversions m in
  let clicks := clicks m in
  cpc ← _micros_double (average_cpc m);
  cpa ← _div spend (PFloat convs);
  roas ← _div (conversions_value m) (PFloat spend);
  conv_rate ← _div convs (PInt clicks);
  mret {|
    kw_id := PyNum.str (kr_criterion_id r);
    kw_date := kr_date r;
    kw_keyword := kr_keyword_text r;
    kw_match_type := _lookup _MATCH_MAP (kr_match_type r) "Broad";
    kw_campaign_id := PyNum.str (kr_campaign_id r);
    kw_campaign_name := kr_campaign_name r;
    kw_ad_group_id := PyNum.str (kr_ad_group_id r);
    kw_ad_group_name := kr_ad_group_name r;
    kw_quality_score := int_or_none (kr_quality_score r);
    kw_expected_ctr := _lookup _QS_RATING (kr_search_predicted_ctr r) "";
    kw_ad_relevance := _lookup _QS_RATING (kr_creative_quality_score r) "";
    kw_landing_page_experience :=
      _lookup _QS_RATING (kr_post_click_quality_score r) "";
    kw_spend := spend;
    kw_impressions := impressions m;
    kw_clicks := clicks;
    kw_conversions := convs;
    kw_conversion_value := conversions_value m;
    kw_ctr := ctr m;
    kw_cpc := cpc;
    kw_cpa := cpa;
    kw_roas := roas;
    kw_conv_rate := conv_rate
  |}.

Definition _xf_keywords (rows : list KeywordRow) : result (list KeywordRecord) :=
  mapM xf_keyword rows.

(** *** ads *)

Record AdRow : Type := {
  ar_ad_id : Z;
  ar_headlines : list string;
  ar_descriptions : list string;
  ar_ad_strength : string;
  ar_campaign_id : Z;
  ar_campaign_name : string;
  ar_ad_group_id : Z;
  ar_ad_group_name : string;
  ar_date : string;
  ar_metrics : Metrics
}.

Record AdRecord : Type := {
  ad_id : string;
  ad_date : string;
  ad_campaign_id : string;
  ad_campaign_name : string;
  ad_ad_group_id : string;
  ad_ad_group_name : string;
  ad_headlines : list string;
  ad_descriptions : list string;
  ad_ad_strength : string;
  ad_spend : float;
  ad_impressions : Z;
  ad_clicks : Z;
  ad_conversions : float;
  ad_conversion_value : float;
  ad_ctr : float;
  ad_cpc : float;
  ad_cpa : float
}.

#[global] Instance AdRecord_keyed : Keyed AdRecord :=
  {| rec_id := ad_id; rec_date := ad_date |}.

Definition xf_ad (r : AdRow) : result AdRecord :=
  let m := ar_metrics r in
  let spend := _micros (cost_micros m) in
  cpc ← _micros_double (average_cpc m);
  cpa ← _div spend (PFloat (conversions m));
  mret {|
    ad_id := PyNum.str (ar_ad_id r);
    ad_date := ar_date r;
    ad_campaign_id := PyNum.str (ar_campaign_id r);
    ad_campaign_name := ar_campaign_name r;
    ad_ad_group_id := PyNum.str (ar_ad_group_id r);
    ad_ad_group_name := ar_ad_group_name r;
    ad_headlines := ar_headlines r;
    ad_descriptions := ar_descriptions r;
    ad_ad_strength := _ename (ar_ad_strength r);
    ad_spend := spend;
    ad_impressions := impressions m;
    ad_clicks := clicks m;
    ad_conversions := conversions m;
    ad_conversion_value := conversions_value m;
    ad_ctr := ctr m;
    ad_cpc := cpc;
    ad_cpa := cpa
  |}.

Definition _xf_ads (rows : list AdRow) : result (list AdRecord) :=
  mapM xf_ad rows.

(** *** device_performance *)

Record DeviceRow : Type := {
  dr_campaign_id : Z;
  dr_device : string;
  dr_date : string;
  dr_metrics : Metrics
}.

Record DeviceRecord : Type := {
  d_id : string;
  d_date : string;
  d_campaign_id : string;
  d_device : string;
  d_spend : float;
  d_impressions : Z;
  d_clicks : Z;
  d_conversions : float;
  d_conversion_value : float;
  d_ctr : float;
  d_cpc : float;
  d_cpa : float;
  d_roas : float;
  d_conv_rate : float
}.

#[global] Instance DeviceRecord_keyed : Keyed DeviceRecord :=
  {| rec_id := d_id; rec_date := d_date |}.

Definition xf_device (r : DeviceRow) : result DeviceRecord :=
  let m := dr_metrics r in
  let spend := _micros (cost_micros m) in
  let convs := conversions m in
  let clicks := clicks m in
  let device := _lookup _DEVICE_MAP (dr_device r) "Other" in
  cpc ← _micros_double (average_cpc m);
  cpa ← _div spend (PFloat convs);
  roas ← _div (conversions_value m) (PFloat spend);
  conv_rate ← _div convs (PInt clicks);
  mret {|
    d_id := _make_id [KInt (dr_campaign_id r); KStr device];
    d_date := dr_date r;
    d_campaign_id := PyNum.str (dr_campaign_id r);
    d_device := device;
    d_spend := spend;
    d_impressions := impressions m;
    d_clicks := clicks;
    d_conversions := convs;
    d_conversion_value := conversions_value m;
    d_ctr := ctr m;
    d_cpc := cpc;
    d_cpa := cpa;
    d_roas := roas;
    d_conv_rate := conv_rate
  |}.

Definition _xf_device_performance (rows : list DeviceRow) : result (list DeviceRecord) :=
  mapM xf_device rows.

(** *** landing_pages *)

Record LandingRow : Type := {
  lr_unexpanded_final_url : string;
  lr_date : string;
  lr_metrics : Metrics
}.

Record LandingRecord : Type := {
  lp_id : string;
  lp_date : string;
  lp_url : string;
  lp_sessions : Z;
  lp_bounce_rate : option float;
  lp_conversion_rate : float;
  lp_conversions : float;
  lp_conversion_value : float;
  lp_mobile_conv_rate : option float;
  lp_desktop_conv_rate : option float
}.

#[global] Instance LandingRecord_keyed : Keyed LandingRecord :=
  {| rec_id := lp_id; rec_date := lp_date |}.

(** One row: [None] when the row is skipped for its empty URL. *)
Definition xf_landing (r : LandingRow) : result (option LandingRecord) :=
  let url := lr_unexpanded_final_url r in
  if String.eqb url "" then mret None
  else
    let clicks := clicks (lr_metrics r) in
    let convs := conversions (lr_metrics r) in
    conversion_rate ← _div convs (PInt clicks);
    mret (Some {|
      lp_id := _make_id [KStr url];
      lp_date := lr_date r;
      lp_url := url;
      lp_sessions := clicks;
      lp_bounce_rate := None;
      lp_conversion_rate := conversion_rate;
      lp_conversions := convs;
      lp_conversion_value := conversions_value (lr_metrics r);
      lp_mobile_conv_rate := None;
      lp_desktop_conv_rate := None
    |}).

Definition _xf_landing_pages (rows : list LandingRow) : result (list LandingRecord) :=
  out ← mapM xf_landing rows;
  mret (omap id out).

(** ** Sample stores and batches *)

(** 501 records with pairwise distinct ids: one full batch and one more. *)
Definition records_501 : list KeyRecord :=
  map (fun i => {| k_id := PyNum.str (Z.of_nat i); k_date := "2026-02-17";
                   k_value := 0 |}) (seq 0 501).

(** A store that accepts full batches only. *)
Definition store_rejects_short_batches : World KeyRecord :=
  {| w_yesterday := "2026-02-17";
     w_insert_log := Ok [IdInt 42];
     w_produce := fun _ _ => Ok records_501;
     w_upsert := fun _ chunk =>
       if (length chunk <? 500)%nat then Raise "APIError: payload rejected"
       else Ok ();
     w_update_log := Ok () |}.

(** ** Sample geo rows and look-ups *)

Definition geo_api_down : GeoApi := fun _ => Raise "GoogleAdsException: deadline exceeded".

Definition unresolvable_geo_records : list GeoRecord :=
  map geo_placeholder [""; "CA"; "12a"].

Definition sample_metrics : Metrics :=
  {| cost_micros := 2500000; impressions := 100; clicks := 10;
     conversions := 2; conversions_value := 50; ctr := 0.1;
     average_cpc := 250000; search_impression_share := 0.5;
     search_budget_lost_impression_share := 0;
     search_rank_lost_impression_share := 0.25 |}.

Definition california_row : GeoRow :=
  {| gr_campaign_id := 3;
     gr_geo_target_region := "geoTargetConstants/21137";
     gr_country_criterion_id := 2840;
     gr_location_type := "LOCATION_OF_PRESENCE";
     gr_date := "2026-02-17";
     gr_metrics := sample_metrics |}.

(** ** Guarded ratios and closed label sets of the other transforms *)

Definition keyword_ratios_guarded (o : KeywordRecord) : Prop :=
  kw_cpa o = (if (kw_conversions o =? 0)%float then 0
              else kw_spend o / kw_conversions o)%float
  /\ kw_roas o = (if (kw_spend o =? 0)%float then 0
                  else kw_conversion_value o / kw_spend o)%float
  /\ kw_conv_rate o = (if (kw_clicks o =? 0)%Z then 0
                       else kw_conversions o / float_of_int (kw_clicks o))%float.

Definition ad_cpa_guarded (o : AdRecord) : Prop :=
  ad_cpa o = (if (ad_conversions o =? 0)%float then 0
              else ad_spend o / ad_conversions o)%float.

Definition device_ratios_guarded (o : DeviceRecord) : Prop :=
  d_cpa o = (if (d_conversions o =? 0)%float then 0
             else d_spend o / d_conversions o)%float
  /\ d_roas o = (if (d_spend o =? 0)%float then 0
                 else d_conversion_value o / d_spend o)%float
  /\ d_conv_rate o = (if (d_clicks o =? 0)%Z then 0
                      else d_conversions o / float_of_int (d_clicks o))%float.

(** What every landing-page record satisfies. *)
Definition landing_record_ok (o : LandingRecord) : Prop :=
  lp_url o <> ""
  /\ lp_id o = _make_id [KStr (lp_url o)]
  /\ lp_conversion_rate o
     = (if (lp_sessions o =? 0)%Z then 0
        else lp_conversions o / float_of_int (lp_sessions o))%float
  /\ lp_bounce_rate o = None
  /\ lp_mobile_conv_rate o = None /\ lp_desktop_conv_rate o = None.

Definition status_labels : list string := ["enabled"; "paused"; "ended"].
Definition match_type_labels : list string := ["Exact"; "Phrase"; "Broad"].
Definition rating_labels : list string :=
  ["Above Average"; "Average"; "Below Average"; ""].
Definition device_labels : list string :=
  ["Mobile"; "Desktop"; "Tablet"; "Connected TV"; "Other"].

Definition keyword_labels_ok (o : KeywordRecord) : Prop :=
  kw_match_type o ∈ match_type_labels
  /\ kw_expected_ctr o ∈ rating_labels
  /\ kw_ad_relevance o ∈ rating_labels
  /\ kw_landing_page_experience o ∈ rating_labels
  /\ kw_quality_score o <> Some 0%Z.

(** Two device rows of one campaign and day, with device values the
    table does not list. *)
Definition device_row (device : string) (cost : Z) : DeviceRow :=
  {| dr_campaign_id := 3; dr_device := device; dr_date := "2026-02-17";
     dr_metrics :=
       {| cost_micros := cost; impressions := 100; clicks := 10;
          conversions := 1; conversions_value := 0; ctr := 0.1;
          average_cpc := 0; search_impression_share := 0;
          search_budget_lost_impression_share := 0;
          search_rank_lost_impression_share := 0 |} |}.

(** ** The product keywords, by category *)

Definition term_life_keywords : list string :=
  ["termlife"; "term life"; "term-life"; "life insurance"].
Definition disability_keywords : list string := ["disability"; "idi"].
Definition annuity_keywords : list string :=
  ["annuity"; "annuities"; "rila"; "retirement"].
Definition network_keywords : list string :=
  ["recruit"; "credential"; "join"; "provider"].

Definition product_keywords : list string :=
  term_life_keywords ++ ["dental"] ++ disability_keywords
  ++ annuity_keywords ++ network_keywords.

Definition product_labels : list string :=
  ["Term Life"; "Dental Network"; "Disability"; "Annuities";
   "Join Our Network"; "Other"].

(** ** Runs in which nothing, or only the last call, fails *)


Definition date_equals (d : string) : string := "segments.date = '" +:+ d +:+ "'".

Definition date_between (d_from d_to : string) : string :=
  "segments.date BETWEEN '" +:+ d_from +:+ "' AND '" +:+ d_to +:+ "'".


Definition run_update_raises : World KeyRecord :=
  {| w_yesterday := "2026-02-17";
     w_insert_log := Ok [IdStr "7d1c"];
     w_produce := fun name _ => Ok (two_days name);
     w_upsert := fun _ _ => Ok ();
     w_update_log := Raise "APIError: connection reset" |}.

(** * Properties *)

(** ** Strings *)

Lemma startswith_refl (s : string) : PyStr.startswith s s = true.
Proof.
  induction s as [|c s IH]; simpl; [reflexivity|].
  rewrite Ascii.eqb_refl. exact IH.
Qed.

Lemma startswith_app (k t : string) :
  PyStr.startswith k t = true <-> exists post, t = k +:+ post.
Proof.
  revert t. induction k as [|a k IH]; intros t; simpl.
  - split; [intros _; exists t; reflexivity | reflexivity].
  - destruct t as [|b t]; [split; [discriminate | intros [post Hp]; discriminate]|].
    rewrite andb_true_iff, Ascii.eqb_eq, IH. split.
    + intros [-> [post ->]]. exists post. reflexivity.
    + intros [post Hp]. injection Hp as -> ->. split; [reflexivity | exists post; reflexivity].
Qed.

Lemma contains_nil (k : string) :
  PyStr.contains k "" = PyStr.startswith k "".
Proof. unfold PyStr.contains. apply orb_false_r. Qed.

Lemma contains_cons (k : string) (c : ascii) (t : string) :
  PyStr.contains k (String c t)
  = PyStr.startswith k (String c t) || PyStr.contains k t.
Proof. reflexivity. Qed.

Lemma startswith_contains (k t : string) :
  PyStr.startswith k t = true -> PyStr.contains k t = true.
Proof.
  intros Hp. destruct t; [rewrite contains_nil | rewrite contains_cons, Hp];
    [exact Hp | reflexivity].
Qed.

Lemma endswith_contains (k t : string) :
  PyStr.endswith k t = true -> PyStr.contains k t = true.
Proof.
  induction t as [|c t IH]; intros He.
  - unfold PyStr.endswith in He. rewrite orb_false_r in He.
    apply String.eqb_eq in He. subst k. reflexivity.
  - change (String.eqb k (String c t) || PyStr.endswith k t = true) in He.
    rewrite contains_cons.
    apply orb_true_iff in He. destruct He as [He | He].
    + apply String.eqb_eq in He. subst k.
      rewrite (startswith_refl (String c t)). reflexivity.
    + rewrite (IH He). apply orb_true_r.
Qed.

Lemma contains_Substring (k t : string) :
  PyStr.contains k t = true <-> PyStr.Substring k t.
Proof.
  unfold PyStr.Substring. induction t as [|c t IH].
  - rewrite contains_nil, startswith_app. split.
    + intros [post Hp]. exists "", post. exact Hp.
    + intros [pre [post Hp]]. destruct pre; simpl in Hp; [|discriminate].
      exists post. exact Hp.
  - rewrite contains_cons, orb_true_iff, startswith_app, IH. split.
    + intros [[post Hp] | [pre [post Hp]]].
      * exists "", post. exact Hp.
      * exists (String c pre), post. simpl. rewrite Hp. reflexivity.
    + intros [pre [post Hp]]. destruct pre as [|a pre].
      * left. exists post. exact Hp.
      * right. exists pre, post.
        change (String c t = String a (pre +:+ k +:+ post)) in Hp.
        injection Hp as _ Hp. exact Hp.
Qed.

Lemma any_in_two (a b t : string) :
  PyStr.any_in [a; b] t = PyStr.contains a t || PyStr.contains b t.
Proof. unfold PyStr.any_in, existsb. rewrite orb_false_r. reflexivity. Qed.

(** ** C4: intent buckets *)

(** C4, as stated, fails: a campaign name with the [google_brand] indicator
    and a non-brand keyword is still bucketed "Brand" by the code, where
    the stated precedence (brand indicators negated by a non-brand keyword)
    gives the lead-gen bucket. *)
Lemma C4_google_brand_not_negated :
  infer_intent_bucket "google_brand_nonbrand_leadgen" = "Brand"
  /\ intent_bucket_as_specified "google_brand_nonbrand_leadgen" = "Nonbrand Lead Gen".
Proof. split; vm_compute; reflexivity. Qed.

(** C4, amended: for every text, [infer_intent_bucket] lower-cases it and
    follows this precedence: [google_brand] gives "Brand" whatever else the
    text holds; otherwise [-brand-] or [-branded] give "Brand" unless a
    non-brand keyword is present; then group/employer keywords, then
    lead-gen keywords, then the "Education/Midfunnel" default (which the
    midfunnel keywords also give). The two examples of the specification
    hold. *)
Theorem C4_intent_bucket_precedence :
  (forall text, infer_intent_bucket text = intent_precedence (PyStr.lower text))
  /\ infer_intent_bucket "google_brand_search" = "Brand"
  /\ infer_intent_bucket "leadgen-quotes-nonbrand" = "Nonbrand Lead Gen".
Proof.
  split; [|split; vm_compute; reflexivity].
  intros text. unfold infer_intent_bucket, intent_precedence.
  set (t := PyStr.lower text).
  fold nonbrand_keywords group_keywords leadgen_keywords midfunnel_keywords.
  rewrite (any_in_two "-brand-" "-branded" t).
  pose proof (startswith_contains "google_brand" t) as Hs.
  pose proof (endswith_contains "-branded" t) as He.
  destruct (PyStr.contains "google_brand" t),
    (PyStr.startswith "google_brand" t),
    (PyStr.any_in nonbrand_keywords t),
    (PyStr.contains "-brand-" t),
    (PyStr.contains "-branded" t),
    (PyStr.endswith "-branded" t),
    (PyStr.any_in group_keywords t),
    (PyStr.any_in leadgen_keywords t),
    (PyStr.any_in midfunnel_keywords t);
    try reflexivity;
    first [specialize (Hs eq_refl) | specialize (He eq_refl)]; discriminate.
Qed.

(** The product and intent examples of the specification. *)
Example infer_product_examples :
  infer_product "Term Life Leads Q1" = "Term Life"
  /\ infer_product "Dental-Network-Nonbrand" = "Dental Network"
  /\ infer_product "Generic Campaign" = "Other".
Proof. repeat split; vm_compute; reflexivity. Qed.

(** ** C9: composite identifiers *)

Lemma nibble_hex (x i : Z) : In (Sha256.nibble x i) Sha256.hex_digits.
Proof.
  unfold Sha256.nibble. apply nth_In.
  change 15%Z with (Z.ones 4). rewrite Z.land_ones by lia.
  change (length Sha256.hex_digits) with 16%nat.
  pose proof (Z.mod_pos_bound (Z.shiftr x (4 * i)) (2 ^ 4) ltac:(lia)).
  change (2 ^ 4)%Z with 16%Z in *. lia.
Qed.

Lemma make_id_chars (parts : list Part) :
  exists c0 c1 c2 c3 c4 c5 c6 c7 c8 c9 c10 c11 c12 c13 c14 c15,
    _make_id parts = string_of_list_ascii
      [c0; c1; c2; c3; c4; c5; c6; c7; c8; c9; c10; c11; c12; c13; c14; c15]
    /\ Forall (fun c => In c Sha256.hex_digits)
         [c0; c1; c2; c3; c4; c5; c6; c7; c8; c9; c10; c11; c12; c13; c14; c15].
Proof.
  unfold _make_id, Sha256.hexdigest.
  destruct (Sha256.digest _) as [a b c d e f g h].
  exists (Sha256.nibble a 7), (Sha256.nibble a 6), (Sha256.nibble a 5),
    (Sha256.nibble a 4), (Sha256.nibble a 3), (Sha256.nibble a 2),
    (Sha256.nibble a 1), (Sha256.nibble a 0),
    (Sha256.nibble b 7), (Sha256.nibble b 6), (Sha256.nibble b 5),
    (Sha256.nibble b 4), (Sha256.nibble b 3), (Sha256.nibble b 2),
    (Sha256.nibble b 1), (Sha256.nibble b 0).
  split; [reflexivity|].
  repeat (constructor; [apply nibble_hex|]). constructor.
Qed.

(** The UTF-8 encoding loses nothing: its bytes give the text back. *)
Lemma utf8_decode_encode (c : ascii) (s : string) :
  utf8_decode_head (utf8_encode (String c s)) = Some (c, utf8_encode s).
Proof. destruct c as [[] [] [] [] [] [] [] []]; reflexivity. Qed.

Lemma utf8_encode_inj (s t : string) : utf8_encode s = utf8_encode t -> s = t.
Proof.
  revert t. induction s as [|c s IH]; intros [|c' t] Heq; [reflexivity| | |];
    apply (f_equal utf8_decode_head) in Heq;
    rewrite ?utf8_decode_encode in Heq; try discriminate Heq.
  injection Heq as -> Heq. f_equal. apply IH, Heq.
Qed.

Lemma make_id_prefix (parts : list Part) :
  exists rest,
    Sha256.hexdigest (utf8_encode (PyStr.join "|" (map part_str parts)))
    = _make_id parts +:+ rest
    /\ String.length rest = 48%nat.
Proof.
  unfold _make_id, Sha256.hexdigest.
  destruct (Sha256.digest _) as [a b c d e f g h]. cbn [Sha256.ha Sha256.hb
    Sha256.hc Sha256.hd Sha256.he Sha256.hf Sha256.hg Sha256.hh].
  exists (Sha256.hex32 c +:+ Sha256.hex32 d +:+ Sha256.hex32 e
          +:+ Sha256.hex32 f +:+ Sha256.hex32 g +:+ Sha256.hex32 h).
  split; reflexivity.
Qed.

(** C9: for every tuple of key parts the identifier is the leading 16 of
    the 64 hex digits of the SHA-256 digest of the parts' [str] forms
    joined by "|" and encoded in UTF-8: exactly 16 characters, each one of
    [0-9a-f]. The encoding loses nothing of the joined text, so it is that
    text, and nothing else, that is hashed; and on the keys of the table
    [known_ids] the identifier is the one a reference SHA-256 gives: the
    same on every run, and a different one for each of these keys. *)
Theorem C9_make_id_deterministic_hex16 :
  (forall parts : list Part,
     exists rest,
       Sha256.hexdigest (utf8_encode (PyStr.join "|" (map part_str parts)))
       = _make_id parts +:+ rest
       /\ String.length (_make_id parts) = 16%nat
       /\ String.length rest = 48%nat
       /\ Forall (fun c => In c Sha256.hex_digits)
            (list_ascii_of_string (_make_id parts)))
  /\ (forall s t : string, utf8_encode s = utf8_encode t -> s = t)
  /\ Forall (fun known => _make_id known.1 = known.2) known_ids
  /\ NoDup (map snd known_ids).
Proof.
  split; [|split; [exact utf8_encode_inj | split]].
  - intros parts.
    destruct (make_id_prefix parts) as (rest & Hrest & Hlen).
    destruct (make_id_chars parts)
      as (c0 & c1 & c2 & c3 & c4 & c5 & c6 & c7 & c8 & c9 & c10 & c11 & c12
          & c13 & c14 & c15 & Heq & Hhex).
    exists rest. split; [exact Hrest|]. rewrite Heq.
    split; [reflexivity|]. split; [exact Hlen|].
    rewrite list_ascii_of_string_of_list_ascii. exact Hhex.
  - unfold known_ids. repeat constructor; vm_compute; reflexivity.
  - apply (bool_decide_unpack _). vm_compute. exact I.
Qed.

(** The digests of FIPS 180-4's one-block and two-block test messages. *)
Example sha256_abc :
  Sha256.hexdigest (utf8_encode "abc")
  = "ba7816bf8f01cfea414140de5dae2223b00361a396177a9cb410ff61f20015ad".
Proof. vm_compute. reflexivity. Qed.

Example sha256_two_blocks :
  Sha256.hexdigest
    (utf8_encode "abcdbcdecdefdefgefghfghighijhijkijkljklmklmnlmnomnopnopq")
  = "248d6a61d20638b8e5c026930c3e6039a33ce45964ff2167f6ecedd419db06c1".
Proof. vm_compute. reflexivity. Qed.

Example make_id_geo : _make_id [KInt 123; KStr "unknown"] = "fe9a72fc7e3b1f8a".
Proof. vm_compute. reflexivity. Qed.

(** ** The error monad *)

Lemma mapM_Ok {A B} (f : A -> result B) (g : A -> B) (l : list A) :
  (forall x, f x = Ok (g x)) -> mapM f l = Ok (map g l).
Proof.
  intros Hf. induction l as [|x l IH]; [reflexivity|].
  cbn [mapM]. rewrite Hf, IH. reflexivity.
Qed.

(** ** C1: derived ratios *)

Lemma div_guarded (n : float) (d : num) :
  _div n d = Ok (if is_zero d then 0%float else (n / to_float d)%float).
Proof. unfold _div, truthy, truediv. destruct (is_zero d); reflexivity. Qed.

(** [_micros] on an int: the conversion is the identity and nothing raises. *)
Lemma micros_of_int (z : Z) :
  (z' ← to_int (or_zero (PInt z)); mret (_micros z')) = Ok (_micros z).
Proof.
  unfold or_zero, truthy, is_zero. destruct (z =? 0)%Z eqn:Hz; [|reflexivity].
  apply Z.eqb_eq in Hz. subst z. reflexivity.
Qed.

(** [_micros] on a double returns exactly on the finite ones. *)
Lemma zero_isfinite (f : float) : (f =? 0)%float = true -> isfinite f = true.
Proof.
  rewrite FloatAxioms.eqb_spec. unfold isfinite.
  destruct (Prim2SF f) as [[]|[]| |[] m e];
    try reflexivity; intros Heq; cbv in Heq; discriminate Heq.
Qed.

Lemma micros_double_finite (f : float) :
  isfinite f = true -> exists cpc, _micros_double f = Ok cpc.
Proof.
  unfold _micros_double, or_zero, truthy, is_zero, to_int, isfinite.
  destruct (f =? 0)%float; cbn [negb]; [eauto|].
  destruct (Prim2SF f); intros Hf; try discriminate; eauto.
Qed.

Lemma micros_double_Ok (f cpc : float) :
  _micros_double f = Ok cpc -> isfinite f = true.
Proof.
  unfold _micros_double, or_zero, truthy, is_zero, to_int.
  destruct (f =? 0)%float eqn:Hz; cbn [negb]; [intros _; apply zero_isfinite, Hz|].
  unfold isfinite. destruct (Prim2SF f); intros Hf; try discriminate; reflexivity.
Qed.

Lemma micros_double_Raise (f : float) :
  isfinite f = false -> exists e, _micros_double f = Raise e.
Proof.
  intros Hf. destruct (_micros_double f) as [cpc|e] eqn:Hm; [|eauto].
  apply micros_double_Ok in Hm. congruence.
Qed.

(** A row-by-row transform returns exactly when every row converts, and
    then with one record per row, in order. *)
Lemma mapM_returns {A B} (f : A -> result B) (ok : A -> Prop) (P : B -> Prop)
    (l : list A) :
  (forall x, ok x -> exists y, f x = Ok y /\ P y) ->
  (forall x y, f x = Ok y -> ok x) ->
  (Forall ok l <-> exists out, mapM f l = Ok out)
  /\ forall out, mapM f l = Ok out ->
       Forall2 (fun x y => f x = Ok y /\ P y) l out.
Proof.
  intros Hok Hret. induction l as [|x l [IHiff IHout]].
  - split; [split; [exists []; reflexivity | constructor]|].
    intros out Hout. injection Hout as <-. constructor.
  - cbn [mapM]. split; [split|].
    + intros Hall. apply Forall_cons in Hall as [Hx Hl].
      destruct (Hok x Hx) as (y & Hy & _). apply IHiff in Hl as [out Hout].
      exists (y :: out). rewrite Hy, Hout. reflexivity.
    + intros [out Hout]. destruct (f x) as [y|e] eqn:Hy; [|discriminate].
      destruct (mapM f l) as [out'|e] eqn:Hl; [|discriminate].
      constructor; [eapply Hret, Hy | apply IHiff; eauto].
    + intros out Hout. destruct (f x) as [y|e] eqn:Hy; [|discriminate].
      destruct (mapM f l) as [out'|e] eqn:Hl; [|discriminate].
      injection Hout as <-. constructor; [|apply IHout; reflexivity].
      split; [exact Hy|].
      destruct (Hok x (Hret x y Hy)) as (y' & Hy' & HP). congruence.
Qed.

(** The campaign record of a row, with the three ratios spelled out. *)
Lemma xf_campaign_Ok (r : CampaignRow) :
  cpc_finite (cr_metrics r) ->
  exists o,
    xf_campaign r = Ok o
    /\ c_spend o = _micros (cost_micros (cr_metrics r))
    /\ c_conversions o = conversions (cr_metrics r)
    /\ c_conversion_value o = conversions_value (cr_metrics r)
    /\ c_clicks o = clicks (cr_metrics r)
    /\ c_cpa o = (if (c_conversions o =? 0)%float then 0 else c_spend o / c_conversions o)%float
    /\ c_roas o = (if (c_spend o =? 0)%float then 0 else c_conversion_value o / c_spend o)%float
    /\ c_conv_rate o = (if (c_clicks o =? 0)%Z then 0
                        else c_conversions o / float_of_int (c_clicks o))%float.
Proof.
  intros Hf. destruct (micros_double_finite _ Hf) as [cpc Hcpc].
  unfold xf_campaign. rewrite Hcpc, !div_guarded.
  eexists. split; [reflexivity|]. cbn. repeat split; reflexivity.
Qed.

Lemma xf_campaign_returns (r : CampaignRow) (o : CampaignRecord) :
  xf_campaign r = Ok o -> cpc_finite (cr_metrics r).
Proof.
  unfold xf_campaign.
  destruct (_micros_double (average_cpc (cr_metrics r))) as [cpc|e] eqn:Hcpc;
    [intros _; eapply micros_double_Ok, Hcpc | discriminate].
Qed.

Lemma xf_geo_Ok (r : GeoRow) :
  cpc_finite (gr_metrics r) ->
  exists o, xf_geo r = Ok o /\ geo_ratios_guarded o.
Proof.
  intros Hf. destruct (micros_double_finite _ Hf) as [cpc Hcpc].
  unfold xf_geo. rewrite Hcpc, !div_guarded.
  eexists. split; [reflexivity|]. unfold geo_ratios_guarded. cbn.
  repeat split; reflexivity.
Qed.

Lemma xf_geo_returns (r : GeoRow) (o : GeoRecord) :
  xf_geo r = Ok o -> cpc_finite (gr_metrics r).
Proof.
  unfold xf_geo.
  destruct (_micros_double (average_cpc (gr_metrics r))) as [cpc|e] eqn:Hcpc;
    [intros _; eapply micros_double_Ok, Hcpc | discriminate].
Qed.

Lemma st_emit_cpa (median_cpa : float) (r : SearchTermRow) (o : SearchTermRecord) :
  st_emit median_cpa
    (_micros (cost_micros (sr_metrics r)), conversions (sr_metrics r),
     (if (conversions (sr_metrics r) =? 0)%float then 0
      else _micros (cost_micros (sr_metrics r)) / conversions (sr_metrics r))%float,
     r) = Some o ->
  search_term_cpa_guarded o.
Proof.
  unfold st_emit. destruct (String.eqb (sr_search_term r) ""); [discriminate|].
  destruct (_classify_search_term _ _ _ _) as [label reason].
  intros [= <-]. reflexivity.
Qed.

(** ** Binary64 comparisons against 0 and 1 *)

Lemma float_zero_below_one (c : float) :
  (c =? 0)%float = true -> (c <? 1)%float = true /\ (1 <=? c)%float = false.
Proof.
  rewrite FloatAxioms.eqb_spec, FloatAxioms.ltb_spec, FloatAxioms.leb_spec.
  change (Prim2SF 0) with (S754_zero false).
  destruct (Prim2SF c) as [s | s | | s m e]; try discriminate;
    try (destruct s; discriminate).
  intros _. split; vm_compute; reflexivity.
Qed.

(** ** C3 and C10: the two-pass search-term transform *)

Lemma st_base_Ok (r : SearchTermRow) :
  st_base r
  = Ok (_micros (cost_micros (sr_metrics r)), conversions (sr_metrics r),
        metrics_cpa (sr_metrics r), r).
Proof. unfold st_base, metrics_cpa. rewrite div_guarded. reflexivity. Qed.

Lemma st_cpas_sample (rows : list SearchTermRow) :
  st_cpas (map st_base_of rows) = batch_sample rows.
Proof.
  unfold st_cpas, batch_sample.
  induction rows as [|r rows IH]; [reflexivity|].
  simpl. unfold omap in IH. rewrite IH. reflexivity.
Qed.

Lemma median_nonempty (x : float) (l : list float) :
  exists m, median (x :: l) = Ok m.
Proof.
  unfold median.
  assert (Hlen : length (merge_sort float_le (x :: l)) = S (length l)).
  { rewrite (Permutation_length (merge_sort_Permutation float_le (x :: l))).
    reflexivity. }
  rewrite Hlen. cbn [Nat.eqb].
  destruct (_ =? 1)%nat; eexists; reflexivity.
Qed.

Lemma med_total (vals : list float) :
  exists m,
    _med vals = Ok m
    /\ ((vals = [] /\ m = 0%float) \/ (vals <> [] /\ median vals = Ok m)).
Proof.
  destruct vals as [|x l].
  - exists 0%float. split; [reflexivity | left; split; reflexivity].
  - destruct (median_nonempty x l) as [m Hm]. exists m.
    split; [exact Hm | right; split; [discriminate | exact Hm]].
Qed.

Lemma xf_search_terms_Ok (rows : list SearchTermRow) :
  exists median_cpa,
    _med (batch_sample rows) = Ok median_cpa
    /\ _xf_search_terms rows
       = Ok (omap (st_emit median_cpa) (map st_base_of rows)).
Proof.
  destruct (med_total (batch_sample rows)) as (m & Hm & _).
  exists m. split; [exact Hm|].
  unfold _xf_search_terms.
  rewrite (mapM_Ok st_base st_base_of rows st_base_Ok).
  cbn [mbind result_bind]. rewrite st_cpas_sample, Hm. reflexivity.
Qed.

Lemma label_str_inj (a b : Label) : label_str a = label_str b -> a = b.
Proof. destruct a, b; simpl; intros Heq; try reflexivity; discriminate. Qed.

(** The second pass on a row with a search term. *)
Lemma st_emit_labeled (median_cpa : float) (r : SearchTermRow) (o : SearchTermRecord) :
  st_emit median_cpa (st_base_of r) = Some o ->
  s_search_term o = sr_search_term r /\ sr_search_term r <> ""
  /\ labeled_by_rule median_cpa o.
Proof.
  unfold st_emit, st_base_of.
  destruct (String.eqb (sr_search_term r) "") eqn:Hterm; [discriminate|].
  apply String.eqb_neq in Hterm.
  destruct (_classify_search_term _ _ _ _) as [label reason] eqn:Hcls.
  intros Ho. injection Ho as <-. split; [reflexivity|]. split; [exact Hterm|].
  unfold labeled_by_rule, winner_rule, loser_rule. cbn.
  revert Hcls. unfold _classify_search_term.
  set (convs := conversions (sr_metrics r)).
  set (cpa := metrics_cpa (sr_metrics r)).
  set (spend := _micros (cost_micros (sr_metrics r))).
  pose proof (float_zero_below_one convs) as Hz.
  destruct (1 <=? convs)%float, (median_cpa =? 0)%float, (0 <? cpa)%float,
    (cpa <=? median_cpa * 0.8)%float, (100 <=? spend)%float,
    (convs =? 0)%float, (convs <? 1)%float;
    cbn; intros Hcls; injection Hcls as <- _;
    try (destruct (Hz eq_refl); discriminate);
    cbn; repeat split; intros; try discriminate; try tauto;
    try (destruct H; discriminate).
Qed.

Lemma st_emit_skipped (median_cpa : float) (r : SearchTermRow) :
  st_emit median_cpa (st_base_of r) = None <-> sr_search_term r = "".
Proof.
  unfold st_emit, st_base_of.
  destruct (String.eqb (sr_search_term r) "") eqn:Hterm.
  - apply String.eqb_eq in Hterm. tauto.
  - apply String.eqb_neq in Hterm.
    destruct (_classify_search_term _ _ _ _). split; [discriminate | tauto].
Qed.

Lemma emitted_all_labeled (median_cpa : float) (rows : list SearchTermRow) :
  Forall (labeled_by_rule median_cpa)
    (omap (st_emit median_cpa) (map st_base_of rows)).
Proof.
  induction rows as [|r rows IH]; [constructor|].
  cbn [map]. change (omap ?f (?x :: ?l))
    with (match f x with Some y => y :: omap f l | None => omap f l end).
  destruct (st_emit median_cpa (st_base_of r)) as [o|] eqn:Ho; [|exact IH].
  constructor; [|exact IH]. apply (st_emit_labeled _ _ _ Ho).
Qed.

Lemma emitted_terms (median_cpa : float) (rows : list SearchTermRow) :
  map s_search_term (omap (st_emit median_cpa) (map st_base_of rows))
  = filter (fun t => t <> "") (map sr_search_term rows).
Proof.
  induction rows as [|r rows IH]; [reflexivity|].
  cbn [map]. change (omap ?f (?x :: ?l))
    with (match f x with Some y => y :: omap f l | None => omap f l end).
  rewrite filter_cons.
  destruct (st_emit median_cpa (st_base_of r)) as [o|] eqn:Ho.
  - destruct (st_emit_labeled _ _ _ Ho) as (Hterm & Hne & _).
    rewrite decide_True by exact Hne. cbn [map]. rewrite IH, Hterm. reflexivity.
  - apply st_emit_skipped in Ho. rewrite decide_False by tauto. exact IH.
Qed.

(** The classification examples of the specification. *)
Example classify_loser :
  _classify_search_term 150 0 0 10
  = (loser, "Spent $150.00 with 0 conversions.").
Proof. vm_compute. reflexivity. Qed.

Example classify_winner :
  _classify_search_term 50 2 25 50
  = (winner, "Converted (2.0) with efficient CPA ($25.00).").
Proof. vm_compute. reflexivity. Qed.

(** *** Sorting a sample *)

Section MergeSorted.
Context {A : Type} (R : relation A) `{!RelDecision R}.

Lemma placed_merge_head (x : A) (l1 l2 : list A) :
  HdRel (placed R) x l1 -> HdRel (placed R) x l2 ->
  HdRel (placed R) x (list_merge R l1 l2).
Proof.
  destruct l1 as [|x1 l1], l2 as [|x2 l2]; intros H1 H2;
    rewrite ?list_merge_nil_l, ?list_merge_nil_r, ?list_merge_cons; try assumption.
  case_decide; constructor; [inversion H1 | inversion H2]; assumption.
Qed.

Lemma placed_merge (l1 l2 : list A) :
  Sorted (placed R) l1 -> Sorted (placed R) l2 ->
  Sorted (placed R) (list_merge R l1 l2).
Proof.
  intros H1. revert l2. induction H1 as [|x1 l1 Hs1 IH1 Hh1]; intros l2 H2.
  - rewrite list_merge_nil_l. exact H2.
  - induction H2 as [|x2 l2 Hs2 IH2 Hh2].
    + rewrite list_merge_nil_r. constructor; assumption.
    + rewrite list_merge_cons. case_decide as HR.
      * constructor; [apply IH1; constructor; assumption|].
        apply placed_merge_head; [exact Hh1 | constructor; left; exact HR].
      * constructor; [exact IH2|].
        apply placed_merge_head; [constructor; right; exact HR | exact Hh2].
Qed.

Lemma placed_to_stack (st : list (option (list A))) (l : list A) :
  runs_placed R st -> Sorted (placed R) l ->
  runs_placed R (merge_list_to_stack R st l).
Proof.
  intros Hst. revert l. induction Hst as [|[l'|] st Hl' Hst IH]; intros l Hl; cbn.
  - repeat constructor; assumption.
  - constructor; [exact I|]. apply IH, placed_merge; assumption.
  - constructor; assumption.
Qed.

Lemma placed_merge_stack (st : list (option (list A))) :
  runs_placed R st -> Sorted (placed R) (merge_stack R st).
Proof.
  induction 1 as [|[l|] st Hl Hst IH]; cbn; [constructor | | exact IH].
  apply placed_merge; assumption.
Qed.

Lemma placed_merge_sort (l : list A) : Sorted (placed R) (merge_sort R l).
Proof.
  unfold merge_sort. assert (Hst : runs_placed R []) by constructor.
  revert Hst. generalize (@nil (option (list A))) as st.
  induction l as [|x l IH]; intros st Hst; cbn.
  - apply placed_merge_stack, Hst.
  - apply IH, placed_to_stack; [exact Hst | repeat constructor].
Qed.

End MergeSorted.

(** Two positive binary64 values (neither is NaN) always compare. *)
Lemma positive_float_total (x y : float) :
  (0 <? x)%float = true -> (0 <? y)%float = true ->
  placed float_le x y -> float_le x y.
Proof.
  unfold placed, float_le. intros Hx Hy [Hle | Hnle]; [exact Hle|].
  apply not_true_is_false in Hnle. revert Hx Hy Hnle.
  rewrite !FloatAxioms.ltb_spec, !FloatAxioms.leb_spec.
  change (Prim2SF 0) with (S754_zero false).
  destruct (Prim2SF x) as [sx | sx | | sx mx ex]; try discriminate;
    destruct sx; try discriminate;
    destruct (Prim2SF y) as [sy | sy | | sy my ey]; try discriminate;
    destruct sy; try discriminate; intros _ _; try reflexivity; try discriminate.
  unfold SFleb, SFcompare.
  rewrite (Z.compare_antisym ex ey).
  destruct (ex ?= ey)%Z; cbn [CompOpp]; try reflexivity; try discriminate.
  assert (Hopp : Pos.compare_cont Eq my mx = CompOpp (Pos.compare_cont Eq mx my))
    by (symmetry; apply (Pos.compare_cont_antisym mx my Eq)).
  rewrite Hopp.
  destruct (Pos.compare_cont Eq mx my); cbn [CompOpp]; try reflexivity; discriminate.
Qed.

Lemma placed_positive_sorted (l : list float) :
  Forall (fun c => (0 <? c)%float = true) l ->
  Sorted (placed float_le) l -> Sorted float_le l.
Proof.
  intros Hpos Hs. induction Hs as [|x l Hs IH Hh]; [constructor|].
  apply Forall_cons in Hpos as [Hx Hl]. constructor; [apply IH, Hl|].
  destruct Hh as [|y l Hxy]; constructor.
  apply Forall_cons in Hl as [Hy _]. apply positive_float_total; assumption.
Qed.

(** On a sample of positive values, [statistics.median] is the median. *)
Lemma median_is_median (sample : list float) (m : float) :
  Forall (fun c => (0 <? c)%float = true) sample ->
  median sample = Ok m -> is_median sample m.
Proof.
  intros Hpos. unfold median. cbv zeta.
  set (data := merge_sort float_le sample).
  assert (Hperm : data ≡ₚ sample) by apply merge_sort_Permutation.
  assert (Hsorted : Sorted float_le data).
  { apply placed_positive_sorted; [rewrite Hperm; exact Hpos|].
    apply placed_merge_sort. }
  pose proof (Permutation_length Hperm) as Hlen.
  pose proof (Nat.div_mod_eq (length data) 2) as Hdiv.
  pose proof (Nat.mod_upper_bound (length data) 2 ltac:(lia)) as Hmod.
  destruct (length data =? 0)%nat; [discriminate|].
  destruct (length data mod 2 =? 1)%nat eqn:Hodd; intros [= <-];
    [apply Nat.eqb_eq in Hodd | apply Nat.eqb_neq in Hodd];
    exists data; (split; [exact Hperm|]); (split; [exact Hsorted|]);
    intros k; split; intros Hk; try lia.
  - replace k with (length data / 2)%nat by lia. reflexivity.
  - replace k with (length data / 2)%nat by lia. reflexivity.
Qed.

Lemma batch_sample_positive (rows : list SearchTermRow) :
  Forall (fun c => (0 <? c)%float = true) (batch_sample rows).
Proof.
  unfold batch_sample. induction rows as [|r rows IH]; [constructor|].
  cbn [map]. change (omap ?f (?x :: ?l))
    with (match f x with Some y => y :: omap f l | None => omap f l end).
  unfold metrics_sample at 1.
  destruct (0 <? conversions (sr_metrics r))%float; cbn [andb]; [|exact IH].
  destruct (0 <? metrics_cpa (sr_metrics r))%float eqn:Hcpa;
    [constructor; assumption | exact IH].
Qed.

Lemma med_batch_median (rows : list SearchTermRow) (m : float) :
  _med (batch_sample rows) = Ok m -> batch_median rows m.
Proof.
  pose proof (batch_sample_positive rows) as Hpos. unfold batch_median, _med.
  destruct (batch_sample rows) as [|c sample].
  - intros [= <-]. left. split; reflexivity.
  - intros Hm. right. split; [discriminate | apply median_is_median; assumption].
Qed.

(** The record the second pass makes of a row with a search term. *)
Lemma st_emit_row (median_cpa : float) (r : SearchTermRow) (o : SearchTermRecord) :
  st_emit median_cpa (st_base_of r) = Some o -> labeled_row median_cpa r o.
Proof.
  intros Ho. destruct (st_emit_labeled _ _ _ Ho) as (Hterm & _ & Hrule).
  split; [exact Hterm|]. revert Ho. unfold st_emit, st_base_of.
  destruct (String.eqb (sr_search_term r) ""); [discriminate|].
  destruct (_classify_search_term _ _ _ _) as [label reason].
  intros [= Ho]. rewrite <- Ho in *. cbn.
  split; [reflexivity|]. split; [reflexivity|]. split; [reflexivity | exact Hrule].
Qed.

Lemma emitted_rows (median_cpa : float) (rows : list SearchTermRow) :
  Forall2 (labeled_row median_cpa)
    (filter (fun r => sr_search_term r <> "") rows)
    (omap (st_emit median_cpa) (map st_base_of rows)).
Proof.
  induction rows as [|r rows IH]; [constructor|].
  cbn [map]. change (omap ?f (?x :: ?l))
    with (match f x with Some y => y :: omap f l | None => omap f l end).
  rewrite filter_cons.
  destruct (st_emit median_cpa (st_base_of r)) as [o|] eqn:Ho.
  - destruct (st_emit_labeled _ _ _ Ho) as (_ & Hne & _).
    rewrite decide_True by exact Hne.
    constructor; [apply st_emit_row, Ho | exact IH].
  - apply st_emit_skipped in Ho. rewrite decide_False by tauto. exact IH.
Qed.

(** C3, as stated, fails for a row without a search term: the second pass
    skips it, so it is given no label at all, although its numbers
    (conversions 1, CPA 100 against a median of 100) fall under the rule
    for "neutral". *)
Lemma C3_empty_term_row_unlabelled :
  let row := search_row "" 100000000 1 in
  _med (batch_sample [row]) = Ok 100%float
  /\ _classify_search_term (_micros (cost_micros (sr_metrics row)))
       (conversions (sr_metrics row)) (metrics_cpa (sr_metrics row)) 100
     = (neutral, "Converted (1.0) but CPA above efficient threshold.")
  /\ _xf_search_terms [row] = Ok [].
Proof. cbv zeta. split; [|split]; vm_compute; reflexivity. Qed.

(** C3, amended: for every batch of search-term rows the transform
    returns one record for each row that has a search term, in the order of
    the rows, and none for a row whose search term is empty. Each record
    carries its row's search term, spend and conversions and the CPA of
    these two, and is labelled "winner" iff conversions >= 1 and
    (median_cpa = 0 or (cpa > 0 and cpa <= median_cpa * 0.8)), "loser" iff
    conversions < 1, spend >= 100 and conversions = 0, and "neutral"
    otherwise. The one median_cpa of the batch is the median of the CPAs
    of all its rows, with or without a search term, that have
    conversions > 0 and cpa > 0 (the middle value in ascending order, the
    mean of the two middle values for an even number), or 0 when there is
    no such row. *)
Theorem C3_search_term_labels :
  forall rows : list SearchTermRow,
  exists median_cpa out,
    _xf_search_terms rows = Ok out
    /\ batch_median rows median_cpa
    /\ Forall2 (labeled_row median_cpa)
         (filter (fun r => sr_search_term r <> "") rows) out.
Proof.
  intros rows.
  destruct (xf_search_terms_Ok rows) as (m & Hm & Hout).
  exists m, (omap (st_emit m) (map st_base_of rows)).
  split; [exact Hout|]. split; [apply med_batch_median, Hm | apply emitted_rows].
Qed.


(** C10: a row with an empty search term yields no Output Record (the
    emitted terms are exactly the non-empty ones, in order), while the CPA
    sample is drawn from every row's metrics whatever its term; so a
    skipped row can change an emitted row's label: alone, a term with
    CPA 25 is "neutral" (its own CPA is the median); next to a skipped row
    of CPA 100 the median is 62.5 and the same term is a "winner". *)
Theorem C10_skipped_rows_feed_median :
  (forall rows : list SearchTermRow,
    exists median_cpa out,
      _xf_search_terms rows = Ok out
      /\ _med (omap metrics_sample (map sr_metrics rows)) = Ok median_cpa
      /\ map s_search_term out
         = filter (fun t => t <> "") (map sr_search_term rows)
      /\ Forall (labeled_by_rule median_cpa) out)
  /\ (let emitted := search_row "dental plans" 50000000 2 in
      let skipped := search_row "" 100000000 1 in
      metrics_sample (sr_metrics skipped) = Some 100%float
      /\ map s_label <$> _xf_search_terms [emitted] = Ok ["neutral"]
      /\ map s_label <$> _xf_search_terms [emitted; skipped] = Ok ["winner"]).
Proof.
  split.
  - intros rows.
    destruct (xf_search_terms_Ok rows) as (m & Hm & Hout).
    exists m, (omap (st_emit m) (map st_base_of rows)).
    split; [exact Hout|]. split; [exact Hm|].
    split; [apply emitted_terms | apply emitted_all_labeled].
  - cbv zeta. split; [vm_compute; reflexivity|].
    split; vm_compute; reflexivity.
Qed.

(** ** C1: the guarded ratios of the transforms *)

(** C1, as stated, fails in its last clause: a row with a non-zero but
    tiny conversions count passes the zero guard, and the quotient
    overflows, so the Output Record carries an infinite CPA. *)
Lemma C1_infinite_cpa :
  exists o,
    _xf_campaigns [tiny_conversions_row] = Ok [o]
    /\ (c_conversions o =? 0)%float = false
    /\ c_cpa o = infinity.
Proof. eexists. split; [vm_compute; reflexivity|]. split; vm_compute; reflexivity. Qed.

(** C1, amended: the shared formula [_div] never raises; it returns zero on
    a zero denominator and the binary64 quotient otherwise. So in every
    record the campaign, geo and search-term transforms return, cpa is 0
    when conversions = 0, roas is 0 when spend = 0 and conv_rate is 0 when
    clicks = 0, each ratio being the quotient of its two fields when the
    denominator is not zero (a quotient that can itself overflow to
    infinity: only the zero denominator is guarded). No ratio makes a
    transform raise: the search-term transform always returns, and the
    campaign and geo transforms return, with one record per row, exactly
    when every row's [average_cpc] is finite (the one field whose
    conversion can raise). *)
Theorem C1_ratios_zero_on_zero_denominator :
  (forall (n : float) (d : num),
      _div n d = Ok (if is_zero d then 0%float else (n / to_float d)%float))
  /\ (forall rows : list CampaignRow,
        (Forall (fun r => cpc_finite (cr_metrics r)) rows
         <-> exists out, _xf_campaigns rows = Ok out)
        /\ forall out,
             _xf_campaigns rows = Ok out ->
             Forall2 (fun r o => xf_campaign r = Ok o /\ campaign_ratios_guarded o)
                     rows out)
  /\ (forall rows : list GeoRow,
        (Forall (fun r => cpc_finite (gr_metrics r)) rows
         <-> exists out, _xf_geo_performance rows = Ok out)
        /\ forall out,
             _xf_geo_performance rows = Ok out ->
             Forall geo_ratios_guarded out /\ length out = length rows)
  /\ (forall rows : list SearchTermRow,
        exists out,
          _xf_search_terms rows = Ok out
          /\ Forall search_term_cpa_guarded out).
Proof.
  split; [exact div_guarded|]. split; [|split].
  - intros rows. unfold _xf_campaigns.
    apply mapM_returns; [|exact xf_campaign_returns].
    intros r Hf.
    destruct (xf_campaign_Ok r Hf) as (o & Ho & _ & _ & _ & _ & Hcpa & Hroas & Hrate).
    exists o. split; [exact Ho|]. unfold campaign_ratios_guarded. auto.
  - intros rows. unfold _xf_geo_performance.
    destruct (mapM_returns xf_geo (fun r => cpc_finite (gr_metrics r))
                geo_ratios_guarded rows xf_geo_Ok xf_geo_returns) as [Hiff Hout].
    split; [exact Hiff|]. intros out Hrows. specialize (Hout out Hrows).
    split; [|symmetry; eapply Forall2_length, Hout].
    eapply Forall2_Forall_r; [exact Hout|].
    apply Forall_forall. intros r _ o [_ Hg]. exact Hg.
  - intros rows. destruct (xf_search_terms_Ok rows) as (m & _ & Hout).
    eexists. split; [exact Hout|]. clear Hout.
    induction rows as [|r rows IH]; [constructor|].
    cbn [map]. change (omap ?f (?x :: ?l))
      with (match f x with Some y => y :: omap f l | None => omap f l end).
    destruct (st_emit m (st_base_of r)) as [o|] eqn:Ho; [|exact IH].
    constructor; [|exact IH]. exact (st_emit_cpa m r o Ho).
Qed.

(** ** C5: deduplication *)

Section Dedupe.
Context {R : Type} `{Keyed R}.

Lemma last_pos_None (key : string * string) (l : list R) :
  last_pos key l = None <-> key ∉ map rec_key l.
Proof.
  induction l as [|r l IH]; cbn [last_pos map].
  - split; [intros _; apply not_elem_of_nil | reflexivity].
  - rewrite not_elem_of_cons. destruct (last_pos key l) as [j|].
    + split; [discriminate|]. intros [_ Hl]. apply IH in Hl. discriminate.
    + destruct (decide (rec_key r = key)) as [Heq|Hne].
      * split; [discriminate | intros [Hne _]; congruence].
      * split; [intros _; split; [congruence | apply IH; reflexivity] | reflexivity].
Qed.

Lemma last_pos_Some (key : string * string) (l : list R) (j : nat) :
  last_pos key l = Some j -> exists r, l !! j = Some r /\ rec_key r = key.
Proof.
  revert j. induction l as [|r l IH]; intros j; cbn [last_pos]; [discriminate|].
  destruct (last_pos key l) as [j'|].
  - intros [= <-]. exact (IH j' eq_refl).
  - destruct (decide (rec_key r = key)); [|discriminate].
    intros [= <-]. exists r. split; [reflexivity | assumption].
Qed.

(** The dictionary built by the loop maps each key to its last position. *)
Lemma seen_fold_lookup (l : list R) (k : nat) (m : gmap (string * string) nat)
    (key : string * string) :
  fold_left (fun seen (ir : nat * R) => <[rec_key ir.2 := ir.1]> seen)
            (combine (seq k (length l)) l) m !! key
  = match last_pos key l with
    | Some j => Some (k + j)
    | None => m !! key
    end.
Proof.
  revert k m. induction l as [|r l IH]; intros k m; [reflexivity|].
  cbn [length seq combine fold_left last_pos]. rewrite IH. cbn [fst snd].
  destruct (last_pos key l) as [j|]; [f_equal; lia|].
  destruct (decide (rec_key r = key)) as [<-|Hne].
  - rewrite lookup_insert_eq. f_equal. lia.
  - rewrite lookup_insert_ne by exact Hne. reflexivity.
Qed.

Lemma dedupe_seen_lookup (records : list R) (key : string * string) :
  dedupe_seen records !! key = last_pos key records.
Proof.
  unfold dedupe_seen. rewrite seen_fold_lookup, lookup_empty.
  destruct (last_pos key records); reflexivity.
Qed.

Lemma elem_of_last_indices (l : list R) (k i : nat) :
  i ∈ last_indices k l <-> exists key j, last_pos key l = Some j /\ i = k + j.
Proof.
  revert k. induction l as [|r l IH]; intros k; cbn [last_indices last_pos].
  - rewrite elem_of_nil. split; [tauto | intros (key & j & Hj & _); discriminate].
  - destruct (decide (rec_key r ∈ map rec_key l)) as [Hin|Hnin].
    + rewrite IH. split.
      * intros (key & j & Hj & ->). exists key, (S j). rewrite Hj.
        split; [reflexivity | lia].
      * intros (key & j & Hj & ->). destruct (last_pos key l) as [j'|] eqn:Hl.
        -- injection Hj as <-. exists key, j'. split; [exact Hl | lia].
        -- destruct (decide (rec_key r = key)) as [<-|]; [|discriminate].
           apply last_pos_None in Hl. contradiction.
    + rewrite elem_of_cons, IH. split.
      * intros [-> | (key & j & Hj & ->)].
        -- exists (rec_key r), 0. apply last_pos_None in Hnin. rewrite Hnin.
           rewrite decide_True by reflexivity. split; [reflexivity | lia].
        -- exists key, (S j). rewrite Hj. split; [reflexivity | lia].
      * intros (key & j & Hj & ->). destruct (last_pos key l) as [j'|] eqn:Hl.
        -- injection Hj as <-. right. exists key, j'. split; [exact Hl | lia].
        -- destruct (decide (rec_key r = key)); [|discriminate].
           injection Hj as <-. left. lia.
Qed.

Lemma last_indices_lower (l : list R) (k i : nat) : i ∈ last_indices k l -> k <= i.
Proof. rewrite elem_of_last_indices. intros (_ & j & _ & ->). lia. Qed.

Lemma last_indices_sorted (l : list R) (k : nat) :
  StronglySorted lt (last_indices k l).
Proof.
  revert k. induction l as [|r l IH]; intros k; cbn [last_indices]; [constructor|].
  destruct (decide _); [apply IH|].
  constructor; [apply IH|]. apply Forall_forall. intros i Hi.
  apply last_indices_lower in Hi. lia.
Qed.
Lemma last_indices_le_sorted (l : list R) : Sorted le (last_indices 0 l).
Proof.
  generalize (last_indices_sorted l 0).
  induction 1 as [|x xs Hxs IH Hall]; constructor; [exact IH|].
  destruct xs as [|y ys]; constructor.
  apply Forall_cons in Hall as [Hxy _]. lia.
Qed.

Lemma last_indices_NoDup (l : list R) (k : nat) : NoDup (last_indices k l).
Proof.
  revert k. induction l as [|r l IH]; intros k; cbn [last_indices]; [constructor|].
  destruct (decide _); [apply IH|].
  constructor; [|apply IH]. intros Hk. apply last_indices_lower in Hk. lia.
Qed.

Lemma elem_of_seen_values (records : list R) (i : nat) :
  i ∈ map snd (map_to_list (dedupe_seen records))
  <-> exists key, last_pos key records = Some i.
Proof.
  change (map snd ?l) with (snd <$> l). rewrite list_elem_of_fmap. split.
  - intros ([key j] & -> & Hin). apply elem_of_map_to_list in Hin.
    rewrite dedupe_seen_lookup in Hin. exists key. exact Hin.
  - intros (key & Hkey). exists (key, i). split; [reflexivity|].
    apply elem_of_map_to_list. rewrite dedupe_seen_lookup. exact Hkey.
Qed.

Lemma seen_values_NoDup (records : list R) :
  NoDup (map snd (map_to_list (dedupe_seen records))).
Proof.
  change (map snd ?l) with (snd <$> l).
  apply NoDup_fmap_2_strong; [|apply NoDup_map_to_list].
  intros [k1 i1] [k2 i2] H1 H2 Heq. cbn in Heq. subst i2.
  apply elem_of_map_to_list in H1, H2.
  rewrite dedupe_seen_lookup in H1, H2.
  apply last_pos_Some in H1, H2.
  destruct H1 as (r1 & Hr1 & <-), H2 as (r2 & Hr2 & <-).
  rewrite Hr1 in Hr2. injection Hr2 as <-. reflexivity.
Qed.

(** The sorted dictionary values are the positions of the last occurrences. *)
Lemma sorted_seen_values (records : list R) :
  merge_sort Nat.le (map snd (map_to_list (dedupe_seen records)))
  = last_indices 0 records.
Proof.
  apply (Sorted_unique le).
  - apply (Sorted_merge_sort le).
  - apply last_indices_le_sorted.
  - apply NoDup_Permutation.
    + rewrite merge_sort_Permutation. apply seen_values_NoDup.
    + apply last_indices_NoDup.
    + intros i. rewrite merge_sort_Permutation, elem_of_seen_values,
        elem_of_last_indices.
      split; [intros (key & Hk); exists key, i; auto|].
      intros (key & j & Hj & ->). exists key. exact Hj.
Qed.

Lemma mapM_last_indices (pre l : list R) :
  mapM (list_get (pre ++ l)) (last_indices (length pre) l) = Ok (keep_last l).
Proof.
  revert pre. induction l as [|r l IH]; intros pre; [reflexivity|].
  cbn [last_indices keep_last].
  assert (Hnext : mapM (list_get (pre ++ r :: l)) (last_indices (S (length pre)) l)
                  = Ok (keep_last l)).
  { specialize (IH (pre ++ [r])). rewrite <- app_assoc in IH.
    rewrite length_app in IH. cbn [length] in IH.
    replace (length pre + 1) with (S (length pre)) in IH by lia. exact IH. }
  destruct (decide _); [exact Hnext|].
  cbn [mapM]. rewrite Hnext. unfold list_get at 1.
  rewrite list_lookup_middle by reflexivity. reflexivity.
Qed.

Lemma dedupe_keep_last (records : list R) : _dedupe records = Ok (keep_last records).
Proof.
  unfold _dedupe. rewrite sorted_seen_values. apply (mapM_last_indices []).
Qed.

End Dedupe.

Section KeepLast.
Context {R : Type} `{Keyed R}.

Lemma keep_last_keys (l : list R) (key : string * string) :
  key ∈ map rec_key (keep_last l) <-> key ∈ map rec_key l.
Proof.
  induction l as [|r l IH]; [reflexivity|]. cbn [keep_last map].
  destruct (decide (rec_key r ∈ map rec_key l)) as [Hin|Hnin].
  - rewrite IH, elem_of_cons. split; [auto|]. intros [-> | Hl]; assumption.
  - cbn [map]. rewrite !elem_of_cons, IH. reflexivity.
Qed.

Lemma keep_last_NoDup (l : list R) : NoDup (map rec_key (keep_last l)).
Proof.
  induction l as [|r l IH]; [constructor|]. cbn [keep_last].
  destruct (decide (rec_key r ∈ map rec_key l)) as [Hin|Hnin]; [exact IH|].
  cbn [map]. constructor; [|exact IH]. rewrite keep_last_keys. exact Hnin.
Qed.

Lemma keep_last_sublist (l : list R) : sublist (keep_last l) l.
Proof.
  induction l as [|r l IH]; [constructor|]. cbn [keep_last].
  destruct (decide _); [apply sublist_cons | apply sublist_skip]; exact IH.
Qed.

Lemma filter_key_nil (l : list R) (key : string * string) :
  key ∉ map rec_key l -> filter (fun r => rec_key r = key) l = [].
Proof.
  induction l as [|r l IH]; [reflexivity|]. cbn [map].
  rewrite not_elem_of_cons. intros [Hne Hl].
  rewrite filter_cons_False by congruence. exact (IH Hl).
Qed.

Lemma filter_key_last (l : list R) (key : string * string) :
  key ∈ map rec_key l -> is_Some (last (filter (fun r => rec_key r = key) l)).
Proof.
  induction l as [|r l IH]; cbn [map]; [intros Hin; inversion Hin|].
  intros Hin. destruct (decide (key ∈ map rec_key l)) as [Hl|Hl].
  - specialize (IH Hl). destruct (decide (rec_key r = key)).
    + rewrite filter_cons_True by assumption.
      destruct (filter _ l); [destruct IH; discriminate | exact IH].
    + rewrite filter_cons_False by assumption. exact IH.
  - apply elem_of_cons in Hin as [-> | Hin]; [|contradiction].
    rewrite filter_cons_True by reflexivity.
    rewrite filter_key_nil by exact Hl. eexists. reflexivity.
Qed.

(** Among the records kept, a key has exactly its last occurrence. *)
Lemma keep_last_by_key (l : list R) (key : string * string) :
  filter (fun r => rec_key r = key) (keep_last l)
  = option_list (last (filter (fun r => rec_key r = key) l)).
Proof.
  induction l as [|r l IH]; [reflexivity|]. cbn [keep_last].
  destruct (decide (rec_key r ∈ map rec_key l)) as [Hin|Hnin].
  - rewrite IH. destruct (decide (rec_key r = key)) as [<-|Hne].
    + rewrite filter_cons_True by reflexivity.
      destruct (filter_key_last l (rec_key r) Hin) as [x Hx].
      destruct (filter _ l); [discriminate | reflexivity].
    + rewrite filter_cons_False by exact Hne. reflexivity.
  - destruct (decide (rec_key r = key)) as [<-|Hne].
    + rewrite !filter_cons_True by reflexivity. rewrite IH.
      rewrite filter_key_nil by exact Hnin. reflexivity.
    + rewrite !filter_cons_False by exact Hne. exact IH.
Qed.

(** Records whose keys are pairwise distinct are all retained, in order. *)
Lemma keep_last_distinct (l : list R) : NoDup (map rec_key l) -> keep_last l = l.
Proof.
  induction l as [|r l IH]; [reflexivity|]. cbn [map keep_last].
  intros Hnd. apply NoDup_cons in Hnd as [Hnin Hnd].
  rewrite decide_False by exact Hnin. rewrite (IH Hnd). reflexivity.
Qed.

(** C5: for every list of records the deduplication step returns, in input
    order, exactly the records that no later record shares an (id, date)
    with: for each (id, date) it keeps the record appearing last and
    nothing else, so each key of the input occurs exactly once in the
    output and no key is lost (records with distinct keys are all
    retained). *)
Theorem C5_dedupe_keeps_last :
  forall records : list R,
  exists out,
    _dedupe records = Ok out
    /\ out = keep_last records
    /\ sublist out records
    /\ NoDup (map rec_key out)
    /\ (forall key,
          filter (fun r => rec_key r = key) out
          = option_list (last (filter (fun r => rec_key r = key) records)))
    /\ (forall key, key ∈ map rec_key out <-> key ∈ map rec_key records).
Proof.
  intros records. exists (keep_last records).
  split; [apply dedupe_keep_last|]. split; [reflexivity|].
  split; [apply keep_last_sublist|]. split; [apply keep_last_NoDup|].
  split; [apply keep_last_by_key | apply keep_last_keys].
Qed.

End KeepLast.

(** ** Chunking *)

Lemma chunks_from_concat {A} (size fuel : nat) (l : list A) :
  0 < size -> length l <= fuel -> concat (chunks_from fuel size l) = l.
Proof.
  intros Hsize. revert l. induction fuel as [|fuel IH]; intros l Hlen.
  - destruct l; [reflexivity | cbn in Hlen; lia].
  - destruct l as [|x l]; [reflexivity|].
    cbn [chunks_from concat]. rewrite IH; [apply take_drop|].
    rewrite length_drop. cbn [length] in *. lia.
Qed.

Lemma chunks_from_bounded {A} (size fuel : nat) (l : list A) :
  0 < size ->
  Forall (fun c => 0 < length c <= size) (chunks_from fuel size l).
Proof.
  intros Hsize. revert l. induction fuel as [|fuel IH]; intros l; [constructor|].
  destruct l as [|x l]; [constructor|].
  cbn [chunks_from]. constructor; [|apply IH].
  rewrite length_take. cbn [length]. lia.
Qed.

Lemma chunks_from_step {A} (size fuel : nat) (l : list A) :
  0 < length l ->
  chunks_from (S fuel) size l = take size l :: chunks_from fuel size (drop size l).
Proof. destruct l; cbn [length]; [lia | reflexivity]. Qed.

Lemma chunks_450 {A} (l : list A) :
  length l = 450 -> map length (py_chunks chunk_size l) = [200; 200; 50].
Proof.
  intros Hlen. unfold py_chunks, chunk_size. rewrite Hlen.
  change 450 with (S (S (S 447))).
  rewrite chunks_from_step by lia.
  rewrite chunks_from_step by (rewrite length_drop; lia).
  rewrite chunks_from_step by (rewrite !length_drop; lia).
  cbn [map]. rewrite !length_take, !length_drop, Hlen.
  assert (Hnil : drop 200 (drop 200 (drop 200 l)) = []).
  { apply nil_length_inv. rewrite !length_drop. lia. }
  rewrite Hnil. reflexivity.
Qed.

(** ** The geo lookups *)

Lemma resolved_fold_lookup (rows : list GeoTargetRow)
    (m : gmap string GeoInfo) (cid : string) :
  fold_left add_resolved rows m !! cid
  = match last (filter (fun row => PyNum.str (gt_id row) = cid) rows) with
    | Some row => Some (geo_info_of row)
    | None => m !! cid
    end.
Proof.
  revert m. induction rows as [|row rows IH]; intros m; [reflexivity|].
  cbn [fold_left]. rewrite IH.
  destruct (decide (PyNum.str (gt_id row) = cid)) as [Heq|Hne].
  - rewrite filter_cons_True by exact Heq.
    destruct (filter _ rows) as [|y ys].
    + cbn [last]. unfold add_resolved. rewrite Heq, lookup_insert_eq. reflexivity.
    + change (last (row :: y :: ys)) with (last (y :: ys)).
      destruct (last (y :: ys)) eqn:Hlast; [reflexivity|].
      apply last_None in Hlast. discriminate.
  - rewrite filter_cons_False by exact Hne. unfold add_resolved.
    rewrite lookup_insert_ne by exact Hne. reflexivity.
Qed.

Lemma resolve_chunks_total (ga : GeoApi) (chunks : list (list string))
    (m : gmap string GeoInfo) :
  Forall (fun chunk => exists rows, ga chunk = Ok rows) chunks ->
  resolve_chunks ga chunks m
  = (chunks, Ok (fold_left add_resolved (returned_rows ga chunks) m)).
Proof.
  intros Hga. revert m. induction Hga as [|chunk chunks [rows Hrows] Hga IH];
    intros m; [reflexivity|].
  cbn [resolve_chunks]. unfold returned_rows. cbn [map concat].
  rewrite Hrows, IH. rewrite fold_left_app. reflexivity.
Qed.

Lemma geo_target_details_total (ga : GeoApi) (ids : list string) :
  Forall (fun chunk => exists rows, ga chunk = Ok rows) (py_chunks chunk_size ids) ->
  _geo_target_details ga ids
  = (py_chunks chunk_size ids,
     Ok (fold_left add_resolved (returned_rows ga (py_chunks chunk_size ids)) ∅)).
Proof.
  intros Hga. unfold _geo_target_details.
  destruct ids as [|x ids]; [reflexivity|].
  apply resolve_chunks_total. exact Hga.
Qed.

Lemma geo_criterion_ids_spec (records : list GeoRecord) (x : string) :
  x ∈ geo_criterion_ids records
  <-> PyStr.isdigit x = true
      /\ exists r, r ∈ records /\ PyStr.strip (g_state_code r) = x.
Proof.
  unfold geo_criterion_ids.
  rewrite merge_sort_Permutation, elem_of_remove_dups, list_elem_of_filter.
  change (map ?f ?l) with (f <$> l). rewrite list_elem_of_fmap.
  split; intros [Hd (r & Hr1 & Hr2)]; (split; [exact Hd|]); exists r; auto.
Qed.

Lemma geo_criterion_ids_NoDup (records : list GeoRecord) :
  NoDup (geo_criterion_ids records).
Proof.
  unfold geo_criterion_ids. rewrite merge_sort_Permutation.
  apply NoDup_remove_dups.
Qed.

(** ** C6 and C7: the geo enricher *)

Lemma enrich_geo_record_cases (details : gmap string GeoInfo) (rec : GeoRecord) :
  enriched_from details rec (enrich_geo_record details rec).
Proof.
  unfold enriched_from, enrich_geo_record.
  destruct (details !! PyStr.strip (g_state_code rec)) as [info|]; [|reflexivity].
  unfold us_state_or_province.
  destruct (String.eqb (gi_country_code info) "US"
            && (String.eqb (gi_target_type info) "State"
                || String.eqb (gi_target_type info) "Province")) eqn:Hus.
  - split; [repeat split|]. split; [reflexivity|]. left.
    apply andb_true_iff in Hus as [Hc Ht]. apply orb_true_iff in Ht.
    rewrite !String.eqb_eq in Ht. apply String.eqb_eq in Hc.
    split; [split; assumption|]. split; [reflexivity|].
    cbn. unfold dict_get. destruct (_US_STATE_CODE_BY_NAME !! gi_name info); reflexivity.
  - split; [repeat split|]. split; [reflexivity|]. right. split.
    + intros [Hc Ht]. apply String.eqb_eq in Hc. rewrite Hc in Hus.
      destruct Ht as [Ht | Ht]; apply String.eqb_eq in Ht; rewrite Ht in Hus;
        [|rewrite orb_true_r in Hus]; discriminate.
    + split; [|reflexivity]. cbn. unfold str_or.
      destruct (String.eqb (gi_canonical_name info) "") eqn:Hn.
      * apply String.eqb_eq in Hn. rewrite decide_True by exact Hn. reflexivity.
      * apply String.eqb_neq in Hn. rewrite decide_False by exact Hn. reflexivity.
Qed.

Lemma filter_key_present (rows : list GeoTargetRow) (row : GeoTargetRow) :
  row ∈ rows ->
  filter (fun row' => PyNum.str (gt_id row') = PyNum.str (gt_id row)) rows <> [].
Proof.
  intros Hin Hnil.
  assert (Hrow : row ∈ filter (fun row' => PyNum.str (gt_id row')
                                           = PyNum.str (gt_id row)) rows).
  { apply list_elem_of_filter. split; [reflexivity | exact Hin]. }
  rewrite Hnil in Hrow. inversion Hrow.
Qed.

(** C6, as stated, fails on the two fall-backs the code has: a target
    outside the US whose canonical name is empty gets the plain name as
    [state], not the (empty) canonical name; and a US state whose name the
    static table does not list keeps the raw identifier as [state_code],
    which is no state abbreviation. *)
Lemma C6_fallbacks :
  sample_geo_api ["2124"] = Ok [geo_target 2124 "Canada" "" "Country" "CA"]
  /\ map g_state <$> snd (_enrich_geo_records sample_geo_api [geo_placeholder "2124"])
     = Ok ["Canada"]
  /\ sample_geo_api ["21999"]
     = Ok [geo_target 21999 "Atlantis" "Atlantis,United States" "State" "US"]
  /\ map g_state_code <$> snd (_enrich_geo_records sample_geo_api [geo_placeholder "21999"])
     = Ok ["21999"]
  /\ _US_STATE_CODE_BY_NAME !! "Atlantis" = None.
Proof. repeat split; vm_compute; reflexivity. Qed.

(** C6, amended: whenever the enricher completes, every record is mapped,
    in place, as follows. A record whose stripped [state_code] is not in
    the resolved mapping is returned unchanged. A resolved record keeps
    every field but [state], [state_code] and [dma]; [dma] becomes the
    target type; for a US State or Province [state] becomes the resolved
    name and [state_code] the abbreviation the static table gives for that
    name, or the raw identifier when the table does not list the name;
    otherwise [state] becomes the canonical name, or the name when the
    canonical name is empty, and [state_code] the raw identifier. *)
Theorem C6_enrich_geo_records :
  forall (ga : GeoApi) (records out : list GeoRecord),
    snd (_enrich_geo_records ga records) = Ok out ->
    exists details,
      snd (_geo_target_details ga (geo_criterion_ids records)) = Ok details
      /\ Forall2 (enriched_from details) records out.
Proof.
  intros ga records out. unfold _enrich_geo_records.
  destruct (_geo_target_details ga (geo_criterion_ids records)) as [calls [details|e]];
    cbn; [|discriminate].
  intros [= <-]. exists details. split; [reflexivity|].
  induction records as [|rec records IH]; constructor;
    [apply enrich_geo_record_cases | exact IH].
Qed.

Lemma C6_enrich_geo_records_witness :
  snd (_enrich_geo_records sample_geo_api sample_geo_records) = Ok sample_geo_enriched
  /\ exists details,
       snd (_geo_target_details sample_geo_api (geo_criterion_ids sample_geo_records))
       = Ok details
       /\ Forall2 (enriched_from details) sample_geo_records sample_geo_enriched.
Proof.
  split; [vm_compute; reflexivity|].
  apply (C6_enrich_geo_records sample_geo_api sample_geo_records sample_geo_enriched).
  vm_compute; reflexivity.
Defined.

(** C7, as stated, fails when a lookup raises: with 450 distinct
    identifiers and an API that fails on the second chunk, two lookups are
    issued, of 200 identifiers each, not three, and there is no mapping:
    the enricher raises. *)
Lemma C7_failed_lookup_ends_chunks :
  length (geo_criterion_ids geo_records_450) = 450
  /\ length <$> fst (_enrich_geo_records geo_api_failing_on_21200 geo_records_450)
     = [200; 200]
  /\ snd (_enrich_geo_records geo_api_failing_on_21200 geo_records_450)
     = Raise "GoogleAdsException: deadline exceeded".
Proof. split; [|split]; vm_compute; reflexivity. Qed.

(** C7, amended: the enricher collects the distinct numeric identifiers
    (the stripped [state_code]s that are digit strings) and cuts them into
    consecutive chunks of at most 200; when the lookup of every chunk
    answers, it issues exactly one lookup per chunk, in order; with 450
    identifiers that is 3 lookups of 200, 200 and 50 identifiers. The resulting mapping holds
    every identifier the lookups returned, with the name, canonical name,
    target type and country code of the row returned for it (of the last
    such row, should an identifier come back more than once), and nothing
    else. *)
Theorem C7_geo_lookup_chunks :
  forall (ga : GeoApi) (records : list GeoRecord),
    let ids := geo_criterion_ids records in
    let chunks := py_chunks 200 ids in
    Forall (fun chunk => exists rows, ga chunk = Ok rows) chunks ->
    NoDup ids
    /\ (forall x, x ∈ ids
          <-> PyStr.isdigit x = true
              /\ exists r, r ∈ records /\ PyStr.strip (g_state_code r) = x)
    /\ concat chunks = ids
    /\ Forall (fun c => 0 < length c <= 200) chunks
    /\ fst (_enrich_geo_records ga records) = chunks
    /\ (exists resolved,
          _geo_target_details ga ids = (chunks, Ok resolved)
          /\ (forall cid,
                option_Forall2 carries_details
                  (last (filter (fun row => PyNum.str (gt_id row) = cid)
                                (returned_rows ga chunks)))
                  (resolved !! cid))
          /\ (forall row, row ∈ returned_rows ga chunks ->
                is_Some (resolved !! PyNum.str (gt_id row))))
    /\ (length ids = 450 -> length <$> chunks = [200; 200; 50]).
Proof.
  intros ga records ids chunks Hga.
  pose proof (geo_target_details_total ga ids Hga) as Hdet.
  fold chunks in Hdet. change (py_chunks chunk_size ids) with chunks in Hdet.
  assert (Hlookup : forall cid,
    fold_left add_resolved (returned_rows ga chunks) ∅ !! cid
    = geo_info_of <$> last (filter (fun row => PyNum.str (gt_id row) = cid)
                                   (returned_rows ga chunks))).
  { intros cid. rewrite resolved_fold_lookup, lookup_empty.
    destruct (last _); reflexivity. }
  split; [apply geo_criterion_ids_NoDup|].
  split; [apply geo_criterion_ids_spec|].
  split; [apply chunks_from_concat; [lia | reflexivity]|].
  split; [apply chunks_from_bounded; lia|].
  split; [unfold _enrich_geo_records; fold ids; rewrite Hdet; reflexivity|].
  split; [|apply chunks_450].
  eexists. split; [exact Hdet|]. split.
  - intros cid. rewrite Hlookup.
    destruct (last _) as [row|]; constructor. repeat split.
  - intros row Hrow. rewrite Hlookup.
    pose proof (filter_key_present (returned_rows ga chunks) row Hrow) as Hne.
    destruct (last _) eqn:Hlast; [eexists; reflexivity|].
    apply last_None in Hlast. contradiction.
Qed.

Lemma C7_geo_lookup_chunks_witness :
  Forall (fun chunk => exists rows, sample_geo_api chunk = Ok rows)
    (py_chunks 200 (geo_criterion_ids geo_records_450))
  /\ length (geo_criterion_ids geo_records_450) = 450
  /\ length <$> fst (_enrich_geo_records sample_geo_api geo_records_450)
     = [200; 200; 50].
Proof.
  assert (Hga : Forall (fun chunk => exists rows, sample_geo_api chunk = Ok rows)
                  (py_chunks 200 (geo_criterion_ids geo_records_450)))
    by (apply Forall_forall; intros chunk _; eexists; reflexivity).
  assert (Hlen : length (geo_criterion_ids geo_records_450) = 450)
    by (vm_compute; reflexivity).
  split; [exact Hga|]. split; [exact Hlen|].
  destruct (C7_geo_lookup_chunks sample_geo_api geo_records_450 Hga)
    as (_ & _ & _ & _ & Hcalls & _ & H450).
  rewrite Hcalls. exact (H450 Hlen).
Defined.

(** ** Joined error messages *)

Lemma str_app_cons (x : ascii) (a b : string) :
  String x a +:+ b = String x (a +:+ b).
Proof. reflexivity. Qed.

Lemma str_app_assoc (a b c : string) : (a +:+ b) +:+ c = a +:+ (b +:+ c).
Proof.
  induction a as [|x a IH]; [reflexivity|].
  rewrite !str_app_cons, IH. reflexivity.
Qed.

Lemma str_app_nil_r (a : string) : a +:+ "" = a.
Proof.
  induction a as [|x a IH]; [reflexivity|].
  rewrite str_app_cons, IH. reflexivity.
Qed.

Lemma Substring_trans (a b c : string) :
  PyStr.Substring a b -> PyStr.Substring b c -> PyStr.Substring a c.
Proof.
  intros (p1 & q1 & ->) (p2 & q2 & ->).
  exists (p2 +:+ p1), (q1 +:+ q2). rewrite !str_app_assoc. reflexivity.
Qed.

Lemma join_Substring (sep x : string) (l : list string) :
  x ∈ l -> PyStr.Substring x (PyStr.join sep l).
Proof.
  induction l as [|y l IH]; intros Hin; [inversion Hin|].
  apply elem_of_cons in Hin.
  destruct l as [|z l].
  - destruct Hin as [-> | Hin]; [|inversion Hin].
    exists "", "". cbn. rewrite str_app_nil_r. reflexivity.
  - change (PyStr.join sep (y :: z :: l))
      with (y +:+ sep +:+ PyStr.join sep (z :: l)).
    destruct Hin as [-> | Hin].
    + exists "", (sep +:+ PyStr.join sep (z :: l)). reflexivity.
    + destruct (IH Hin) as (pre & post & Hj). rewrite Hj.
      exists (y +:+ sep +:+ pre), post. rewrite !str_app_assoc. reflexivity.
Qed.

(** ** C2 and C8: the run *)

Section Run.
Context {R : Type} `{Keyed R}.

Lemma sync_entities_spec (w : World R) (dc : string) (names : list string)
    (total : nat) (errors : list string) :
  sync_entities w dc names total errors
  = (concat (map (entity_ops w dc) names),
     total + sum_list (map (entity_upserted w dc) names),
     errors ++ omap (entity_error w dc) names).
Proof.
  revert total errors. induction names as [|name names IH]; intros total errors.
  - cbn. rewrite Nat.add_0_r, app_nil_r. reflexivity.
  - cbn [sync_entities map concat]. unfold entity_ops at 1.
    change (omap ?f (?x :: ?l))
      with (match f x with Some y => y :: omap f l | None => omap f l end).
    unfold entity_upserted at 1, entity_error at 1.
    destruct (process_entity w dc name) as [ops [n|exc]]; cbn [fst snd];
      rewrite IH; cbn [sum_list_with id].
    + f_equal. f_equal. unfold id. lia.
    + rewrite <- app_assoc. f_equal.
Qed.

Lemma sum_upserted_succeeded (w : World R) (dc : string) (names : list string) :
  sum_list (map (entity_upserted w dc) names)
  = sum_list (map (entity_upserted w dc)
                  (filter (fun name => ~ entity_failed w dc name) names)).
Proof.
  induction names as [|name names IH]; [reflexivity|].
  rewrite filter_cons. destruct (decide (~ entity_failed w dc name)) as [Hok|Hfail].
  - cbn. rewrite IH. reflexivity.
  - cbn. rewrite <- IH. unfold entity_upserted at 1.
    destruct (snd (process_entity w dc name)) as [n|exc] eqn:Hr; [|reflexivity].
    exfalso. apply Hfail. intros [exc Hexc]. rewrite Hr in Hexc. discriminate.
Qed.

Lemma errors_of_failed (w : World R) (dc : string) (names : list string) :
  (filter (entity_failed w dc) names = [] -> omap (entity_error w dc) names = [])
  /\ (forall name, name ∈ filter (entity_failed w dc) names ->
        exists msg, msg ∈ omap (entity_error w dc) names
                    /\ PyStr.Substring name msg).
Proof.
  induction names as [|name names [IHnil IHin]].
  - split; [reflexivity | intros name Hin; inversion Hin].
  - rewrite filter_cons.
    change (omap ?f (?x :: ?l))
      with (match f x with Some y => y :: omap f l | None => omap f l end).
    destruct (decide (entity_failed w dc name)) as [[exc Hexc]|Hok].
    + assert (Herr : entity_error w dc name = Some (name +:+ ": " +:+ exc))
        by (unfold entity_error; rewrite Hexc; reflexivity).
      rewrite Herr. split; [discriminate|].
      intros name' Hin. apply elem_of_cons in Hin as [-> | Hin].
      * exists (name +:+ ": " +:+ exc). split; [left|].
        exists "", (": " +:+ exc). reflexivity.
      * destruct (IHin name' Hin) as (msg & Hmsg & Hsub).
        exists msg. split; [right; exact Hmsg | exact Hsub].
    + assert (Herr : entity_error w dc name = None).
      { unfold entity_error.
        destruct (snd (process_entity w dc name)) as [n|exc] eqn:Hr; [reflexivity|].
        exfalso. apply Hok. exists exc. exact Hr. }
      rewrite Herr. split; assumption.
Qed.

Lemma is_empty_nil {A} (l : list A) : is_empty l = true <-> l = [].
Proof. destruct l; split; intros Heq; try reflexivity; discriminate. Qed.

End Run.

Section RunClaims.
Context {R : Type} `{Keyed R}.

Lemma upsert_chunks_ops (w : World R) (table : string)
    (chunks : list (list R)) (total : nat) :
  Forall is_upsert (fst (upsert_chunks w table chunks total)).
Proof.
  revert total. induction chunks as [|chunk chunks IH]; intros total; [constructor|].
  cbn [upsert_chunks]. destruct (w_upsert w table chunk).
  - specialize (IH (total + length chunk)).
    destruct (upsert_chunks w table chunks (total + length chunk)).
    constructor; [exact I | exact IH].
  - repeat constructor.
Qed.

(** When every call is accepted, the count returned is the number of
    records left after deduplication. *)
Lemma upsert_chunks_count (w : World R) (table : string)
    (chunks : list (list R)) (total : nat) :
  (forall chunk, w_upsert w table chunk = Ok ()) ->
  snd (upsert_chunks w table chunks total) = Ok (total + length (concat chunks)).
Proof.
  intros Hok. revert total.
  induction chunks as [|chunk chunks IH]; intros total.
  - cbn. f_equal. lia.
  - cbn [upsert_chunks]. rewrite Hok. specialize (IH (total + length chunk)).
    destruct (upsert_chunks w table chunks (total + length chunk)) as [ops r].
    cbn [snd] in *. rewrite IH. cbn [concat]. rewrite length_app. f_equal. lia.
Qed.

Lemma upsert_count (w : World R) (table : string) (records : list R) :
  (forall chunk, w_upsert w table chunk = Ok ()) ->
  snd (_upsert w table records) = Ok (length (keep_last records)).
Proof.
  intros Hok. unfold _upsert. destruct records as [|r records]; [reflexivity|].
  rewrite dedupe_keep_last, (upsert_chunks_count _ _ _ _ Hok).
  unfold py_chunks, BATCH_SIZE.
  rewrite chunks_from_concat by lia. reflexivity.
Qed.

(** Whatever the command line, [main] is one run of [sync]. *)
Lemma main_runs_sync (w : World R) (args : Args) :
  exists date_from date_to, main w args = sync w date_from date_to.
Proof.
  unfold main. destruct (opt_truthy (arg_date args)); [eauto|].
  destruct (opt_truthy (arg_date_from args)); eauto.
Qed.

Lemma entity_ops_upserts (w : World R) (dc : string) (name : string) :
  Forall is_upsert (entity_ops w dc name).
Proof.
  unfold entity_ops, process_entity, _upsert.
  destruct (w_produce w name dc) as [[|r records]|e]; try constructor.
  destruct (_dedupe (r :: records)); [apply upsert_chunks_ops | constructor].
Qed.

Lemma all_entity_ops_upserts (w : World R) (dc : string) (names : list string) :
  Forall is_upsert (concat (map (entity_ops w dc) names)).
Proof.
  induction names as [|name names IH]; [constructor|].
  cbn [map concat]. apply Forall_app. split; [apply entity_ops_upserts | exact IH].
Qed.

Lemma upsert_not_update (op : StoreOp R) : is_upsert op -> ~ is_update op.
Proof. destruct op; cbn; tauto. Qed.

(** What the loop leaves behind, by the entities that failed. *)
Lemma run_errors (w : World R) (dc : string) :
  let errors := omap (entity_error w dc) ENTITIES in
  let failed := filter (entity_failed w dc) ENTITIES in
  (failed = [] -> errors = [])
  /\ (failed <> [] ->
      errors <> []
      /\ forall name, name ∈ failed ->
           PyStr.Substring name (PyStr.join "; " errors)).
Proof.
  intros errors failed.
  destruct (errors_of_failed w dc ENTITIES) as [Hnil Hin].
  split; [exact Hnil|]. intros Hfailed.
  assert (Hsub : forall name, name ∈ failed ->
            PyStr.Substring name (PyStr.join "; " errors)).
  { intros name Hname. destruct (Hin name Hname) as (msg & Hmsg & Hsub).
    eapply Substring_trans; [exact Hsub | apply join_Substring; exact Hmsg]. }
  split; [|exact Hsub].
  destruct failed as [|name failed'] eqn:Hf; [congruence|].
  destruct (Hin name) as (msg & Hmsg & _).
  { fold failed. rewrite Hf. left. }
  intros Hnil'. fold errors in Hmsg. rewrite Hnil' in Hmsg. inversion Hmsg.
Qed.

(** C2, amended: in every run whose run row came back with a usable
    identifier, each entity is processed whether or not an earlier one
    raised, and one update of the run row is issued at the end. It carries
    the sum of the rows upserted by the entities that succeeded. If at
    least one entity raised, it carries status "error" and an error
    message that contains the name of every failing entity, and the exit
    code is 1; if none raised, it carries status "success" and no message,
    and the exit code is 0 provided the update call itself returns. *)
Theorem C2_run_finalised :
  forall (w : World R) (date_from date_to : option string)
         (id : SyncId) (more : list SyncId),
    w_insert_log w = Ok (id :: more) ->
    sync_id_truthy (Some id) = true ->
    let dc := run_date_condition w date_from date_to in
    let failed := filter (entity_failed w dc) ENTITIES in
    let succeeded := filter (fun name => ~ entity_failed w dc name) ENTITIES in
    let total := sum_list (map (entity_upserted w dc) succeeded) in
    exists status message,
      fst (sync w date_from date_to)
      = OpInsertLog "running" 0
        :: concat (map (entity_ops w dc) ENTITIES)
        ++ [OpUpdateLog id status total message]
      /\ (failed <> [] ->
          status = "error"
          /\ (exists msg, message = Some msg
                /\ forall name, name ∈ failed -> PyStr.Substring name msg)
          /\ exit_code (snd (sync w date_from date_to)) = 1%Z)
      /\ (failed = [] ->
          status = "success" /\ message = None
          /\ (w_update_log w = Ok () -> exit_code (snd (sync w date_from date_to)) = 0%Z)).
Proof.
  intros w date_from date_to id more Hins Htruthy dc failed succeeded total.
  destruct (run_errors w dc) as [Hnone Hsome]. fold failed in Hnone, Hsome.
  unfold sync. fold dc. cbv zeta. rewrite Hins. cbn [sync_id_of head].
  rewrite sync_entities_spec. cbn [app Nat.add]. rewrite Htruthy.
  rewrite sum_upserted_succeeded. fold succeeded total.
  unfold final_update.
  set (errors := omap (entity_error w dc) ENTITIES) in *.
  destruct (decide (failed = [])) as [Hf|Hf].
  - rewrite (Hnone Hf). cbn [is_empty].
    exists "success", None.
    split; [destruct (w_update_log w); reflexivity|].
    split; [intros Hne; contradiction|].
    intros _. split; [reflexivity|]. split; [reflexivity|].
    intros Hupd. rewrite Hupd. reflexivity.
  - destruct (Hsome Hf) as [Herr Hsub].
    destruct errors as [|e errors'] eqn:He; [congruence|]. cbn [is_empty].
    exists "error", (Some (PyStr.join "; " (e :: errors'))).
    split; [destruct (w_update_log w); reflexivity|].
    split; [|intros Hnil; contradiction].
    intros _. split; [reflexivity|].
    split; [eexists; split; [reflexivity | exact Hsub]|].
    destruct (w_update_log w); reflexivity.
Qed.

(** C8, amended: when the insertion of the run row returns without a
    usable identifier (no row, or an id that is zero or empty), the run
    goes through every entity as usual, issues no update of the run row,
    and ends by the entities' outcomes alone: it returns when none failed
    and exits with code 1 otherwise. (An insertion that raises is not
    caught.) *)
Theorem C8_missing_run_id_tolerated :
  forall (w : World R) (date_from date_to : option string) (data : list SyncId),
    w_insert_log w = Ok data ->
    sync_id_truthy (sync_id_of data) = false ->
    let dc := run_date_condition w date_from date_to in
    sync w date_from date_to
    = (OpInsertLog "running" 0 :: concat (map (entity_ops w dc) ENTITIES),
       if decide (filter (entity_failed w dc) ENTITIES = []) then Returned
       else SysExit 1)
    /\ Forall (fun op => ~ is_update op) (fst (sync w date_from date_to)).
Proof.
  intros w date_from date_to data Hins Htruthy dc.
  destruct (run_errors w dc) as [Hnone Hsome].
  assert (Hsync : sync w date_from date_to
    = (OpInsertLog "running" 0 :: concat (map (entity_ops w dc) ENTITIES),
       if decide (filter (entity_failed w dc) ENTITIES = []) then Returned
       else SysExit 1)).
  { unfold sync. fold dc. cbv zeta. rewrite Hins, sync_entities_spec. cbn [app].
    assert (Hfinish :
      (if is_empty (omap (entity_error w dc) ENTITIES) then Returned else SysExit 1)
      = if decide (filter (entity_failed w dc) ENTITIES = []) then Returned
        else SysExit 1).
    { destruct (decide (filter (entity_failed w dc) ENTITIES = [])) as [Hf|Hf].
      - rewrite (Hnone Hf). reflexivity.
      - destruct (Hsome Hf) as [Herr _].
        destruct (omap (entity_error w dc) ENTITIES); [congruence | reflexivity]. }
    rewrite Hfinish.
    destruct (sync_id_of data) as [id|]; [|reflexivity].
    rewrite Htruthy. reflexivity. }
  split; [exact Hsync|]. rewrite Hsync. cbn [fst].
  constructor; [cbn; tauto|].
  eapply Forall_impl; [apply all_entity_ops_upserts | apply upsert_not_update].
Qed.

End RunClaims.

(** C2, as stated, fails when the insertion of the run row returned no row:
    the ads entity raises and the ten others succeed, the process exits
    with code 1, yet no update of the run row is issued, so the run record
    is not finalised. *)
Lemma C2_not_finalised_without_id :
  filter (entity_failed run_without_id "segments.date = '2026-02-17'") ENTITIES = ["ads"]
  /\ Forall (fun op => ~ is_update op) (fst (sync run_without_id (Some "2026-02-17") None))
  /\ snd (sync run_without_id (Some "2026-02-17") None) = SysExit 1.
Proof.
  split; [vm_compute; reflexivity|]. split; [|vm_compute; reflexivity].
  vm_compute. repeat (constructor; [tauto|]). constructor.
Qed.

Lemma C2_run_finalised_witness :
  w_insert_log run_with_id = Ok [IdInt 42]
  /\ sync_id_truthy (Some (IdInt 42)) = true
  /\ exists status message,
       fst (sync run_with_id (Some "2026-02-17") None)
       = OpInsertLog "running" 0
         :: concat (map (entity_ops run_with_id "segments.date = '2026-02-17'") ENTITIES)
         ++ [OpUpdateLog (IdInt 42) status 20 message]
       /\ status = "error"
       /\ exit_code (snd (sync run_with_id (Some "2026-02-17") None)) = 1%Z.
Proof.
  split; [reflexivity|]. split; [reflexivity|].
  destruct (C2_run_finalised run_with_id (Some "2026-02-17") None
              (IdInt 42) [] eq_refl eq_refl)
    as (status & message & Htrace & Hfail & _).
  exists status, message.
  destruct Hfail as (Hstatus & _ & Hexit); [vm_compute; discriminate|].
  split; [exact Htrace|]. split; [exact Hstatus | exact Hexit].
Defined.

(** C8, as stated, fails when the insertion fails by raising: the
    exception leaves [sync] before any entity is processed, although the
    entities had rows to upsert, and the process ends with code 1. *)
Lemma C8_insert_exception_fatal :
  sync run_insert_raises (Some "2026-02-17") None
  = ([OpInsertLog "running" 0],
     Uncaught "APIError: relation sync_log does not exist")
  /\ exit_code (snd (sync run_insert_raises (Some "2026-02-17") None)) = 1%Z
  /\ entity_upserted run_insert_raises "segments.date = '2026-02-17'" "campaigns" = 2.
Proof. repeat split; vm_compute; reflexivity. Qed.

Lemma C8_missing_run_id_tolerated_witness :
  w_insert_log run_without_id = Ok []
  /\ sync_id_truthy (sync_id_of []) = false
  /\ snd (sync run_without_id (Some "2026-02-17") None) = SysExit 1
  /\ Forall (fun op => ~ is_update op) (fst (sync run_without_id (Some "2026-02-17") None)).
Proof.
  split; [reflexivity|]. split; [reflexivity|].
  destruct (C8_missing_run_id_tolerated run_without_id (Some "2026-02-17") None
              [] eq_refl eq_refl)
    as [Hsync Hops].
  split; [rewrite Hsync; reflexivity | exact Hops].
Defined.

(** * Further properties of the code *)

(** ** Batched upsert *)

Section Upsert.
Context {R : Type} `{Keyed R}.

Lemma upsert_chunks_accepted (w : World R) (table : string)
    (chunks : list (list R)) (total : nat) :
  Forall (fun chunk => w_upsert w table chunk = Ok ()) chunks ->
  upsert_chunks w table chunks total
  = (map (OpUpsert table) chunks, Ok (total + length (concat chunks))).
Proof.
  intros Hok. revert total.
  induction Hok as [|chunk chunks Hc _ IH]; intros total.
  - cbn. rewrite Nat.add_0_r. reflexivity.
  - cbn [upsert_chunks]. rewrite Hc, IH. cbn [map concat].
    rewrite length_app. do 2 f_equal. lia.
Qed.

Lemma upsert_chunks_rejected (w : World R) (table : string)
    (chunks : list (list R)) (total : nat) (e : string) :
  snd (upsert_chunks w table chunks total) = Raise e ->
  exists before bad after,
    chunks = before ++ bad :: after
    /\ Forall (fun chunk => w_upsert w table chunk = Ok ()) before
    /\ w_upsert w table bad = Raise e
    /\ fst (upsert_chunks w table chunks total)
       = map (OpUpsert table) (before ++ [bad]).
Proof.
  revert total. induction chunks as [|chunk chunks IH]; intros total;
    [discriminate|].
  cbn [upsert_chunks].
  destruct (w_upsert w table chunk) as [[]|e'] eqn:Hc.
  - specialize (IH (total + length chunk)).
    destruct (upsert_chunks w table chunks (total + length chunk)) as [ops r].
    cbn [fst snd] in *. intros Hr.
    destruct (IH Hr) as (before & bad & after & -> & Hbefore & Hbad & Hops).
    exists (chunk :: before), bad, after.
    split; [reflexivity|]. split; [constructor; assumption|].
    split; [exact Hbad|]. cbn [app map]. rewrite Hops. reflexivity.
  - cbn [fst snd]. intros [= <-]. exists [], chunk, chunks.
    split; [reflexivity|]. split; [constructor|]. split; [exact Hc | reflexivity].
Qed.

Lemma upsert_all_accepted (w : World R) (table : string) (records : list R) :
  (forall chunk, w_upsert w table chunk = Ok ()) ->
  _upsert w table records
  = (map (OpUpsert table) (py_chunks BATCH_SIZE (keep_last records)),
     Ok (length (keep_last records))).
Proof.
  intros Hok. unfold _upsert. destruct records as [|r records]; [reflexivity|].
  rewrite dedupe_keep_last.
  rewrite upsert_chunks_accepted by (apply Forall_forall; intros; apply Hok).
  unfold py_chunks at 2.
  rewrite chunks_from_concat by (unfold BATCH_SIZE; lia). reflexivity.
Qed.

(** X1: over a store that accepts every call, [_upsert] makes no call for
    an empty list and otherwise sends the deduplicated records in
    consecutive batches of at most 500, in order and without loss, and
    returns the number of deduplicated records. *)
Theorem X1_upsert_batches_deduplicated :
  forall (w : World R) (table : string) (records : list R),
    (forall chunk, w_upsert w table chunk = Ok ()) ->
    let kept := keep_last records in
    let chunks := py_chunks BATCH_SIZE kept in
    _upsert w table records = (map (OpUpsert table) chunks, Ok (length kept))
    /\ concat chunks = kept
    /\ Forall (fun chunk => 0 < length chunk <= 500) chunks
    /\ (records = [] -> fst (_upsert w table records) = []).
Proof.
  intros w table records Hok kept chunks.
  assert (Hconcat : concat chunks = kept)
    by (apply chunks_from_concat; [unfold BATCH_SIZE; lia | reflexivity]).
  split; [|split; [exact Hconcat|split]].
  - apply upsert_all_accepted, Hok.
  - apply chunks_from_bounded. unfold BATCH_SIZE. lia.
  - intros ->. reflexivity.
Qed.

(** X2: when [_upsert] raises, it is the store's rejection of one batch:
    every batch before it was accepted and has already been sent, the
    rejected batch is the last call made, and no later batch is sent. *)
Theorem X2_upsert_stops_at_rejected_batch :
  forall (w : World R) (table : string) (records : list R) (e : string),
    snd (_upsert w table records) = Raise e ->
    exists before bad after,
      py_chunks BATCH_SIZE (keep_last records) = before ++ bad :: after
      /\ Forall (fun chunk => w_upsert w table chunk = Ok ()) before
      /\ w_upsert w table bad = Raise e
      /\ fst (_upsert w table records) = map (OpUpsert table) (before ++ [bad]).
Proof.
  intros w table records e. unfold _upsert.
  destruct records as [|r records]; [discriminate|].
  rewrite dedupe_keep_last. apply upsert_chunks_rejected.
Qed.

(** X3: deduplication is idempotent and never lengthens the list: applied
    to its own output it returns that output unchanged. *)
Theorem X3_dedupe_idempotent :
  forall records : list R,
  exists out,
    _dedupe records = Ok out
    /\ _dedupe out = Ok out
    /\ length out <= length records.
Proof.
  intros records. exists (keep_last records).
  split; [apply dedupe_keep_last|]. split.
  - rewrite dedupe_keep_last. f_equal.
    apply keep_last_distinct, keep_last_NoDup.
  - apply sublist_length, keep_last_sublist.
Qed.

End Upsert.

Lemma X1_upsert_batches_deduplicated_witness :
  (forall chunk, w_upsert run_with_id "campaigns" chunk = Ok ())
  /\ _upsert run_with_id "campaigns" (two_days "campaigns")
     = ([OpUpsert "campaigns"
           [{| k_id := "1"; k_date := "2026-02-16"; k_value := 10 |};
            {| k_id := "1"; k_date := "2026-02-17"; k_value := 30 |}]],
        Ok 2).
Proof.
  assert (Hok : forall chunk, w_upsert run_with_id "campaigns" chunk = Ok ())
    by reflexivity.
  split; [exact Hok|].
  destruct (X1_upsert_batches_deduplicated run_with_id "campaigns"
              (two_days "campaigns") Hok) as [Heq _].
  rewrite Heq. vm_compute. reflexivity.
Defined.

Lemma X2_upsert_stops_at_rejected_batch_witness :
  snd (_upsert store_rejects_short_batches "ads" records_501)
  = Raise "APIError: payload rejected"
  /\ length <$> py_chunks BATCH_SIZE (keep_last records_501) = [500; 1]
  /\ exists before bad,
       length before = 1
       /\ fst (_upsert store_rejects_short_batches "ads" records_501)
          = map (OpUpsert "ads") (before ++ [bad]).
Proof.
  assert (Hraise : snd (_upsert store_rejects_short_batches "ads" records_501)
                   = Raise "APIError: payload rejected")
    by (vm_compute; reflexivity).
  assert (Hlens : length <$> py_chunks BATCH_SIZE (keep_last records_501) = [500; 1])
    by (vm_compute; reflexivity).
  split; [exact Hraise|]. split; [exact Hlens|].
  destruct (X2_upsert_stops_at_rejected_batch store_rejects_short_batches "ads"
              records_501 _ Hraise)
    as (before & bad & after & Hchunks & Hbefore & Hbad & Hops).
  exists before, bad. split; [|exact Hops].
  rewrite Hchunks in Hlens.
  destruct before as [|b0 [|b1 before]]; [| reflexivity |].
  - exfalso. cbn in Hlens. injection Hlens as Hlen _.
    cbn in Hbad. rewrite Hlen in Hbad. vm_compute in Hbad. discriminate Hbad.
  - exfalso. cbn in Hlens. destruct before; cbn in Hlens; discriminate Hlens.
Defined.

(** ** Failing and empty geo look-ups *)

Lemma resolve_chunks_raise (ga : GeoApi) (chunks : list (list string))
    (m : gmap string GeoInfo) (e : string) :
  snd (resolve_chunks ga chunks m) = Raise e ->
  exists before bad after,
    chunks = before ++ bad :: after
    /\ Forall (fun chunk => exists rows, ga chunk = Ok rows) before
    /\ ga bad = Raise e
    /\ fst (resolve_chunks ga chunks m) = before ++ [bad].
Proof.
  revert m. induction chunks as [|chunk chunks IH]; intros m; [discriminate|].
  cbn [resolve_chunks]. destruct (ga chunk) as [rows|e'] eqn:Hc.
  - specialize (IH (fold_left add_resolved rows m)).
    destruct (resolve_chunks ga chunks (fold_left add_resolved rows m)) as [calls r].
    cbn [fst snd] in *. intros Hr.
    destruct (IH Hr) as (before & bad & after & -> & Hbefore & Hbad & Hcalls).
    exists (chunk :: before), bad, after.
    split; [reflexivity|]. split; [constructor; eauto|].
    split; [exact Hbad|]. cbn [app]. rewrite Hcalls. reflexivity.
  - cbn [fst snd]. intros [= <-]. exists [], chunk, chunks.
    split; [reflexivity|]. split; [constructor|]. split; [exact Hc | reflexivity].
Qed.

Lemma enrich_geo_record_key (details : gmap string GeoInfo) (rec : GeoRecord) :
  rec_key (enrich_geo_record details rec) = rec_key rec.
Proof.
  unfold enrich_geo_record.
  destruct (details !! PyStr.strip (g_state_code rec)); [|reflexivity].
  destruct (_ && _); reflexivity.
Qed.

Lemma keep_last_map {A B} `{Keyed A} `{Keyed B} (f : A -> B) (l : list A) :
  (forall a, rec_key (f a) = rec_key a) ->
  keep_last (map f l) = map f (keep_last l).
Proof.
  intros Hkey. induction l as [|a l IH]; [reflexivity|].
  cbn [map keep_last]. rewrite Hkey.
  assert (Hkeys : map rec_key (map f l) = map rec_key l).
  { rewrite List.map_map. apply List.map_ext. exact Hkey. }
  rewrite Hkeys.
  destruct (decide (rec_key a ∈ map rec_key l)); [exact IH|].
  cbn [map]. rewrite IH. reflexivity.
Qed.

(** X4: enrichment changes neither the id nor the date of a record, so
    the deduplication that follows it keeps the records at the same
    positions as it would have kept before it: deduplicating the enriched
    records gives the records deduplication keeps of the input, each
    enriched with the details that were resolved for the whole input
    list. *)
Theorem X4_dedupe_after_enrichment :
  forall (ga : GeoApi) (records out : list GeoRecord),
    snd (_enrich_geo_records ga records) = Ok out ->
    map rec_key out = map rec_key records
    /\ exists details,
         snd (_geo_target_details ga (geo_criterion_ids records)) = Ok details
         /\ _dedupe out
            = Ok (map (enrich_geo_record details) (keep_last records)).
Proof.
  intros ga records out. unfold _enrich_geo_records.
  destruct (_geo_target_details ga (geo_criterion_ids records))
    as [calls [details|e]]; cbn; [|discriminate].
  intros [= <-]. split.
  - rewrite List.map_map. apply List.map_ext. apply enrich_geo_record_key.
  - exists details. split; [reflexivity|].
    rewrite dedupe_keep_last. f_equal.
    apply keep_last_map. apply enrich_geo_record_key.
Qed.

Lemma X4_dedupe_after_enrichment_witness :
  snd (_enrich_geo_records sample_geo_api sample_geo_records) = Ok sample_geo_enriched
  /\ map rec_key sample_geo_enriched = map rec_key sample_geo_records
  /\ length <$> _dedupe sample_geo_enriched = Ok 7.
Proof.
  assert (Hout : snd (_enrich_geo_records sample_geo_api sample_geo_records)
                 = Ok sample_geo_enriched) by (vm_compute; reflexivity).
  split; [exact Hout|].
  destruct (X4_dedupe_after_enrichment sample_geo_api sample_geo_records
              sample_geo_enriched Hout) as (Hkeys & details & _ & Hdedupe).
  split; [exact Hkeys|]. rewrite Hdedupe. cbn [fmap result_fmap].
  rewrite length_map. vm_compute. reflexivity.
Defined.

(** X5: when the enricher raises, a geo look-up raised: the look-ups for
    the chunks before it had answered, the failing look-up is the last
    query made, the later chunks are never queried, and no record is
    returned. *)
Theorem X5_enrichment_stops_at_failed_lookup :
  forall (ga : GeoApi) (records : list GeoRecord) (e : string),
    snd (_enrich_geo_records ga records) = Raise e ->
    exists before bad after,
      py_chunks chunk_size (geo_criterion_ids records) = before ++ bad :: after
      /\ Forall (fun chunk => exists rows, ga chunk = Ok rows) before
      /\ ga bad = Raise e
      /\ fst (_enrich_geo_records ga records) = before ++ [bad].
Proof.
  intros ga records e. unfold _enrich_geo_records, _geo_target_details.
  destruct (geo_criterion_ids records) as [|x ids] eqn:Hids; [discriminate|].
  pose proof (resolve_chunks_raise ga (py_chunks chunk_size (x :: ids)) ∅ e) as Hr.
  destruct (resolve_chunks ga (py_chunks chunk_size (x :: ids)) ∅) as [calls [details|e']];
    cbn [fst snd] in *; [discriminate|].
  cbn. intros [= <-]. apply Hr. reflexivity.
Qed.

Lemma X5_enrichment_stops_at_failed_lookup_witness :
  snd (_enrich_geo_records geo_api_down sample_geo_records)
  = Raise "GoogleAdsException: deadline exceeded"
  /\ exists bad, fst (_enrich_geo_records geo_api_down sample_geo_records) = [bad].
Proof.
  assert (Hraise : snd (_enrich_geo_records geo_api_down sample_geo_records)
                   = Raise "GoogleAdsException: deadline exceeded")
    by (vm_compute; reflexivity).
  split; [exact Hraise|].
  destruct (X5_enrichment_stops_at_failed_lookup geo_api_down sample_geo_records
              _ Hraise) as (before & bad & after & _ & _ & _ & Hcalls).
  exists bad. rewrite Hcalls.
  assert (Hone : length (fst (_enrich_geo_records geo_api_down sample_geo_records)) = 1)
    by (vm_compute; reflexivity).
  rewrite Hcalls, length_app in Hone. cbn [length] in Hone.
  destruct before; [reflexivity | cbn [length] in Hone; lia].
Defined.

(** X6: when no record carries a numeric identifier (its stripped
    [state_code] is not a digit string), the enricher queries nothing and
    returns the records unchanged. *)
Theorem X6_enrichment_without_numeric_ids :
  forall (ga : GeoApi) (records : list GeoRecord),
    Forall (fun r => PyStr.isdigit (PyStr.strip (g_state_code r)) = false) records ->
    _enrich_geo_records ga records = ([], Ok records).
Proof.
  intros ga records Hnone.
  assert (Hids : geo_criterion_ids records = []).
  { unfold geo_criterion_ids.
    assert (Hfilter : filter (fun s => PyStr.isdigit s = true)
                        (map (fun r => PyStr.strip (g_state_code r)) records) = []).
    { induction Hnone as [|r records Hr _ IH]; [reflexivity|].
      cbn [map]. rewrite filter_cons_False by congruence. exact IH. }
    rewrite Hfilter. reflexivity. }
  unfold _enrich_geo_records. rewrite Hids. cbn. f_equal. f_equal.
  clear Hids Hnone.
  induction records as [|r records IH]; [reflexivity|].
  cbn [map]. rewrite IH. reflexivity.
Qed.

Lemma X6_enrichment_without_numeric_ids_witness :
  Forall (fun r => PyStr.isdigit (PyStr.strip (g_state_code r)) = false)
         unresolvable_geo_records
  /\ _enrich_geo_records sample_geo_api unresolvable_geo_records
     = ([], Ok unresolvable_geo_records).
Proof.
  assert (Hnone : Forall (fun r => PyStr.isdigit (PyStr.strip (g_state_code r)) = false)
                         unresolvable_geo_records)
    by (repeat constructor).
  split; [exact Hnone|].
  exact (X6_enrichment_without_numeric_ids sample_geo_api unresolvable_geo_records Hnone).
Defined.

(** ** From the geo transform to the look-up *)

Lemma digit_char_plain (c : ascii) :
  PyStr.is_digit_char c = true ->
  PyStr.is_space c = false /\ Ascii.eqb c "/" = false.
Proof.
  destruct c as [[] [] [] [] [] [] [] []]; vm_compute; intros Hd;
    first [discriminate Hd | split; reflexivity].
Qed.

Lemma last_segment_from_digits (s cur : string) :
  PyStr.all_digits s = true -> last_segment_from s cur = cur.
Proof.
  induction s as [|c s IH]; [reflexivity|]. cbn [PyStr.all_digits last_segment_from].
  intros Hd. apply andb_true_iff in Hd as [Hc Hs].
  destruct (digit_char_plain c Hc) as [_ Hslash]. rewrite Hslash. exact (IH Hs).
Qed.

Lemma last_segment_after_slash (pre seg cur : string) :
  PyStr.all_digits seg = true ->
  last_segment_from (pre +:+ "/" +:+ seg) cur = seg.
Proof.
  intros Hd. revert cur. induction pre as [|c pre IH]; intros cur.
  - change (last_segment_from seg seg = seg). apply last_segment_from_digits, Hd.
  - rewrite str_app_cons. cbn [last_segment_from].
    destruct (Ascii.eqb c "/"); apply IH.
Qed.

Lemma lstrip_digits (s : string) : PyStr.all_digits s = true -> PyStr.lstrip s = s.
Proof.
  destruct s as [|c s]; [reflexivity|]. cbn [PyStr.all_digits PyStr.lstrip].
  intros Hd. apply andb_true_iff in Hd as [Hc _].
  destruct (digit_char_plain c Hc) as [Hspace _]. rewrite Hspace. reflexivity.
Qed.

Lemma rstrip_digits (s : string) : PyStr.all_digits s = true -> PyStr.rstrip s = s.
Proof.
  induction s as [|c s IH]; [reflexivity|]. cbn [PyStr.all_digits PyStr.rstrip].
  intros Hd. apply andb_true_iff in Hd as [Hc Hs]. rewrite (IH Hs).
  destruct (digit_char_plain c Hc) as [Hspace _].
  destruct s; [rewrite Hspace|]; reflexivity.
Qed.

Lemma isdigit_all_digits (s : string) :
  PyStr.isdigit s = true -> PyStr.all_digits s = true /\ s <> "".
Proof. destruct s; [discriminate|]. intros Hd. split; [exact Hd | discriminate]. Qed.

Lemma strip_digits (s : string) : PyStr.isdigit s = true -> PyStr.strip s = s.
Proof.
  intros Hd. apply isdigit_all_digits in Hd as [Hd _].
  unfold PyStr.strip. rewrite (lstrip_digits s Hd). apply rstrip_digits, Hd.
Qed.

Lemma mapM_Forall2 {A B} (f : A -> result B) (l : list A) :
  (forall x, exists y, f x = Ok y) ->
  exists out, mapM f l = Ok out /\ Forall2 (fun x y => f x = Ok y) l out.
Proof.
  intros Hf. induction l as [|x l (out & Hout & Hall)].
  - exists []. split; [reflexivity | constructor].
  - destruct (Hf x) as [y Hy]. exists (y :: out).
    split; [cbn [mapM]; rewrite Hy, Hout; reflexivity | constructor; assumption].
Qed.

Lemma xf_geo_region (r : GeoRow) (pre seg : string) :
  cpc_finite (gr_metrics r) ->
  gr_geo_target_region r = pre +:+ "/" +:+ seg ->
  PyStr.isdigit seg = true ->
  exists o,
    xf_geo r = Ok o /\ g_state o = seg /\ g_state_code o = seg
    /\ g_id o = _make_id [KInt (gr_campaign_id r); KStr seg].
Proof.
  intros Hf Hregion Hd. apply isdigit_all_digits in Hd as [Hd Hne].
  destruct (micros_double_finite _ Hf) as [cpc Hcpc].
  unfold xf_geo. rewrite Hcpc, !div_guarded.
  cbn [mbind result_bind mret result_ret].
  assert (Hnonempty : String.eqb (gr_geo_target_region r) "" = false).
  { rewrite Hregion. destruct pre; reflexivity. }
  assert (Hseg : last_segment (gr_geo_target_region r) = seg).
  { unfold last_segment. rewrite Hregion at 1. apply last_segment_after_slash, Hd. }
  rewrite Hnonempty. cbn [negb]. rewrite Hseg.
  eexists. split; [reflexivity|]. cbn.
  split; [reflexivity|]. split; [reflexivity|].
  unfold str_or. apply String.eqb_neq in Hne. rewrite Hne. reflexivity.
Qed.

(** X7: in a batch of geo rows whose [average_cpc] values are all finite
    (so that the transform returns), a row whose region resource name ends
    in a slash followed by digits is given those digits as [state] and
    [state_code] (and an id hashed from the campaign id and those digits),
    and the enricher puts that identifier among those it looks up. *)
Theorem X7_region_segment_is_looked_up :
  forall (rows : list GeoRow) (r : GeoRow) (pre seg : string),
    Forall (fun r => cpc_finite (gr_metrics r)) rows ->
    r ∈ rows ->
    gr_geo_target_region r = pre +:+ "/" +:+ seg ->
    PyStr.isdigit seg = true ->
    exists out,
      _xf_geo_performance rows = Ok out
      /\ (exists o, o ∈ out /\ g_state o = seg /\ g_state_code o = seg
                    /\ g_id o = _make_id [KInt (gr_campaign_id r); KStr seg])
      /\ seg ∈ geo_criterion_ids out.
Proof.
  intros rows r pre seg Hfin Hin Hregion Hd.
  destruct (mapM_returns xf_geo (fun r => cpc_finite (gr_metrics r))
              geo_ratios_guarded rows xf_geo_Ok xf_geo_returns) as [Hiff Hall].
  destruct (proj1 Hiff Hfin) as [out Hout]. specialize (Hall out Hout).
  exists out. split; [exact Hout|].
  assert (Hf : cpc_finite (gr_metrics r))
    by (eapply (proj1 (Forall_forall _ _) Hfin), Hin).
  destruct (xf_geo_region r pre seg Hf Hregion Hd)
    as (o & Ho & Hstate & Hcode & Hid).
  assert (Ho_in : o ∈ out).
  { apply list_elem_of_lookup in Hin as [i Hi].
    destruct (Forall2_lookup_l _ _ _ _ _ Hall Hi) as (o' & Ho' & Hxf & _).
    rewrite Ho in Hxf. injection Hxf as <-.
    apply list_elem_of_lookup. eauto. }
  split; [exists o; auto|].
  apply geo_criterion_ids_spec. split; [exact Hd|].
  exists o. split; [exact Ho_in|]. rewrite Hcode. apply strip_digits, Hd.
Qed.

Lemma X7_region_segment_is_looked_up_witness :
  Forall (fun r => cpc_finite (gr_metrics r)) [california_row]
  /\ california_row ∈ [california_row]
  /\ gr_geo_target_region california_row = "geoTargetConstants" +:+ "/" +:+ "21137"
  /\ PyStr.isdigit "21137" = true
  /\ exists out,
       _xf_geo_performance [california_row] = Ok out
       /\ "21137" ∈ geo_criterion_ids out.
Proof.
  assert (Hfin : Forall (fun r => cpc_finite (gr_metrics r)) [california_row])
    by (repeat constructor).
  assert (Hin : california_row ∈ [california_row]) by left.
  split; [exact Hfin|].
  split; [exact Hin|]. split; [reflexivity|]. split; [reflexivity|].
  destruct (X7_region_segment_is_looked_up [california_row] california_row
              "geoTargetConstants" "21137" Hfin Hin eq_refl eq_refl)
    as (out & Hout & _ & Hids).
  exists out. split; assumption.
Defined.

(** ** The other transforms *)

Lemma xf_keyword_Ok (r : KeywordRow) :
  cpc_finite (kr_metrics r) ->
  exists o, xf_keyword r = Ok o /\ keyword_ratios_guarded o.
Proof.
  intros Hf. destruct (micros_double_finite _ Hf) as [cpc Hcpc].
  unfold xf_keyword. rewrite Hcpc, !div_guarded.
  eexists. split; [reflexivity|]. unfold keyword_ratios_guarded. cbn.
  repeat split; reflexivity.
Qed.

Lemma xf_keyword_returns (r : KeywordRow) (o : KeywordRecord) :
  xf_keyword r = Ok o -> cpc_finite (kr_metrics r).
Proof.
  unfold xf_keyword.
  destruct (_micros_double (average_cpc (kr_metrics r))) as [cpc|e] eqn:Hcpc;
    [intros _; eapply micros_double_Ok, Hcpc | discriminate].
Qed.

Lemma xf_ad_Ok (r : AdRow) :
  cpc_finite (ar_metrics r) -> exists o, xf_ad r = Ok o /\ ad_cpa_guarded o.
Proof.
  intros Hf. destruct (micros_double_finite _ Hf) as [cpc Hcpc].
  unfold xf_ad. rewrite Hcpc, !div_guarded.
  eexists. split; [reflexivity|]. reflexivity.
Qed.

Lemma xf_ad_returns (r : AdRow) (o : AdRecord) :
  xf_ad r = Ok o -> cpc_finite (ar_metrics r).
Proof.
  unfold xf_ad.
  destruct (_micros_double (average_cpc (ar_metrics r))) as [cpc|e] eqn:Hcpc;
    [intros _; eapply micros_double_Ok, Hcpc | discriminate].
Qed.

Lemma xf_device_Ok (r : DeviceRow) :
  cpc_finite (dr_metrics r) ->
  exists o, xf_device r = Ok o /\ device_ratios_guarded o.
Proof.
  intros Hf. destruct (micros_double_finite _ Hf) as [cpc Hcpc].
  unfold xf_device. rewrite Hcpc, !div_guarded.
  eexists. split; [reflexivity|]. unfold device_ratios_guarded. cbn.
  repeat split; reflexivity.
Qed.

Lemma xf_device_returns (r : DeviceRow) (o : DeviceRecord) :
  xf_device r = Ok o -> cpc_finite (dr_metrics r).
Proof.
  unfold xf_device.
  destruct (_micros_double (average_cpc (dr_metrics r))) as [cpc|e] eqn:Hcpc;
    [intros _; eapply micros_double_Ok, Hcpc | discriminate].
Qed.

(** What a row-by-row transform gives when it returns. *)
Lemma mapM_guarded {A B} (f : A -> result B) (ok : A -> Prop) (P : B -> Prop)
    (l : list A) :
  (forall x, ok x -> exists y, f x = Ok y /\ P y) ->
  (forall x y, f x = Ok y -> ok x) ->
  (Forall ok l <-> exists out, mapM f l = Ok out)
  /\ forall out, mapM f l = Ok out -> Forall P out /\ length out = length l.
Proof.
  intros Hok Hret. destruct (mapM_returns f ok P l Hok Hret) as [Hiff Hout].
  split; [exact Hiff|]. intros out Hl. specialize (Hout out Hl).
  split; [|symmetry; eapply Forall2_length, Hout].
  eapply Forall2_Forall_r; [exact Hout|].
  apply Forall_forall. intros x _ y [_ HP]. exact HP.
Qed.

(** X8: the keyword, ad and device transforms return exactly when every
    row's [average_cpc] is finite ([int()] raises on NaN and on an
    infinity), and then with one record per row; in every record cpa is 0
    when conversions = 0, roas is 0 when spend = 0 and conv_rate is 0 when
    clicks = 0, each ratio being the quotient of its two fields
    otherwise. *)
Theorem X8_other_ratios_guarded :
  (forall rows : list KeywordRow,
     (Forall (fun r => cpc_finite (kr_metrics r)) rows
      <-> exists out, _xf_keywords rows = Ok out)
     /\ forall out,
          _xf_keywords rows = Ok out ->
          Forall keyword_ratios_guarded out /\ length out = length rows)
  /\ (forall rows : list AdRow,
        (Forall (fun r => cpc_finite (ar_metrics r)) rows
         <-> exists out, _xf_ads rows = Ok out)
        /\ forall out,
             _xf_ads rows = Ok out ->
             Forall ad_cpa_guarded out /\ length out = length rows)
  /\ (forall rows : list DeviceRow,
        (Forall (fun r => cpc_finite (dr_metrics r)) rows
         <-> exists out, _xf_device_performance rows = Ok out)
        /\ forall out,
             _xf_device_performance rows = Ok out ->
             Forall device_ratios_guarded out /\ length out = length rows).
Proof.
  split; [|split]; intros rows.
  - exact (mapM_guarded xf_keyword _ _ rows xf_keyword_Ok xf_keyword_returns).
  - exact (mapM_guarded xf_ad _ _ rows xf_ad_Ok xf_ad_returns).
  - exact (mapM_guarded xf_device _ _ rows xf_device_Ok xf_device_returns).
Qed.

(** ** Closed label sets *)

Lemma dict_get_range (l : list (string * string)) (key fallback : string) :
  dict_get (list_to_map l) key fallback ∈ fallback :: map snd l.
Proof.
  unfold dict_get. induction l as [|[k v] l IH].
  - change (list_to_map []) with (∅ : gmap string string).
    rewrite lookup_empty. left.
  - change (list_to_map ((k, v) :: l))
      with (<[k := v]> (list_to_map l : gmap string string)).
    cbn [map snd]. rewrite lookup_insert.
    destruct (decide (k = key)); cbn [default].
    + right. left.
    + apply elem_of_cons in IH as [-> | IH]; [left | right; right; exact IH].
Qed.

Lemma Forall_omap_Some {A B} (f : A -> option B) (P : B -> Prop) (l : list A) :
  (forall a b, f a = Some b -> P b) -> Forall P (omap f l).
Proof.
  intros Hf. induction l as [|a l IH]; [constructor|].
  change (omap f (a :: l))
    with (match f a with Some y => y :: omap f l | None => omap f l end).
  destruct (f a) as [b|] eqn:Hb; [constructor; eauto | exact IH].
Qed.

Ltac label_in_table table labels :=
  unfold table;
  match goal with
  | |- dict_get (list_to_map ?pairs) ?key ?fallback ∈ _ =>
      let H := fresh "H" in
      pose proof (dict_get_range pairs key fallback) as H;
      cbn [map snd] in H; unfold labels;
      repeat (apply elem_of_cons in H as [H | H]; [rewrite H; repeat constructor|]);
      inversion H
  end.

Lemma status_in_labels (key : string) :
  dict_get _STATUS_MAP key "paused" ∈ status_labels.
Proof. label_in_table _STATUS_MAP status_labels. Qed.

Lemma match_type_in_labels (key : string) :
  _lookup _MATCH_MAP key "Broad" ∈ match_type_labels.
Proof. unfold _lookup, _ename. label_in_table _MATCH_MAP match_type_labels. Qed.

Lemma rating_in_labels (key : string) :
  _lookup _QS_RATING key "" ∈ rating_labels.
Proof. unfold _lookup, _ename. label_in_table _QS_RATING rating_labels. Qed.

Lemma device_in_labels (key : string) :
  _lookup _DEVICE_MAP key "Other" ∈ device_labels.
Proof. unfold _lookup, _ename. label_in_table _DEVICE_MAP device_labels. Qed.

Lemma mapM_Forall_out {A B} (f : A -> result B) (P : B -> Prop) (l : list A) :
  (forall x y, f x = Ok y -> P y) ->
  forall out, mapM f l = Ok out -> Forall P out.
Proof.
  intros Hf. induction l as [|x l IH]; intros out Hout.
  - injection Hout as <-. constructor.
  - cbn [mapM] in Hout. destruct (f x) as [y|e] eqn:Hy; [|discriminate].
    destruct (mapM f l) as [out'|e]; [|discriminate].
    injection Hout as <-. constructor; [eapply Hf, Hy | apply IH; reflexivity].
Qed.

Lemma xf_campaign_status (r : CampaignRow) (o : CampaignRecord) :
  xf_campaign r = Ok o -> c_status o ∈ status_labels.
Proof.
  unfold xf_campaign.
  destruct (_micros_double (average_cpc (cr_metrics r))) as [cpc|e]; [|discriminate].
  rewrite !div_guarded. intros [= <-]. cbn. apply status_in_labels.
Qed.

Lemma xf_keyword_labels (r : KeywordRow) (o : KeywordRecord) :
  xf_keyword r = Ok o -> keyword_labels_ok o.
Proof.
  unfold xf_keyword.
  destruct (_micros_double (average_cpc (kr_metrics r))) as [cpc|e]; [|discriminate].
  rewrite !div_guarded. intros [= <-]. unfold keyword_labels_ok. cbn.
  split; [apply match_type_in_labels|].
  split; [apply rating_in_labels|]. split; [apply rating_in_labels|].
  split; [apply rating_in_labels|].
  unfold int_or_none. destruct (kr_quality_score r =? 0)%Z eqn:Hq; [discriminate|].
  intros [= Hz]. rewrite Hz in Hq. discriminate.
Qed.

Lemma xf_device_label (r : DeviceRow) (o : DeviceRecord) :
  xf_device r = Ok o -> d_device o ∈ device_labels.
Proof.
  unfold xf_device.
  destruct (_micros_double (average_cpc (dr_metrics r))) as [cpc|e]; [|discriminate].
  rewrite !div_guarded. intros [= <-]. cbn. apply device_in_labels.
Qed.

Lemma st_emit_match_type (median_cpa : float)
    (b : float * float * float * SearchTermRow) (o : SearchTermRecord) :
  st_emit median_cpa b = Some o -> s_match_type o ∈ match_type_labels.
Proof.
  destruct b as [[[spend convs] cpa] r]. unfold st_emit.
  destruct (String.eqb (sr_search_term r) ""); [discriminate|].
  destruct (_classify_search_term _ _ _ _) as [label reason].
  intros [= <-]. cbn. apply match_type_in_labels.
Qed.

(** X9: whatever enum values the provider sends, the labels in the
    records a transform returns are from closed sets: a campaign's status
    is enabled, paused or ended; a search term's or keyword's match type is
    Exact, Phrase or Broad; a keyword's three quality ratings are Above
    Average, Average, Below Average or empty, and its quality score is
    never 0 (an unset score is stored as null); a device is Mobile,
    Desktop, Tablet, Connected TV or Other. *)
Theorem X9_labels_from_closed_sets :
  (forall (rows : list CampaignRow) (out : list CampaignRecord),
     _xf_campaigns rows = Ok out ->
     Forall (fun o => c_status o ∈ status_labels) out)
  /\ (forall rows : list SearchTermRow,
        exists out, _xf_search_terms rows = Ok out
                    /\ Forall (fun o => s_match_type o ∈ match_type_labels) out)
  /\ (forall (rows : list KeywordRow) (out : list KeywordRecord),
        _xf_keywords rows = Ok out -> Forall keyword_labels_ok out)
  /\ (forall (rows : list DeviceRow) (out : list DeviceRecord),
        _xf_device_performance rows = Ok out ->
        Forall (fun o => d_device o ∈ device_labels) out).
Proof.
  split; [|split; [|split]].
  - intros rows. apply mapM_Forall_out. exact xf_campaign_status.
  - intros rows. destruct (xf_search_terms_Ok rows) as (m & _ & Hout).
    eexists. split; [exact Hout|].
    apply Forall_omap_Some. apply st_emit_match_type.
  - intros rows. apply mapM_Forall_out. exact xf_keyword_labels.
  - intros rows. apply mapM_Forall_out. exact xf_device_label.
Qed.

(** ** Colliding device rows *)

Lemma xf_device_unlisted (r : DeviceRow) :
  cpc_finite (dr_metrics r) ->
  _DEVICE_MAP !! dr_device r = None ->
  exists o,
    xf_device r = Ok o
    /\ d_device o = "Other"
    /\ rec_key o = (_make_id [KInt (dr_campaign_id r); KStr "Other"], dr_date r).
Proof.
  intros Hf Hnone. destruct (micros_double_finite _ Hf) as [cpc Hcpc].
  unfold xf_device, _lookup, _ename, dict_get.
  rewrite Hcpc, !div_guarded, Hnone.
  eexists. split; [reflexivity|]. split; reflexivity.
Qed.

(** X10: two device rows (with finite [average_cpc], so that the
    transform returns) of the same campaign and day whose device values
    are both missing from the device table are both labelled "Other" and
    get the same (id, date); deduplication then keeps only the later of
    the two. *)
Theorem X10_unlisted_devices_collide :
  forall r1 r2 : DeviceRow,
    cpc_finite (dr_metrics r1) ->
    cpc_finite (dr_metrics r2) ->
    dr_campaign_id r1 = dr_campaign_id r2 ->
    dr_date r1 = dr_date r2 ->
    _DEVICE_MAP !! dr_device r1 = None ->
    _DEVICE_MAP !! dr_device r2 = None ->
    exists o1 o2,
      _xf_device_performance [r1; r2] = Ok [o1; o2]
      /\ d_device o1 = "Other" /\ d_device o2 = "Other"
      /\ rec_key o1 = rec_key o2
      /\ _dedupe [o1; o2] = Ok [o2].
Proof.
  intros r1 r2 Hf1 Hf2 Hcampaign Hdate H1 H2.
  destruct (xf_device_unlisted r1 Hf1 H1) as (o1 & Ho1 & Hd1 & Hk1).
  destruct (xf_device_unlisted r2 Hf2 H2) as (o2 & Ho2 & Hd2 & Hk2).
  exists o1, o2.
  assert (Hkey : rec_key o1 = rec_key o2)
    by (rewrite Hk1, Hk2, Hcampaign, Hdate; reflexivity).
  split; [unfold _xf_device_performance; cbn [mapM]; rewrite Ho1, Ho2; reflexivity|].
  split; [exact Hd1|]. split; [exact Hd2|]. split; [exact Hkey|].
  rewrite dedupe_keep_last. cbn [keep_last map].
  rewrite decide_True by (rewrite Hkey; left).
  rewrite decide_False by (intros Hin; inversion Hin). reflexivity.
Qed.

Lemma X10_unlisted_devices_collide_witness :
  cpc_finite (dr_metrics (device_row "OTHER" 1000000))
  /\ cpc_finite (dr_metrics (device_row "UNKNOWN" 2000000))
  /\ dr_campaign_id (device_row "OTHER" 1000000) = dr_campaign_id (device_row "UNKNOWN" 2000000)
  /\ dr_date (device_row "OTHER" 1000000) = dr_date (device_row "UNKNOWN" 2000000)
  /\ _DEVICE_MAP !! "OTHER" = None
  /\ _DEVICE_MAP !! "UNKNOWN" = None
  /\ exists o1 o2,
       _xf_device_performance [device_row "OTHER" 1000000; device_row "UNKNOWN" 2000000]
       = Ok [o1; o2]
       /\ _dedupe [o1; o2] = Ok [o2].
Proof.
  split; [reflexivity|]. split; [reflexivity|].
  split; [reflexivity|]. split; [reflexivity|].
  assert (H1 : _DEVICE_MAP !! "OTHER" = None) by (vm_compute; reflexivity).
  assert (H2 : _DEVICE_MAP !! "UNKNOWN" = None) by (vm_compute; reflexivity).
  split; [exact H1|]. split; [exact H2|].
  destruct (X10_unlisted_devices_collide (device_row "OTHER" 1000000)
              (device_row "UNKNOWN" 2000000) eq_refl eq_refl eq_refl eq_refl H1 H2)
    as (o1 & o2 & Hout & _ & _ & _ & Hdedupe).
  exists o1, o2. split; [exact Hout | exact Hdedupe].
Defined.

(** ** Landing pages *)

Lemma xf_landing_cases (r : LandingRow) :
  exists o,
    xf_landing r = Ok o
    /\ ((lr_unexpanded_final_url r = "" /\ o = None)
        \/ (lr_unexpanded_final_url r <> ""
            /\ exists rec, o = Some rec
                 /\ lp_url rec = lr_unexpanded_final_url r
                 /\ lp_sessions rec = clicks (lr_metrics r)
                 /\ landing_record_ok rec)).
Proof.
  unfold xf_landing.
  destruct (String.eqb (lr_unexpanded_final_url r) "") eqn:Hurl.
  - apply String.eqb_eq in Hurl. exists None. split; [reflexivity | left; auto].
  - apply String.eqb_neq in Hurl. rewrite div_guarded.
    eexists. split; [reflexivity|]. right. split; [exact Hurl|].
    eexists. split; [reflexivity|]. split; [reflexivity|]. split; [reflexivity|].
    unfold landing_record_ok. cbn. repeat split; try reflexivity. exact Hurl.
Qed.

(** X11: the landing-page transform never raises; it emits, in order,
    exactly the rows with a non-empty URL; each record's id is the hash of
    its URL alone, its sessions are the row's clicks, its conversion rate
    is conversions over sessions, or 0 without sessions, and its bounce
    rate and per-device rates are null. *)
Theorem X11_landing_pages_skip_empty_urls :
  forall rows : list LandingRow,
  exists out,
    _xf_landing_pages rows = Ok out
    /\ map lp_url out
       = filter (fun url => url <> "") (map lr_unexpanded_final_url rows)
    /\ map lp_sessions out
       = map (fun r => clicks (lr_metrics r))
             (filter (fun r => lr_unexpanded_final_url r <> "") rows)
    /\ Forall landing_record_ok out.
Proof.
  intros rows. unfold _xf_landing_pages.
  destruct (mapM_Forall2 xf_landing rows) as (mid & Hmid & Hall).
  { intros r. destruct (xf_landing_cases r) as (o & Ho & _). eauto. }
  rewrite Hmid. cbn [mbind result_bind mret result_ret].
  exists (omap id mid). split; [reflexivity|].
  clear Hmid. induction Hall as [|r o rows mid Ho _ (IHurl & IHsess & IHok)].
  - split; [reflexivity|]. split; [reflexivity | constructor].
  - destruct (xf_landing_cases r) as (o' & Ho' & Hcase).
    rewrite Ho in Ho'. injection Ho' as <-.
    change (omap id (o :: mid))
      with (match id o with Some y => y :: omap id mid | None => omap id mid end).
    cbn [map]. rewrite !filter_cons.
    destruct Hcase as [[Hurl ->] | (Hurl & rec & -> & Hrec_url & Hrec_sess & Hrec_ok)].
    + rewrite !decide_False by (rewrite Hurl; congruence).
      change (id (@None LandingRecord)) with (@None LandingRecord). auto.
    + rewrite !decide_True by exact Hurl.
      change (id (Some rec)) with (Some rec). cbn [map].
      rewrite IHurl, IHsess, Hrec_url, Hrec_sess.
      split; [reflexivity|]. split; [reflexivity|]. constructor; assumption.
Qed.

(** ** Classifiers and letter case *)

Lemma lower_char_idempotent (c : ascii) :
  PyStr.lower_char (PyStr.lower_char c) = PyStr.lower_char c.
Proof. destruct c as [[] [] [] [] [] [] [] []]; vm_compute; reflexivity. Qed.

Lemma lower_idempotent (s : string) : PyStr.lower (PyStr.lower s) = PyStr.lower s.
Proof.
  induction s as [|c s IH]; [reflexivity|].
  cbn [PyStr.lower]. rewrite lower_char_idempotent, IH. reflexivity.
Qed.

(** X12: both classifiers ignore letter case: lower-casing a text first
    changes neither the product nor the intent bucket inferred for it. *)
Theorem X12_classifiers_ignore_case :
  forall text : string,
    infer_product (PyStr.lower text) = infer_product text
    /\ infer_intent_bucket (PyStr.lower text) = infer_intent_bucket text.
Proof.
  intros text. unfold infer_product, infer_intent_bucket.
  rewrite lower_idempotent. split; reflexivity.
Qed.

(** ** Product inference by keyword *)

Lemma any_in_true (ks : list string) (t : string) :
  PyStr.any_in ks t = true <-> Exists (fun k => PyStr.Substring k t) ks.
Proof.
  unfold PyStr.any_in. induction ks as [|k ks IH]; cbn [existsb].
  - split; [discriminate | intros Hex; inversion Hex].
  - rewrite orb_true_iff, Exists_cons, IH, contains_Substring. reflexivity.
Qed.

Lemma any_in_false (ks : list string) (t : string) :
  PyStr.any_in ks t = false <-> Forall (fun k => ~ PyStr.Substring k t) ks.
Proof.
  rewrite <- not_true_iff_false, any_in_true. split.
  - intros Hnex. apply Forall_forall. intros k Hk Hsub.
    apply Hnex. apply Exists_exists. eauto.
  - intros Hall Hex. apply Exists_exists in Hex as (k & Hk & Hsub).
    rewrite Forall_forall in Hall. exact (Hall k Hk Hsub).
Qed.

(** X13: [infer_product] answers "Term Life" exactly when the lower-cased
    text contains a term-life keyword, whatever other keywords it has (the
    first category wins); it answers "Other" exactly when the text
    contains none of the fifteen keywords; and it never answers anything
    but the six product labels. *)
Theorem X13_infer_product_by_keyword :
  forall text : string,
    (infer_product text = "Term Life"
     <-> Exists (fun k => PyStr.Substring k (PyStr.lower text)) term_life_keywords)
    /\ (infer_product text = "Other"
        <-> Forall (fun k => ~ PyStr.Substring k (PyStr.lower text)) product_keywords)
    /\ infer_product text ∈ product_labels.
Proof.
  intros text. unfold infer_product, product_keywords.
  set (t := PyStr.lower text).
  fold term_life_keywords disability_keywords annuity_keywords network_keywords.
  rewrite !Forall_app, <- !any_in_false, <- any_in_true.
  change (PyStr.any_in ["dental"] t) with (PyStr.contains "dental" t || false).
  rewrite orb_false_r.
  destruct (PyStr.any_in term_life_keywords t), (PyStr.contains "dental" t),
    (PyStr.any_in disability_keywords t), (PyStr.any_in annuity_keywords t),
    (PyStr.any_in network_keywords t);
    (split; [split; intros Heq; first [reflexivity | discriminate Heq]|]);
    (split; [split; [intros Heq; first [discriminate Heq | repeat split]
                    | intros (H1 & H2 & H3 & H4 & H5);
                      first [reflexivity | discriminate H1 | discriminate H2
                            | discriminate H3 | discriminate H4 | discriminate H5]]
            | unfold product_labels; repeat constructor]).
Qed.

(** ** Identifiers and the separator *)

Lemma join_cons_cons (sep p q : string) (l : list string) :
  PyStr.join sep (p :: q :: l) = p +:+ sep +:+ PyStr.join sep (q :: l).
Proof. reflexivity. Qed.

Lemma join_split_part (a b : string) (rest : list string) :
  PyStr.join "|" ((a +:+ "|" +:+ b) :: rest) = PyStr.join "|" (a :: b :: rest).
Proof.
  destruct rest as [|q rest].
  - reflexivity.
  - rewrite !join_cons_cons, !str_app_assoc. reflexivity.
Qed.

(** X14: the identifier depends on the parts only through their texts
    joined by "|": an int part and the string of its decimal digits give
    the same identifier, and a string part that contains the separator
    gives the same identifier as the two parts it splits into, so parts
    that may contain "|" (a search term, a URL) can make distinct keys
    share an identifier. *)
Theorem X14_make_id_joins_parts :
  (forall (z : Z) (before after : list Part),
      _make_id (before ++ KInt z :: after)
      = _make_id (before ++ KStr (PyNum.str z) :: after))
  /\ (forall (a b : string) (rest : list Part),
        _make_id (KStr (a +:+ "|" +:+ b) :: rest)
        = _make_id (KStr a :: KStr b :: rest)).
Proof.
  split.
  - intros z before after. unfold _make_id.
    rewrite !List.map_app. reflexivity.
  - intros a b rest. unfold _make_id. cbn [map part_str].
    rewrite join_split_part. reflexivity.
Qed.

(** ** The dates of a run *)

Section Dates.
Context {R : Type} `{Keyed R}.

(** X15: whatever the command line, [main] runs [sync] once, over these
    dates: with [--date] that one day, whatever the other two options
    say; otherwise with [--date-from] the range up to [--date-to], or that
    one day when [--date-to] is missing, empty or the same day; otherwise
    (also when only [--date-to] is given) yesterday. *)
Theorem X15_main_date_condition :
  forall (w : World R) (args : Args),
  exists date_from date_to,
    main w args = sync w date_from date_to
    /\ run_date_condition w date_from date_to
       = if opt_truthy (arg_date args)
         then date_equals (opt_or (arg_date args) "")
         else if opt_truthy (arg_date_from args)
         then
           let d_from := opt_or (arg_date_from args) "" in
           let d_to := opt_or (arg_date_to args) d_from in
           if String.eqb d_from d_to then date_equals d_from
           else date_between d_from d_to
         else date_equals (w_yesterday w).
Proof.
  intros w args. unfold main.
  destruct (arg_date args) as [d|]; cbn [opt_truthy];
    [destruct (String.eqb d "") eqn:Hd; cbn [negb]|];
    try (exists (Some d), (Some d); split; [reflexivity|];
         unfold run_date_condition, _date_condition, date_equals, opt_or, str_or;
         rewrite ?Hd, ?String.eqb_refl; reflexivity);
    (destruct (arg_date_from args) as [f|]; cbn [opt_truthy];
     [destruct (String.eqb f "") eqn:Hf; cbn [negb]|]);
    try (exists None, None; split; [reflexivity|];
         unfold run_date_condition, _date_condition, date_equals, opt_or;
         rewrite String.eqb_refl; reflexivity);
    (exists (Some f), (arg_date_to args); split; [reflexivity|];
     unfold run_date_condition, _date_condition, date_equals, date_between,
       opt_or, str_or;
     rewrite ?Hf; destruct (arg_date_to args) as [t|]; [|reflexivity];
     destruct (String.eqb t ""); reflexivity).
Qed.

End Dates.

(** ** Runs in which nothing, or only the last call, fails *)

Section CleanRun.
Context {R : Type} `{Keyed R}.




(** X17: the final update of the run row is not protected: when it raises,
    the exception leaves [sync] uncaught and the process ends with code 1,
    whether or not any entity failed, after every entity has been processed
    and the update has been attempted. *)
Theorem X17_failed_final_update_is_fatal :
  forall (w : World R) (date_from date_to : option string)
         (id : SyncId) (more : list SyncId) (e : string),
    w_insert_log w = Ok (id :: more) ->
    sync_id_truthy (Some id) = true ->
    w_update_log w = Raise e ->
    let dc := run_date_condition w date_from date_to in
    snd (sync w date_from date_to) = Uncaught e
    /\ exit_code (snd (sync w date_from date_to)) = 1%Z
    /\ exists status total message,
         fst (sync w date_from date_to)
         = OpInsertLog "running" 0
           :: concat (map (entity_ops w dc) ENTITIES)
           ++ [OpUpdateLog id status total message].
Proof.
  intros w date_from date_to id more e Hins Htruthy Hupd dc.
  unfold sync. fold dc. cbv zeta. rewrite Hins. cbn [sync_id_of head].
  rewrite sync_entities_spec. cbn [app Nat.add]. rewrite Htruthy, Hupd.
  cbn [fst snd exit_code]. repeat split. unfold final_update. eauto.
Qed.

End CleanRun.


Lemma X17_failed_final_update_is_fatal_witness :
  snd (sync run_update_raises None None) = Uncaught "APIError: connection reset"
  /\ exit_code (snd (sync run_update_raises None None)) = 1%Z.
Proof.
  destruct (X17_failed_final_update_is_fatal run_update_raises None None
              (IdStr "7d1c") [] "APIError: connection reset"
              eq_refl eq_refl eq_refl) as (Hout & Hexit & _).
  split; [exact Hout | exact Hexit].
Defined.

(** ** The median *)

(** X18: the median the search-term transform works with is 0 for an
    empty sample; otherwise it is one of the sample's values, or the mean
    of two of them. No other number is ever produced, and no error. *)
Theorem X18_median_from_sample :
  forall vals : list float,
  exists m,
    _med vals = Ok m
    /\ ((vals = [] /\ m = 0%float)
        \/ m ∈ vals
        \/ exists a b, a ∈ vals /\ b ∈ vals /\ m = ((a + b) / 2)%float).
Proof.
  intros [|x l].
  - exists 0%float. split; [reflexivity | left; split; reflexivity].
  - unfold _med, median. cbv zeta.
    set (vals := x :: l).
    set (data := merge_sort _ vals).
    assert (Hperm : data ≡ₚ vals) by apply merge_sort_Permutation.
    assert (Hlen : length data = S (length l))
      by (rewrite (Permutation_length Hperm); reflexivity).
    assert (Hin : forall i, (i < length data)%nat -> nth i data 0%float ∈ vals).
    { intros i Hi. rewrite <- Hperm. apply list_elem_of_In, nth_In, Hi. }
    assert (Hhalf : (length data / 2 < length data)%nat)
      by (apply Nat.div_lt; lia).
    destruct (length data =? 0)%nat eqn:Hzero;
      [apply Nat.eqb_eq in Hzero; lia|].
    destruct (length data mod 2 =? 1)%nat.
    + eexists. split; [reflexivity|]. right. left. apply Hin, Hhalf.
    + eexists. split; [reflexivity|]. right. right.
      exists (nth (length data / 2 - 1) data 0%float), (nth (length data / 2) data 0%float).
      split; [apply Hin; lia|]. split; [apply Hin, Hhalf | reflexivity].
Qed.
